(** * Patient monitoring application (app.py): model and verified properties

    The development follows the source file top to bottom: text and JSON
    values as Python sees them, the [json] codec used by [load_patients] and
    [save_patients], the two files of the application, the risk classifier
    [assess_risk] and the request handlers [add_patient] and
    [patient_details]. *)

From Stdlib Require Import ZArith NArith List Bool Lia String Ascii.
From Stdlib Require Import DecimalString DecimalZ DecimalN DecimalPos DecimalFacts.
Import ListNotations.

Set Warnings "-register-all,-notation-for-abbreviation".
Local Open Scope Z_scope.

(** ** Text

    A Python [str] is a sequence of code points.  A character is its code
    point, a natural number. *)

Notation char := N (only parsing).
Definition text := list char.

Definition char_eq_dec : forall a b : char, {a = b} + {a <> b} := N.eq_dec.
Definition text_eq_dec : forall a b : text, {a = b} + {a <> b} :=
  list_eq_dec N.eq_dec.

Definition text_eqb (a b : text) : bool :=
  if text_eq_dec a b then true else false.

(** [T "abc"] is the text of a literal of the source. *)
Definition T (s : string) : text :=
  List.map N_of_ascii (list_ascii_of_string s).

(** ** Risk classifier *)

Inductive RiskTier := LOW | MEDIUM | HIGH.

(** The literal string the source returns for each tier. *)
Definition risk_name (r : RiskTier) : text :=
  match r with
  | LOW => T "LOW"
  | MEDIUM => T "MEDIUM"
  | HIGH => T "HIGH"
  end.

(** [assess_risk], app.py lines 24-30.  Python integers are unbounded. *)
Definition assess_risk (bp_sys bp_dia pulse : Z) : RiskTier :=
  if (bp_sys >? 160) || (bp_dia >? 100) || (pulse >? 120) then HIGH
  else if ((140 <=? bp_sys) && (bp_sys <=? 160))
          || ((90 <=? bp_dia) && (bp_dia <=? 100))
          || ((100 <=? pulse) && (pulse <=? 120)) then MEDIUM
  else LOW.

(** ** JSON values

    What [json.load] returns and [json.dump] accepts.  A Python [dict] keeps
    its keys in insertion order, so an object is an association list; a
    float is kept as the text of its literal. *)

Inductive json :=
| JNull
| JBool (b : bool)
| JInt (z : Z)
| JFloat (lexeme : text)
| JStr (s : text)
| JList (l : list json)
| JDict (d : list (text * json)).

Definition pydict := list (text * json).

(** [d.get(k)] *)
Fixpoint dict_get (d : pydict) (k : text) : option json :=
  match d with
  | [] => None
  | (k', v) :: d' => if text_eq_dec k k' then Some v else dict_get d' k
  end.

(** [d[k] = v]: an existing key keeps its place, a new key goes last. *)
Fixpoint dict_set (d : pydict) (k : text) (v : json) : pydict :=
  match d with
  | [] => [(k, v)]
  | (k', v') :: d' =>
      if text_eq_dec k k' then (k', v) :: d' else (k', v') :: dict_set d' k v
  end.

Definition dict_keys (d : pydict) : list text := List.map fst d.

(** ** Writing JSON: [json.dump(data, f, indent=4)]

    With an indent the encoder puts every item on a line of its own, the item
    separator is a comma and the key separator a colon and a space; strings
    are written in ASCII. *)

Definition hexdigit (n : N) : char :=
  (if n <? 10 then 48 + n else 87 + n)%N.

(** The four lower-case hexadecimal digits of [c]. *)
Definition hex4 (c : N) : text :=
  [hexdigit (c / 4096 mod 16); hexdigit (c / 256 mod 16);
   hexdigit (c / 16 mod 16); hexdigit (c mod 16)]%N.

Definition uescape (c : N) : text := T "\u" ++ hex4 c.

Definition encode_char (c : char) : text :=
  (if c =? 34 then [92; 34]
   else if c =? 92 then T "\\"
   else if c =? 10 then T "\n"
   else if c =? 13 then T "\r"
   else if c =? 9 then T "\t"
   else if c =? 12 then T "\f"
   else if c =? 8 then T "\b"
   else if (32 <=? c) && (c <=? 126) then [c]
   else if c <? 65536 then uescape c
   else uescape (55296 + (c - 65536) / 1024)
        ++ uescape (56320 + (c - 65536) mod 1024))%N.

Definition encode_string (s : text) : text :=
  [34%N] ++ flat_map encode_char s ++ [34%N].

(** Decimal digits of an integer, as [int.__repr__] writes them. *)
Fixpoint uint_text (d : Decimal.uint) : text :=
  match d with
  | Decimal.Nil => []
  | Decimal.D0 d => 48%N :: uint_text d
  | Decimal.D1 d => 49%N :: uint_text d
  | Decimal.D2 d => 50%N :: uint_text d
  | Decimal.D3 d => 51%N :: uint_text d
  | Decimal.D4 d => 52%N :: uint_text d
  | Decimal.D5 d => 53%N :: uint_text d
  | Decimal.D6 d => 54%N :: uint_text d
  | Decimal.D7 d => 55%N :: uint_text d
  | Decimal.D8 d => 56%N :: uint_text d
  | Decimal.D9 d => 57%N :: uint_text d
  end.

Definition int_text (z : Z) : text :=
  match Z.to_int z with
  | Decimal.Pos d => uint_text d
  | Decimal.Neg d => 45%N :: uint_text d
  end.

(** A line break followed by [level] indents of four spaces. *)
Definition newline_indent (level : nat) : text :=
  10%N :: repeat 32%N (4 * level).

Definition item_separator : text := T ",".
Definition key_separator : text := T ": ".

(** [_iterencode] of the Python encoder.  The text of a float is written
    back as it was read: the application writes no float, and the way Python
    formats one is not modelled. *)
Fixpoint encode (level : nat) (v : json) : text :=
  match v with
  | JNull => T "null"
  | JBool true => T "true"
  | JBool false => T "false"
  | JInt z => int_text z
  | JFloat lexeme => lexeme
  | JStr s => encode_string s
  | JList [] => T "[]"
  | JList (x :: l) =>
      T "[" ++ newline_indent (S level) ++ encode (S level) x
      ++ List.concat (List.map (fun y => item_separator ++ newline_indent (S level)
                                    ++ encode (S level) y) l)
      ++ newline_indent level ++ T "]"
  | JDict [] => T "{}"
  | JDict ((k, x) :: d) =>
      T "{" ++ newline_indent (S level)
      ++ encode_string k ++ key_separator ++ encode (S level) x
      ++ List.concat (List.map (fun kv => item_separator ++ newline_indent (S level)
                                     ++ encode_string (fst kv) ++ key_separator
                                     ++ encode (S level) (snd kv)) d)
      ++ newline_indent level ++ T "}"
  end.

Definition json_dumps (v : json) : text := encode 0 v.

(** ** Reading JSON: [json.load(f)]

    The scanner of the Python decoder: white space is blank, tab, line feed
    and carriage return; a document is one value between white space. *)

Definition is_ws (c : char) : bool :=
  ((c =? 32) || (c =? 9) || (c =? 10) || (c =? 13))%N.

Fixpoint skip_ws (s : text) : text :=
  match s with
  | c :: r => if is_ws c then skip_ws r else s
  | [] => []
  end.

Definition is_digit (c : char) : bool := ((48 <=? c) && (c <=? 57))%N.

Definition hexval (c : char) : option N :=
  (if is_digit c then Some (c - 48)
   else if (97 <=? c) && (c <=? 102) then Some (c - 87)
   else if (65 <=? c) && (c <=? 70) then Some (c - 55)
   else None)%N.

Definition parse_hex4 (s : text) : option (N * text) :=
  match s with
  | a :: b :: c :: d :: r =>
      match hexval a, hexval b, hexval c, hexval d with
      | Some x, Some y, Some z, Some w =>
          Some ((((x * 16 + y) * 16 + z) * 16 + w)%N, r)
      | _, _, _, _ => None
      end
  | _ => None
  end.

(** The character a one-letter escape stands for. *)
Definition unescape (e : char) : option char :=
  (if e =? 34 then Some 34
   else if e =? 92 then Some 92
   else if e =? 47 then Some 47
   else if e =? 98 then Some 8
   else if e =? 102 then Some 12
   else if e =? 110 then Some 10
   else if e =? 114 then Some 13
   else if e =? 116 then Some 9
   else None)%N.

Definition is_high_surrogate (c : N) : bool := ((55296 <=? c) && (c <=? 56319))%N.
Definition is_low_surrogate (c : N) : bool := ((56320 <=? c) && (c <=? 57343))%N.

Definition join_surrogates (hi lo : N) : N :=
  (65536 + ((hi - 55296) * 1024 + (lo - 56320)))%N.

Definition push (c : char) (o : option (text * text)) : option (text * text) :=
  match o with
  | Some (s, r) => Some (c :: s, r)
  | None => None
  end.

(** [scanstring], after the opening quote: the decoded text and what follows
    the closing quote.  A raw control character is refused. *)
Fixpoint scan_string (fuel : nat) (s : text) : option (text * text) :=
  match fuel with
  | O => None
  | S f =>
      match s with
      | [] => None
      | c :: r =>
          if (c =? 34)%N then Some ([], r)
          else if (c =? 92)%N then
            match r with
            | [] => None
            | e :: r1 =>
                if (e =? 117)%N then
                  match parse_hex4 r1 with
                  | None => None
                  | Some (u, r2) =>
                      if is_high_surrogate u then
                        match r2 with
                        | 92%N :: 117%N :: r3 =>
                            match parse_hex4 r3 with
                            | None => None
                            | Some (u2, r4) =>
                                if is_low_surrogate u2
                                then push (join_surrogates u u2) (scan_string f r4)
                                else push u (scan_string f r2)
                            end
                        | _ => push u (scan_string f r2)
                        end
                      else push u (scan_string f r2)
                  end
                else
                  match unescape e with
                  | Some c' => push c' (scan_string f r1)
                  | None => None
                  end
            end
          else if (c <? 32)%N then None
          else push c (scan_string f r)
      end
  end.

(** The longest run of decimal digits at the head of [s]. *)
Fixpoint take_digits (s : text) : text * text :=
  match s with
  | c :: r =>
      if is_digit c then let (d, r') := take_digits r in (c :: d, r')
      else ([], s)
  | [] => ([], [])
  end.

Fixpoint uint_of_text (s : text) : Decimal.uint :=
  match s with
  | [] => Decimal.Nil
  | c :: r =>
      let d := uint_of_text r in
      match (c - 48)%N with
      | 0%N => Decimal.D0 d
      | 1%N => Decimal.D1 d
      | 2%N => Decimal.D2 d
      | 3%N => Decimal.D3 d
      | 4%N => Decimal.D4 d
      | 5%N => Decimal.D5 d
      | 6%N => Decimal.D6 d
      | 7%N => Decimal.D7 d
      | 8%N => Decimal.D8 d
      | _ => Decimal.D9 d
      end
  end.

(** A number is an optional minus sign and either a single zero or a run of
    digits that starts with a non-zero one, then an optional fraction and an
    optional exponent; with neither it is an integer. *)
Definition scan_int (s : text) : option (text * text) :=
  match s with
  | c :: r =>
      if (c =? 48)%N then Some ([48%N], r)
      else if is_digit c then Some (take_digits s)
      else None
  | [] => None
  end.

Definition scan_frac (s : text) : text * text :=
  match s with
  | c :: r =>
      if (c =? 46)%N then
        match take_digits r with
        | ([], _) => ([], s)
        | (d, r') => (c :: d, r')
        end
      else ([], s)
  | [] => ([], s)
  end.

Definition scan_exp (s : text) : text * text :=
  match s with
  | e :: r =>
      if ((e =? 101) || (e =? 69))%N then
        match r with
        | sg :: r1 =>
            if ((sg =? 45) || (sg =? 43))%N then
              match take_digits r1 with
              | ([], _) => ([], s)
              | (d, r') => (e :: sg :: d, r')
              end
            else
              match take_digits r with
              | ([], _) => ([], s)
              | (d, r') => (e :: d, r')
              end
        | [] => ([], s)
        end
      else ([], s)
  | [] => ([], s)
  end.

Definition scan_sign (s : text) : bool * text :=
  match s with
  | c :: r => if (c =? 45)%N then (true, r) else (false, s)
  | [] => (false, s)
  end.

Definition scan_number (s : text) : option (json * text) :=
  let (neg, s1) := scan_sign s in
  match scan_int s1 with
  | None => None
  | Some (ip, r2) =>
      let (frac, r3) := scan_frac r2 in
      let (ex, r4) := scan_exp r3 in
      match frac, ex with
      | [], [] =>
          let d := uint_of_text ip in
          Some (JInt (Z.of_int (if neg then Decimal.Neg d else Decimal.Pos d)), r4)
      | _, _ =>
          Some (JFloat ((if neg then [45%N] else []) ++ ip ++ frac ++ ex), r4)
      end
  end.

Fixpoint strip_prefix (p s : text) : option text :=
  match p, s with
  | [], _ => Some s
  | a :: p', b :: s' => if (a =? b)%N then strip_prefix p' s' else None
  | _ :: _, [] => None
  end.

Definition scan_constant (s : text) : option (json * text) :=
  match strip_prefix (T "null") s with
  | Some r => Some (JNull, r)
  | None =>
  match strip_prefix (T "true") s with
  | Some r => Some (JBool true, r)
  | None =>
  match strip_prefix (T "false") s with
  | Some r => Some (JBool false, r)
  | None =>
  match strip_prefix (T "NaN") s with
  | Some r => Some (JFloat (T "NaN"), r)
  | None =>
  match strip_prefix (T "Infinity") s with
  | Some r => Some (JFloat (T "Infinity"), r)
  | None =>
  match strip_prefix (T "-Infinity") s with
  | Some r => Some (JFloat (T "-Infinity"), r)
  | None => scan_number s
  end end end end end end.

(** The pairs of an object are stored one after the other with [d[k] = v]. *)
Definition dict_of_pairs (m : list (text * json)) : pydict :=
  fold_left (fun d kv => dict_set d (fst kv) (snd kv)) m [].

(** [scan_once].  [parse_value] reads the value at the head of [s];
    [parse_elements] the items of an array after its bracket and
    [parse_members] the pairs of an object after its brace, both up to and
    including the closing one. *)
Fixpoint parse_value (fuel : nat) (s : text) : option (json * text) :=
  match fuel with
  | O => None
  | S f =>
      match s with
      | [] => None
      | c :: r =>
          if (c =? 34)%N then
            match scan_string (List.length r) r with
            | Some (k, r1) => Some (JStr k, r1)
            | None => None
            end
          else if (c =? 123)%N then
            match skip_ws r with
            | [] => None
            | c1 :: r1 =>
                if (c1 =? 125)%N then Some (JDict [], r1)
                else
                  match parse_members f (c1 :: r1) with
                  | Some (m, r2) => Some (JDict (dict_of_pairs m), r2)
                  | None => None
                  end
            end
          else if (c =? 91)%N then
            match skip_ws r with
            | [] => None
            | c1 :: r1 =>
                if (c1 =? 93)%N then Some (JList [], r1)
                else
                  match parse_elements f (c1 :: r1) with
                  | Some (l, r2) => Some (JList l, r2)
                  | None => None
                  end
            end
          else scan_constant s
      end
  end
with parse_elements (fuel : nat) (s : text) : option (list json * text) :=
  match fuel with
  | O => None
  | S f =>
      match parse_value f s with
      | None => None
      | Some (v, r) =>
          match skip_ws r with
          | [] => None
          | c :: r1 =>
              if (c =? 93)%N then Some ([v], r1)
              else if (c =? 44)%N then
                match parse_elements f (skip_ws r1) with
                | Some (l, r2) => Some (v :: l, r2)
                | None => None
                end
              else None
          end
      end
  end
with parse_members (fuel : nat) (s : text) : option (list (text * json) * text) :=
  match fuel with
  | O => None
  | S f =>
      match s with
      | [] => None
      | q :: r =>
          if (q =? 34)%N then
            match scan_string (List.length r) r with
            | None => None
            | Some (k, r1) =>
                match skip_ws r1 with
                | [] => None
                | c :: r2 =>
                    if (c =? 58)%N then
                      match parse_value f (skip_ws r2) with
                      | None => None
                      | Some (v, r3) =>
                          match skip_ws r3 with
                          | [] => None
                          | c' :: r4 =>
                              if (c' =? 125)%N then Some ([(k, v)], r4)
                              else if (c' =? 44)%N then
                                match parse_members f (skip_ws r4) with
                                | Some (m, r5) => Some ((k, v) :: m, r5)
                                | None => None
                                end
                              else None
                          end
                      end
                    else None
                end
            end
          else None
      end
  end.

(** [json.loads]: one value, white space around it, nothing else. *)
Definition json_loads (s : text) : option json :=
  match parse_value (2 * List.length s + 2) (skip_ws s) with
  | Some (v, r) =>
      match skip_ws r with
      | [] => Some v
      | _ :: _ => None
      end
  | None => None
  end.

(** ** Exceptions and the two files *)

Inductive exn :=
| KeyError (key : text)
| TypeError
| AttributeError
| JSONDecodeError.

Inductive result (A : Type) :=
| Return (a : A)
| Raise (e : exn).

Arguments Return {A} a.
Arguments Raise {A} e.

Definition bind {A B : Type} (m : result A) (k : A -> result B) : result B :=
  match m with
  | Return a => k a
  | Raise e => Raise e
  end.

Notation "x <- m ;; k" := (bind m (fun x => k))
  (at level 61, m at next level, right associativity).

(** [PATIENTS_FILE] and [ALERTS_FILE]: the text each holds, [None] while the
    file does not exist. *)
Record files := Files {
  patients_file : option text;
  alerts_file : option text
}.

Definition no_files : files := Files None None.

(** [load_patients], app.py lines 10-14. *)
Definition load_patients (fs : files) : result json :=
  match patients_file fs with
  | None => Return (JDict [])
  | Some s =>
      match json_loads s with
      | Some data => Return data
      | None => Raise JSONDecodeError
      end
  end.

(** [save_patients], app.py lines 16-18: the file is opened for writing and
    holds the new document alone. *)
Definition save_patients (data : json) (fs : files) : files :=
  Files (Some (json_dumps data)) (alerts_file fs).

(** [log_alert], app.py lines 20-22: the file is opened for appending.  [now]
    is the text of [datetime.datetime.now()] at the call. *)
Definition log_alert (now message : text) (fs : files) : files :=
  let old := match alerts_file fs with
             | Some s => s
             | None => []
             end in
  Files (patients_file fs) (Some (old ++ now ++ T " - " ++ message ++ [10%N])).

(** ** Operations of Python on decoded values *)

(** [v.get(k, default)] *)
Definition py_get (v : json) (k : text) (default : json) : result json :=
  match v with
  | JDict d =>
      match dict_get d k with
      | Some x => Return x
      | None => Return default
      end
  | _ => Raise AttributeError
  end.

(** [v[k]] with a string [k] *)
Definition py_getitem (v : json) (k : text) : result json :=
  match v with
  | JDict d =>
      match dict_get d k with
      | Some x => Return x
      | None => Raise (KeyError k)
      end
  | _ => Raise TypeError
  end.

(** [v[k] = x] with a string [k] *)
Definition py_setitem (v : json) (k : text) (x : json) : result json :=
  match v with
  | JDict d => Return (JDict (dict_set d k x))
  | _ => Raise TypeError
  end.

(** [v.append(x)] *)
Definition py_append (v : json) (x : json) : result json :=
  match v with
  | JList l => Return (JList (l ++ [x]))
  | _ => Raise AttributeError
  end.

(** [s.split(",")] *)
Fixpoint split_on (sep : char) (s : text) : list text :=
  match s with
  | [] => [[]]
  | c :: r =>
      if (c =? sep)%N then [] :: split_on sep r
      else match split_on sep r with
           | h :: t => (c :: h) :: t
           | [] => [[c]]
           end
  end.

(** [f.readlines()] of a file opened in text mode: a line ends after a line
    feed, a carriage return or the two in a row, and ends in a line feed. *)
Fixpoint readlines_from (cur : text) (s : text) : list text :=
  match s with
  | [] => match cur with
          | [] => []
          | _ :: _ => [rev cur]
          end
  | c :: r =>
      if (c =? 10)%N then rev (10%N :: cur) :: readlines_from [] r
      else if (c =? 13)%N then
        match r with
        | 10%N :: r' => rev (10%N :: cur) :: readlines_from [] r'
        | _ => rev (10%N :: cur) :: readlines_from [] r
        end
      else readlines_from (c :: cur) r
  end.

Definition readlines (s : text) : list text := readlines_from [] s.

(** ** Request handlers *)

Section Application.

(** [repr] of a float, a list or a dict is a builtin of Python that is not
    modelled: the handlers are defined, and every property proved, for any
    such function. *)
Variable py_repr : json -> text.

(** [str(v)], which an f-string applies to a value it interpolates. *)
Definition py_str (v : json) : text :=
  match v with
  | JStr s => s
  | JInt z => int_text z
  | JBool true => T "True"
  | JBool false => T "False"
  | JNull => T "None"
  | _ => py_repr v
  end.

(** [index], app.py lines 33-36: what the page shows. *)
Definition index (fs : files) : result json := load_patients fs.

(** The record [add_patient] stores, app.py lines 48-54. *)
Definition new_patient (doctor disease medicines tests : text) : json :=
  JDict [(T "doctor", JStr doctor);
         (T "disease", JStr disease);
         (T "medicines", JList (List.map JStr (split_on 44%N medicines)));
         (T "tests", JStr tests);
         (T "vitals", JList [])].

(** [add_patient] on a POST, app.py lines 40-56, with the fields of the form.
    Nothing is written when an exception is raised. *)
Definition add_patient (name doctor disease medicines tests : text)
    (fs : files) : result unit * files :=
  match (patients <- load_patients fs ;;
         py_setitem patients name (new_patient doctor disease medicines tests))
  with
  | Return patients' => (Return tt, save_patients patients' fs)
  | Raise e => (Raise e, fs)
  end.

(** The reading [patient_details] builds, app.py line 70. *)
Definition reading (bp_sys bp_dia pulse : Z) (risk : RiskTier) : json :=
  JDict [(T "bp_sys", JInt bp_sys);
         (T "bp_dia", JInt bp_dia);
         (T "pulse", JInt pulse);
         (T "risk", JStr (risk_name risk))].

Definition alert_message (name : text) (doctor : json) : text :=
  T "High Risk Alert for " ++ name ++ T "! Notify Doctor: " ++ py_str doctor.

(** Lines 61-76 of [patient_details] on a POST, up to the two writes: the
    mapping to save and the alert to log, if any.  [patient["vitals"]] is the
    list inside [patient], and [patient] the record inside [patients] when the
    name is there, so the [append] shows in both. *)
Definition record_vitals (name : text) (bp_sys bp_dia pulse : Z)
    (fs : files) : result (json * option text) :=
  patients <- load_patients fs ;;
  patient <- py_get patients name (JDict []) ;;
  let risk := assess_risk bp_sys bp_dia pulse in
  let vitals := reading bp_sys bp_dia pulse risk in
  readings <- py_getitem patient (T "vitals") ;;
  readings' <- py_append readings vitals ;;
  patient' <- py_setitem patient (T "vitals") readings' ;;
  alert <- match risk with
           | HIGH =>
               doctor <- py_getitem patient' (T "doctor") ;;
               Return (Some (alert_message name doctor))
           | _ => Return None
           end ;;
  patients' <- py_setitem patients name patient' ;;
  Return (patients', alert).

(** [patient_details] on a POST, app.py lines 61-78, with the three integers
    of the form and the time of the call: the alert is logged first, then the
    mapping is saved.  Nothing is written when an exception is raised. *)
Definition patient_details (name : text) (bp_sys bp_dia pulse : Z) (now : text)
    (fs : files) : result unit * files :=
  match record_vitals name bp_sys bp_dia pulse fs with
  | Return (patients', alert) =>
      let fs1 := match alert with
                 | Some message => log_alert now message fs
                 | None => fs
                 end in
      (Return tt, save_patients patients' fs1)
  | Raise e => (Raise e, fs)
  end.

(** [patient_details] on a GET, app.py lines 61-62 and 80: the record the
    page shows. *)
Definition patient_details_get (name : text) (fs : files) : result json :=
  patients <- load_patients fs ;;
  py_get patients name (JDict []).

(** [view_alerts], app.py lines 83-88. *)
Definition view_alerts (fs : files) : list text :=
  match alerts_file fs with
  | None => []
  | Some s => readlines s
  end.

(** The requests that write, and a server that answers them in turn; a request
    that raises is answered with an error and the server goes on. *)
Inductive request :=
| AddPatient (name doctor disease medicines tests : text)
| PostVitals (name : text) (bp_sys bp_dia pulse : Z) (now : text).

Definition handle (rq : request) (fs : files) : result unit * files :=
  match rq with
  | AddPatient name doctor disease medicines tests =>
      add_patient name doctor disease medicines tests fs
  | PostVitals name bp_sys bp_dia pulse now =>
      patient_details name bp_sys bp_dia pulse now fs
  end.

Definition serve (rqs : list request) (fs : files) : files :=
  fold_left (fun fs rq => snd (handle rq fs)) rqs fs.

End Application.

(** ** Documents the codec is proved on

    A text of Unicode scalar values (no surrogate, below 17 planes) is what a
    form field or a URL holds once decoded.  A valid value has such texts, no
    float, and objects whose keys are distinct. *)

Definition scalar_char (c : char) : bool :=
  ((c <? 55296) || ((57344 <=? c) && (c <? 1114112)))%N.

Definition valid_text (s : text) : bool := forallb scalar_char s.

Fixpoint distinct (l : list text) : bool :=
  match l with
  | [] => true
  | k :: r => negb (existsb (text_eqb k) r) && distinct r
  end.

Fixpoint valid_json (v : json) : bool :=
  match v with
  | JNull | JBool _ | JInt _ => true
  | JFloat _ => false
  | JStr s => valid_text s
  | JList l => forallb valid_json l
  | JDict d =>
      forallb (fun kv => valid_text (fst kv) && valid_json (snd kv)) d
      && distinct (List.map fst d)
  end.

(** Number of calls of the parser a value takes. *)
Fixpoint size (v : json) : nat :=
  match v with
  | JList l => S (fold_right (fun x n => S (size x + n)) O l)
  | JDict d => S (fold_right (fun kv n => S (size (snd kv) + n)) O d)
  | _ => 1
  end.

(** ** Reading a stored mapping

    What the claims speak of: the vitals of a patient, the doctor, the risk of
    a reading, and the text a line of the alert log mentions. *)

Definition vitals_of (patient : json) : list json :=
  match patient with
  | JDict f =>
      match dict_get f (T "vitals") with
      | Some (JList vs) => vs
      | _ => []
      end
  | _ => []
  end.

Definition doctor_of (patient : json) : json :=
  match patient with
  | JDict f =>
      match dict_get f (T "doctor") with
      | Some d => d
      | None => JNull
      end
  | _ => JNull
  end.

(** A record the vitals form can be posted to: an object with a list of
    vitals and a doctor. *)
Definition patient_ok (patient : json) : bool :=
  match patient with
  | JDict f =>
      match dict_get f (T "vitals"), dict_get f (T "doctor") with
      | Some (JList _), Some _ => true
      | _, _ => false
      end
  | _ => false
  end.

(** A valid patient mapping. *)
Definition store_ok (ps : pydict) : bool :=
  valid_json (JDict ps) && forallb (fun kv => patient_ok (snd kv)) ps.

Definition is_high (r : json) : bool :=
  match r with
  | JDict f =>
      match dict_get f (T "risk") with
      | Some (JStr s) => text_eqb s (T "HIGH")
      | _ => false
      end
  | _ => false
  end.

Definition count_high (vs : list json) : nat :=
  List.length (filter is_high vs).

Fixpoint is_prefix (p s : text) : bool :=
  match p, s with
  | [], _ => true
  | a :: p', b :: s' => (a =? b)%N && is_prefix p' s'
  | _ :: _, [] => false
  end.

(** [needle in line] *)
Fixpoint mentions (needle line : text) : bool :=
  is_prefix needle line
  || match line with
     | [] => false
     | _ :: r => mentions needle r
     end.

(** The line [log_alert] writes for a HIGH reading of [name]. *)
Definition alert_line (py_repr : json -> text) (now name : text) (doctor : json)
    : text :=
  now ++ T " - " ++ alert_message py_repr name doctor ++ [10%N].

(** A posted reading: the name in the URL, the three integers of the form and
    the time of the request. *)
Record posting := Posting {
  post_name : text;
  post_sys : Z;
  post_dia : Z;
  post_pulse : Z;
  post_now : text
}.

Definition post_request (p : posting) : request :=
  PostVitals (post_name p) (post_sys p) (post_dia p) (post_pulse p) (post_now p).

Definition post_risk (p : posting) : RiskTier :=
  assess_risk (post_sys p) (post_dia p) (post_pulse p).

Definition post_reading (p : posting) : json :=
  reading (post_sys p) (post_dia p) (post_pulse p) (post_risk p).

Definition is_HIGH (r : RiskTier) : bool :=
  match r with
  | HIGH => true
  | _ => false
  end.

(** The postings for [name], and those of them classified HIGH. *)
Definition posted_to (name : text) (posts : list posting) : list posting :=
  filter (fun p => text_eqb (post_name p) name) posts.

Definition alerting (posts : list posting) : list posting :=
  filter (fun p => is_HIGH (post_risk p)) posts.

(** The postings whose name is in the mapping [ps]: the others raise. *)
Definition known (ps : pydict) (posts : list posting) : list posting :=
  filter (fun p => match dict_get ps (post_name p) with
                   | Some _ => true
                   | None => false
                   end) posts.

Definition valid_request (rq : request) : bool :=
  match rq with
  | AddPatient name doctor disease medicines tests =>
      valid_text name && valid_text doctor && valid_text disease
      && valid_text medicines && valid_text tests
  | PostVitals name _ _ _ _ => valid_text name
  end.

(** ** States and values the handlers are run on *)

(** The mapping [patient_details] saves when the name is there. *)
Definition posted (ps : pydict) (name : text) (f : pydict) (vs : list json)
    (r : json) : pydict :=
  dict_set ps name (JDict (dict_set f (T "vitals") (JList (vs ++ [r])))).

(** The risk of a stored reading is the one [assess_risk] gives to the three
    integers of the same reading. *)
Definition well_classified (r : json) : bool :=
  match r with
  | JDict f =>
      match dict_get f (T "bp_sys"), dict_get f (T "bp_dia"),
            dict_get f (T "pulse"), dict_get f (T "risk") with
      | Some (JInt s), Some (JInt d), Some (JInt p), Some (JStr k) =>
          text_eqb k (risk_name (assess_risk s d p))
      | _, _, _, _ => false
      end
  | _ => false
  end.

Definition all_classified (ps : pydict) : bool :=
  forallb (fun kv => forallb well_classified (vitals_of (snd kv))) ps.

(** What every request keeps: the patients file, if any, holds a valid mapping
    whose readings are all well classified. *)
Definition store_inv (fs : files) : Prop :=
  exists ps, load_patients fs = Return (JDict ps) /\ store_ok ps = true /\
             all_classified ps = true.

(** The text of the alert log. *)
Definition alerts_text (fs : files) : text :=
  match alerts_file fs with
  | Some a => a
  | None => []
  end.

(** The doctor of [name] in the mapping [ps]. *)
Definition doctor_in (ps : pydict) (name : text) : json :=
  match dict_get ps name with
  | Some patient => doctor_of patient
  | None => JNull
  end.

(** The lines the postings [posts] to the mapping [ps] add to the alert log:
    one for each posting to a known name that is classified HIGH, in the order
    of the postings. *)
Definition alert_lines (py_repr : json -> text) (ps : pydict)
    (posts : list posting) : list text :=
  List.map (fun q => alert_line py_repr (post_now q) (post_name q)
                       (doctor_in ps (post_name q)))
           (alerting (known ps posts)).

(** The invariant of the alert log as the specification words it: every
    patient has as many HIGH readings as the log has lines in which the name
    of the patient occurs. *)
Definition alert_count_matches (fs : files) : Prop :=
  forall ps name patient,
    load_patients fs = Return (JDict ps) ->
    dict_get ps name = Some patient ->
    count_high (vitals_of patient)
    = List.length (filter (mentions name) (view_alerts fs)).

Definition al_and_alice : list request :=
  [AddPatient (T "Al") (T "Dr. Smith") (T "flu") (T "a") (T "none");
   AddPatient (T "Alice") (T "Dr. Jones") (T "cold") (T "b") (T "none");
   PostVitals (T "Alice") 170 95 80 (T "2024-01-01 10:00:00.000000")].

(** A rendering of the values [str] leaves to [repr], to run the handlers. *)
Definition no_repr : json -> text := fun _ => [].

(** A store with one patient, used to run the theorems on. *)
Definition alice : pydict :=
  [(T "Alice", new_patient (T "Dr. Smith") (T "flu") (T "a,b") (T "none"))].

Definition alice_files : files := save_patients (JDict alice) no_files.

(** Three postings to that store: a HIGH one, one to a name that is not
    there, and a LOW one. *)
Definition three_posts : list posting :=
  [Posting (T "Alice") 170 95 80 (T "2024-01-01 10:00:00.000000");
   Posting (T "Bob") 170 95 80 (T "2024-01-01 10:01:00.000000");
   Posting (T "Alice") 110 70 60 (T "2024-01-01 10:02:00.000000")].

(** ** Further notions: severity, lines and characters *)

(** Severity of a tier: LOW below MEDIUM below HIGH. *)
Definition tier_rank (r : RiskTier) : Z :=
  match r with
  | LOW => 0
  | MEDIUM => 1
  | HIGH => 2
  end.

(** [sep.join(l)] *)
Fixpoint join_with (sep : char) (l : list text) : text :=
  match l with
  | [] => []
  | [x] => x
  | x :: r => x ++ sep :: join_with sep r
  end.

Definition count_char (c : char) (s : text) : nat :=
  List.length (filter (N.eqb c) s).

(** A text with no line feed and no carriage return. *)
Definition no_break (s : text) : bool :=
  forallb (fun c => negb ((c =? 10)%N || (c =? 13)%N)) s.

(** A text that is empty or ends in a line feed. *)
Definition closed_log (s : text) : bool :=
  match rev s with
  | [] => true
  | c :: _ => (c =? 10)%N
  end.

(** The text after a carriage return: a line feed that follows belongs to the
    same line end. *)
Definition after_cr (r : text) : text :=
  match r with
  | c :: r' => if (c =? 10)%N then r' else r
  | [] => []
  end.

(** A line of the log that is one line of the page: a text with no line
    break and then a line feed. *)
Definition one_line (l : text) : bool :=
  no_break (removelast l)
  && match rev l with
     | c :: _ => (c =? 10)%N
     | [] => false
     end.

(** A text of ASCII characters. *)
Definition ascii_text (s : text) : bool := forallb (fun c => (c <? 128)%N) s.

(** A store whose only record has vitals and no doctor, as a file edited by
    hand can hold. *)
Definition no_doctor : pydict := [(T "Zed", JDict [(T "vitals", JList [])])].

Definition no_doctor_files : files := save_patients (JDict no_doctor) no_files.

(** ** JSON documents

    The texts [json.load] accepts, described by what they look like and not by
    how they are scanned: a document is one value between white space. *)

Definition ws_text (w : text) : bool := forallb is_ws w.

Definition digits (ds : text) : bool := forallb is_digit ds.

(** [h] is four hexadecimal digits and [u] their value. *)
Definition hex_quad (h : text) (u : N) : Prop := parse_hex4 h = Some (u, []).

(** [b] starts with the escape of a low surrogate, which the escape of the
    high surrogate [u] before it is joined with. *)
Definition starts_pair (u : N) (b : text) : Prop :=
  is_high_surrogate u = true /\
  exists l lo b', b = 92%N :: 117%N :: l ++ b' /\ hex_quad l lo /\
                  is_low_surrogate lo = true.

(** [string_body k b]: [b], the text between the quotes, denotes [k].  A
    character is written as itself unless it is a quote, a backslash or a
    control character, or as an escape; the escapes of a high and of a low
    surrogate in a row denote one character. *)
Inductive string_body : text -> text -> Prop :=
| sb_end : string_body [] []
| sb_char c k b :
    (32 <= c)%N -> c <> 34%N -> c <> 92%N ->
    string_body k b -> string_body (c :: k) (c :: b)
| sb_escape e c k b :
    unescape e = Some c ->
    string_body k b -> string_body (c :: k) (92%N :: e :: b)
| sb_pair h l hi lo k b :
    hex_quad h hi -> hex_quad l lo ->
    is_high_surrogate hi = true -> is_low_surrogate lo = true ->
    string_body k b ->
    string_body (join_surrogates hi lo :: k)
      (92%N :: 117%N :: h ++ 92%N :: 117%N :: l ++ b)
| sb_unit h u k b :
    hex_quad h u -> ~ starts_pair u b ->
    string_body k b -> string_body (u :: k) (92%N :: 117%N :: h ++ b).

Definition string_lexeme (k : text) (s : text) : Prop :=
  exists b, s = 34%N :: b ++ [34%N] /\ string_body k b.

(** An integer is written in decimal, with no leading zero; minus zero is
    zero. *)
Definition int_lexeme (z : Z) (s : text) : Prop :=
  s = int_text z \/ (z = 0 /\ s = T "-0").

Definition frac_part (f : text) : Prop :=
  f = [] \/ exists c ds, f = 46%N :: c :: ds /\ digits (c :: ds) = true.

Definition exp_part (e : text) : Prop :=
  e = [] \/
  exists E sg c ds,
    e = E :: sg ++ c :: ds /\ (E = 101%N \/ E = 69%N) /\
    (sg = [] \/ sg = [45%N] \/ sg = [43%N]) /\ digits (c :: ds) = true.

(** A number with a fraction or an exponent, and the three names Python
    reads as floats. *)
Definition float_lexeme (s : text) : Prop :=
  s = T "NaN" \/ s = T "Infinity" \/ s = T "-Infinity" \/
  exists sign n f e,
    s = sign ++ int_text n ++ f ++ e /\ 0 <= n /\
    (sign = [] \/ sign = [45%N]) /\ frac_part f /\ exp_part e /\
    (f <> [] \/ e <> []).

(** The items of an array or the pairs of an object, from the first one to
    the closing bracket or brace [close]: commas between them, white space
    around the commas and before [close], no comma after the last. *)
Fixpoint sequence {A : Type} (item : A -> text -> Prop) (close : char)
    (l : list A) (body : text) : Prop :=
  match l with
  | [] => False
  | x :: l' =>
      match l' with
      | [] =>
          exists lex w,
            body = lex ++ w ++ [close] /\ item x lex /\ ws_text w = true
      | _ :: _ =>
          exists lex w1 w2 body',
            body = lex ++ w1 ++ 44%N :: w2 ++ body' /\ item x lex /\
            ws_text w1 = true /\ ws_text w2 = true /\
            sequence item close l' body'
      end
  end.

(** A pair of an object: the key, a colon with white space around it, the
    value. *)
Definition pair_lexeme (value : json -> text -> Prop) (kv : text * json)
    (s : text) : Prop :=
  exists kl w1 w2 vl,
    s = kl ++ w1 ++ 58%N :: w2 ++ vl /\ string_lexeme (fst kv) kl /\
    ws_text w1 = true /\ ws_text w2 = true /\ value (snd kv) vl.

(** [lexeme v s]: the text [s] is a way of writing [v], where an object is
    written with the pairs of [v] in their order, repeated keys included. *)
Fixpoint lexeme (v : json) (s : text) {struct v} : Prop :=
  match v with
  | JNull => s = T "null"
  | JBool b => s = if b then T "true" else T "false"
  | JInt z => int_lexeme z s
  | JFloat x => s = x /\ float_lexeme x
  | JStr k => string_lexeme k s
  | JList l =>
      exists w body,
        s = 91%N :: w ++ body /\ ws_text w = true /\
        match l with
        | [] => body = [93%N]
        | _ :: _ => sequence (fun x => lexeme x) 93%N l body
        end
  | JDict m =>
      exists w body,
        s = 123%N :: w ++ body /\ ws_text w = true /\
        match m with
        | [] => body = [125%N]
        | _ :: _ =>
            sequence (fun kv => pair_lexeme (fun x => lexeme x) kv) 125%N m body
        end
  end.

(** What Python builds from a written value: the pairs of an object are
    stored one after the other, so the last value of a repeated key stays, at
    the place of the first. *)
Fixpoint normalise (v : json) : json :=
  match v with
  | JList l => JList (List.map normalise l)
  | JDict m =>
      JDict (dict_of_pairs
               (List.map (fun kv => (fst kv, normalise (snd kv))) m))
  | _ => v
  end.

(** [document s v]: [s] is one written value between white space, and [v]
    is what Python builds from it. *)
Definition document (s : text) (v : json) : Prop :=
  exists raw w1 lex w2,
    s = w1 ++ lex ++ w2 /\ ws_text w1 = true /\ ws_text w2 = true /\
    lexeme raw lex /\ v = normalise raw.

(** Whether a text starts with a backslash and the letter u. *)
Definition starts_u (s : text) : bool :=
  match s with
  | a :: b :: _ => (a =? 92)%N && (b =? 117)%N
  | _ => false
  end.

(** A text that does not go on with a digit. *)
Definition stops (r : text) : Prop :=
  match r with
  | [] => True
  | c :: _ => is_digit c = false
  end.

(** What can come after a value in a document: the end, white space, a comma
    or a closing bracket or brace. *)
Definition follow (r : text) : Prop :=
  match r with
  | [] => True
  | c :: _ => is_ws c = true \/ c = 44%N \/ c = 93%N \/ c = 125%N
  end.

(** The whole part of a number: a zero, or digits that start with another
    digit. *)
Definition int_part (ip : text) : Prop :=
  ip = [48%N] \/
  exists c ds, ip = c :: ds /\ is_digit c = true /\ c <> 48%N /\
               digits ds = true.

(** A text that does not go on with a fraction or with an exponent. *)
Definition no_point (r : text) : Prop :=
  match r with
  | [] => True
  | c :: _ => c <> 46%N
  end.

Definition no_exponent (r : text) : Prop :=
  match r with
  | [] => True
  | c :: _ => c <> 101%N /\ c <> 69%N
  end.

(** The sign of a number as it is written. *)
Definition sign_text (neg : bool) : text := if neg then [45%N] else [].

(** The value of a number from its parts. *)
Definition number_value (neg : bool) (ip f e : text) : json :=
  match f, e with
  | [], [] =>
      JInt (Z.of_int (if neg then Decimal.Neg (uint_of_text ip)
                      else Decimal.Pos (uint_of_text ip)))
  | _, _ => JFloat (sign_text neg ++ ip ++ f ++ e)
  end.

(** A value that is not a string, an array or an object. *)
Definition scalar (v : json) : Prop :=
  match v with
  | JNull | JBool _ | JInt _ | JFloat _ => True
  | _ => False
  end.

(** The first character of a written value that is not a string, an array
    or an object. *)
Definition opens_scalar (c : char) : Prop :=
  is_ws c = false /\ c <> 34%N /\ c <> 91%N /\ c <> 123%N /\
  c <> 93%N /\ c <> 125%N.

(** [reads v]: every way of writing [v] is read back as what Python builds
    from it, given fuel for the calls and a text after it that a value can be
    followed by. *)
Definition reads (v : json) : Prop :=
  forall lex fuel r,
    lexeme v lex -> (size v <= fuel)%nat -> follow r ->
    parse_value fuel (lex ++ r) = Some (normalise v, r).

(** The first character of a written value. *)
Definition opens (c : char) : Prop :=
  is_ws c = false /\ c <> 93%N /\ c <> 125%N.

Definition pairs_normalise (m : list (text * json)) : list (text * json) :=
  List.map (fun kv => (fst kv, normalise (snd kv))) m.

(** What the three functions of the parser return is written in the text
    they were given, just before what they leave. *)
Definition value_sound (fuel : nat) : Prop :=
  forall s v r,
    parse_value fuel s = Some (v, r) ->
    exists raw lex, s = lex ++ r /\ lexeme raw lex /\ v = normalise raw.

Definition elements_sound (fuel : nat) : Prop :=
  forall s l r,
    parse_elements fuel s = Some (l, r) ->
    exists raws body,
      s = body ++ r /\ sequence (fun x => lexeme x) 93%N raws body /\
      l = List.map normalise raws.

Definition members_sound (fuel : nat) : Prop :=
  forall s m r,
    parse_members fuel s = Some (m, r) ->
    exists raws body,
      s = body ++ r /\
      sequence (fun kv => pair_lexeme (fun x => lexeme x) kv) 125%N raws body /\
      m = pairs_normalise raws.

(** A document on one line, with a key written twice: an object whose key a
    is first bound to the array of 1, minus zero and 2.5e3 and then to null. *)
Definition compact_document : text :=
  [123; 34; 97; 34; 58; 32; 91; 49; 44; 32; 45; 48; 44; 50; 46; 53; 101; 51;
   93; 44; 34; 97; 34; 58; 110; 117; 108; 108; 125]%N.

(** ** Shapes used by the proofs of the codec *)

(** Text that can follow a value the encoder wrote: the end, a comma or a
    line break. *)
Definition delimited (r : text) : Prop :=
  match r with
  | [] => True
  | c :: _ => c = 44%N \/ c = 10%N
  end.

(** The first character of an encoded value: not white space, and neither
    the bracket nor the brace that closes a container. *)
Definition opens_value (c : N) : Prop :=
  is_ws c = false /\ c <> 93%N /\ c <> 125%N.

Definition round_trips (v : json) : Prop :=
  forall level fuel r,
    valid_json v = true -> (size v <= fuel)%nat -> delimited r ->
    parse_value fuel (encode level v ++ r) = Some (v, r).

Definition items_size (l : list json) : nat :=
  fold_right (fun x n => S (size x + n)) O l.

Definition items_text (level : nat) (l : list json) : text :=
  List.concat (List.map (fun y => item_separator ++ newline_indent (S level)
                                  ++ encode (S level) y) l).

Definition members_size (d : pydict) : nat :=
  fold_right (fun kv n => S (size (snd kv) + n)) O d.

Definition member_text (level : nat) (kv : text * json) : text :=
  encode_string (fst kv) ++ key_separator ++ encode (S level) (snd kv).

Definition members_text (level : nat) (d : pydict) : text :=
  List.concat (List.map (fun kv => item_separator ++ newline_indent (S level)
                                   ++ encode_string (fst kv) ++ key_separator
                                   ++ encode (S level) (snd kv)) d).

Definition valid_member (kv : text * json) : bool :=
  valid_text (fst kv) && valid_json (snd kv).

(** * Properties of the codec *)

Lemma skip_ws_spaces n r : skip_ws (repeat 32%N n ++ r) = skip_ws r.
Proof. induction n; simpl; auto. Qed.

Lemma skip_ws_newline_indent level r :
  skip_ws (newline_indent level ++ r) = skip_ws r.
Proof. unfold newline_indent. simpl. apply skip_ws_spaces. Qed.

Lemma skip_ws_stop c r : is_ws c = false -> skip_ws (c :: r) = c :: r.
Proof. intros H. simpl. now rewrite H. Qed.

Lemma hexval_hexdigit n : (n < 16)%N -> hexval (hexdigit n) = Some n.
Proof.
  intros H. unfold hexval, hexdigit, is_digit.
  destruct (N.ltb_spec n 10).
  - replace ((48 <=? 48 + n) && (48 + n <=? 57))%N with true.
    + f_equal. lia.
    + symmetry. apply andb_true_intro. split; apply N.leb_le; lia.
  - replace ((48 <=? 87 + n) && (87 + n <=? 57))%N with false.
    + replace ((97 <=? 87 + n) && (87 + n <=? 102))%N with true.
      * f_equal. lia.
      * symmetry. apply andb_true_intro. split; apply N.leb_le; lia.
    + symmetry. apply andb_false_intro2. apply N.leb_gt. lia.
Qed.

Lemma parse_hex4_hex4 c r :
  (c < 65536)%N -> parse_hex4 (hex4 c ++ r) = Some (c, r).
Proof.
  intros H. unfold hex4. simpl.
  rewrite !hexval_hexdigit by (try apply N.mod_lt; lia).
  f_equal. f_equal.
  assert (c / 4096 < 16)%N by (apply N.Div0.div_lt_upper_bound; lia).
  rewrite (N.mod_small (c / 4096) 16) by assumption.
  zify. Z.to_euclidean_division_equations. lia.
Qed.

Lemma scan_string_u f s :
  scan_string (S f) (92%N :: 117%N :: s) =
  match parse_hex4 s with
  | None => None
  | Some (u, r2) =>
      if is_high_surrogate u then
        match r2 with
        | 92%N :: 117%N :: r3 =>
            match parse_hex4 r3 with
            | None => None
            | Some (u2, r4) =>
                if is_low_surrogate u2
                then push (join_surrogates u u2) (scan_string f r4)
                else push u (scan_string f r2)
            end
        | _ => push u (scan_string f r2)
        end
      else push u (scan_string f r2)
  end.
Proof. reflexivity. Qed.

Lemma scan_string_plain f c r :
  (c =? 34)%N = false -> (c =? 92)%N = false -> (c <? 32)%N = false ->
  scan_string (S f) (c :: r) = push c (scan_string f r).
Proof. intros H1 H2 H3. simpl. now rewrite H1, H2, H3. Qed.

Lemma scan_string_encode_char c f r :
  scalar_char c = true ->
  scan_string (S f) (encode_char c ++ r) = push c (scan_string f r).
Proof.
  intros Hc. unfold encode_char.
  destruct (N.eqb_spec c 34); [subst; reflexivity|].
  destruct (N.eqb_spec c 92); [subst; reflexivity|].
  destruct (N.eqb_spec c 10); [subst; reflexivity|].
  destruct (N.eqb_spec c 13); [subst; reflexivity|].
  destruct (N.eqb_spec c 9); [subst; reflexivity|].
  destruct (N.eqb_spec c 12); [subst; reflexivity|].
  destruct (N.eqb_spec c 8); [subst; reflexivity|].
  destruct ((32 <=? c) && (c <=? 126))%N eqn:Hp.
  - apply andb_prop in Hp. destruct Hp as [Hp1 Hp2].
    apply N.leb_le in Hp1.
    simpl app. apply scan_string_plain.
    + now apply N.eqb_neq.
    + now apply N.eqb_neq.
    + apply N.ltb_ge. assumption.
  - unfold scalar_char in Hc.
    destruct (N.ltb_spec c 65536) as [Hlt|Hge].
    + unfold uescape. rewrite <- app_assoc. change (T "\u" ++ hex4 c ++ r) with (92%N :: 117%N :: hex4 c ++ r).
      rewrite scan_string_u, parse_hex4_hex4 by assumption.
      replace (is_high_surrogate c) with false; [reflexivity|].
      symmetry. unfold is_high_surrogate.
      apply orb_prop in Hc. destruct Hc as [Hc|Hc].
      * apply N.ltb_lt in Hc. apply andb_false_intro1. apply N.leb_gt. lia.
      * apply andb_prop in Hc. destruct Hc as [Hc _]. apply N.leb_le in Hc.
        apply andb_false_intro2. apply N.leb_gt. lia.
    + assert (Hmax : (c < 1114112)%N).
      { apply orb_prop in Hc. destruct Hc as [Hc|Hc].
        - apply N.ltb_lt in Hc. lia.
        - apply andb_prop in Hc. destruct Hc as [_ Hc]. now apply N.ltb_lt in Hc. }
      assert (Hd : ((c - 65536) = 1024 * ((c - 65536) / 1024) + (c - 65536) mod 1024)%N)
        by apply N.div_mod'.
      assert (Hq : ((c - 65536) / 1024 < 1024)%N)
        by (apply N.Div0.div_lt_upper_bound; lia).
      assert (Hm : ((c - 65536) mod 1024 < 1024)%N) by (apply N.mod_lt; lia).
      remember ((c - 65536) / 1024)%N as q eqn:Eq.
      remember ((c - 65536) mod 1024)%N as m eqn:Em.
      clear Eq Em Hc Hp.
      unfold uescape. rewrite <- !app_assoc.
      change (T "\u" ++ hex4 (55296 + q) ++ T "\u" ++ hex4 (56320 + m) ++ r)
        with (92%N :: 117%N :: hex4 (55296 + q) ++ 92%N :: 117%N :: hex4 (56320 + m) ++ r).
      rewrite scan_string_u, parse_hex4_hex4 by lia.
      replace (is_high_surrogate (55296 + q)) with true.
      2:{ symmetry. unfold is_high_surrogate.
          apply andb_true_intro. split; apply N.leb_le; lia. }
      rewrite parse_hex4_hex4 by lia.
      replace (is_low_surrogate (56320 + m)) with true.
      2:{ symmetry. unfold is_low_surrogate.
          apply andb_true_intro. split; apply N.leb_le; lia. }
      replace (join_surrogates (55296 + q) (56320 + m)) with c; [reflexivity|].
      unfold join_surrogates. lia.
Qed.

Lemma scan_string_encode s : forall f r,
  valid_text s = true -> (List.length s < f)%nat ->
  scan_string f (flat_map encode_char s ++ 34%N :: r) = Some (s, r).
Proof.
  induction s as [|c s IH]; intros f r Hv Hf.
  - destruct f; [lia|]. reflexivity.
  - simpl in Hv. apply andb_prop in Hv. destruct Hv as [Hc Hs].
    destruct f; [simpl in Hf; lia|].
    simpl flat_map. rewrite <- app_assoc.
    rewrite scan_string_encode_char by assumption.
    rewrite IH; [reflexivity|assumption|simpl in Hf; lia].
Qed.

Lemma to_uint_no_leading_zero p d' : Pos.to_uint p <> Decimal.D0 d'.
Proof.
  pose proof (DecimalPos.Unsigned.to_of (Pos.to_uint p)) as H.
  rewrite DecimalPos.Unsigned.of_to in H. simpl in H.
  assert (Hz : Decimal.nzhead (Pos.to_uint p) <> Decimal.Nil).
  { intro E. apply unorm_0 in E. rewrite <- H in E.
    now apply (DecimalPos.Unsigned.to_uint_nonzero p). }
  rewrite (unorm_nzhead _ Hz) in H. rewrite H. apply nzhead_nonzero.
Qed.

Lemma take_digits_uint_text d r :
  match r with [] => True | c :: _ => is_digit c = false end ->
  take_digits (uint_text d ++ r) = (uint_text d, r).
Proof.
  intros Hr. induction d; simpl; try (rewrite IHd; reflexivity).
  destruct r as [|c r]; [reflexivity|]. simpl. now rewrite Hr.
Qed.

Lemma uint_of_text_uint_text d : uint_of_text (uint_text d) = d.
Proof. induction d; simpl; try rewrite IHd; reflexivity. Qed.

Lemma delimited_no_digit r :
  delimited r -> match r with [] => True | c :: _ => is_digit c = false end.
Proof. destruct r as [|c r]; simpl; [auto|]. intros [->| ->]; reflexivity. Qed.

Lemma scan_frac_delimited r : delimited r -> scan_frac r = ([], r).
Proof. destruct r as [|c r]; simpl; [auto|]. intros [->| ->]; reflexivity. Qed.

Lemma scan_exp_delimited r : delimited r -> scan_exp r = ([], r).
Proof. destruct r as [|c r]; simpl; [auto|]. intros [->| ->]; reflexivity. Qed.

Lemma scan_int_to_uint p r :
  delimited r ->
  scan_int (uint_text (Pos.to_uint p) ++ r) = Some (uint_text (Pos.to_uint p), r).
Proof.
  intros Hr.
  pose proof (to_uint_no_leading_zero p) as Hz.
  pose proof (DecimalPos.Unsigned.to_uint_nonnil p) as Hn.
  pose proof (take_digits_uint_text (Pos.to_uint p) r (delimited_no_digit r Hr)) as Ht.
  destruct (Pos.to_uint p) as [|d|d|d|d|d|d|d|d|d|d];
    try congruence; try (exfalso; now apply (Hz d));
    unfold scan_int; simpl app; cbv beta iota;
    match goal with
    | |- context [ (?c =? 48)%N ] => change (c =? 48)%N with false
    end; cbv beta iota;
    match goal with
    | |- context [ is_digit ?c ] => change (is_digit c) with true
    end; cbv beta iota; f_equal; exact Ht.
Qed.

Lemma scan_number_int_text z r :
  delimited r -> scan_number (int_text z ++ r) = Some (JInt z, r).
Proof.
  intros Hr. unfold int_text. destruct z as [|p|p]; simpl Z.to_int; cbv beta iota.
  - destruct r as [|c r]; [reflexivity|].
    destruct Hr as [->| ->]; reflexivity.
  - unfold scan_number.
    replace (scan_sign (uint_text (Pos.to_uint p) ++ r))
      with (false, uint_text (Pos.to_uint p) ++ r).
    + cbv beta iota. rewrite scan_int_to_uint by assumption. cbv beta iota.
      rewrite scan_frac_delimited, scan_exp_delimited by assumption.
      rewrite uint_of_text_uint_text.
      change (Decimal.Pos (Pos.to_uint p)) with (Z.to_int (Z.pos p)).
      now rewrite DecimalZ.of_to.
    + pose proof (DecimalPos.Unsigned.to_uint_nonnil p) as Hn.
      destruct (Pos.to_uint p); try congruence; reflexivity.
  - unfold scan_number. simpl app. change (scan_sign (45%N :: uint_text (Pos.to_uint p) ++ r)) with (true, uint_text (Pos.to_uint p) ++ r). cbv beta iota.
    rewrite scan_int_to_uint by assumption. cbv beta iota.
    rewrite scan_frac_delimited, scan_exp_delimited by assumption.
    rewrite uint_of_text_uint_text.
    change (Decimal.Neg (Pos.to_uint p)) with (Z.to_int (Z.neg p)).
    now rewrite DecimalZ.of_to.
Qed.

(** The text of an integer starts with a digit or a minus sign. *)
Lemma int_text_head z :
  exists c t, int_text z = c :: t /\ (is_digit c = true \/ c = 45%N).
Proof.
  unfold int_text. destruct z as [|p|p]; simpl Z.to_int; cbv beta iota.
  - exists 48%N, []. split; [reflexivity|now left].
  - pose proof (DecimalPos.Unsigned.to_uint_nonnil p) as Hn.
    destruct (Pos.to_uint p); try congruence; simpl;
      eexists _, _; (split; [reflexivity|now left]).
  - eexists _, _. split; [reflexivity|now right].
Qed.

Lemma json_ind' (P : json -> Prop) :
  P JNull -> (forall b, P (JBool b)) -> (forall z, P (JInt z)) ->
  (forall x, P (JFloat x)) -> (forall s, P (JStr s)) ->
  (forall l, Forall P l -> P (JList l)) ->
  (forall d, Forall (fun kv => P (snd kv)) d -> P (JDict d)) ->
  forall v, P v.
Proof.
  intros Hn Hb Hi Hf Hs Hl Hd. fix IH 1.
  intros [| | | | |l|d]; [exact Hn|apply Hb|apply Hi|apply Hf|apply Hs| |].
  - apply Hl. induction l as [|x l IHl]; constructor; [apply IH|exact IHl].
  - apply Hd. induction d as [|[k x] d IHd]; constructor; [apply IH|exact IHd].
Qed.

Lemma encode_string_head s : exists t, encode_string s = 34%N :: t.
Proof. unfold encode_string. simpl. eauto. Qed.

Lemma encode_head level v :
  valid_json v = true ->
  exists c t, encode level v = c :: t /\ opens_value c.
Proof.
  unfold opens_value.
  destruct v as [|[|]|z|x|s|[|x l]|[|[k x] d]]; simpl; intros Hv;
    try discriminate;
    try (eexists _, _; split; [reflexivity|repeat split; discriminate]).
  destruct (int_text_head z) as (c & t & -> & Hc).
  exists c, t. split; [reflexivity|].
  destruct Hc as [Hc| ->]; [|repeat split; discriminate].
  unfold is_digit in Hc. apply andb_prop in Hc. destruct Hc as [H1 H2].
  apply N.leb_le in H1, H2.
  repeat split; try lia.
  unfold is_ws. rewrite !orb_false_iff. repeat split; apply N.eqb_neq; lia.
Qed.

Lemma skip_ws_opens c t : opens_value c -> skip_ws (c :: t) = c :: t.
Proof. intros [H _]. now apply skip_ws_stop. Qed.

Lemma length_encode_char c : (1 <= List.length (encode_char c))%nat.
Proof.
  unfold encode_char, uescape.
  repeat match goal with
         | |- context [ if ?b then _ else _ ] => destruct b
         end; simpl; try rewrite length_app; simpl; lia.
Qed.

Lemma length_flat_map_encode_char s :
  (List.length s <= List.length (flat_map encode_char s))%nat.
Proof.
  induction s as [|c s IH]; simpl; [lia|].
  rewrite length_app. pose proof (length_encode_char c). lia.
Qed.

Lemma scan_encode_string s r :
  valid_text s = true ->
  scan_string (List.length (flat_map encode_char s ++ 34%N :: r))
    (flat_map encode_char s ++ 34%N :: r) = Some (s, r).
Proof.
  intros Hs. apply scan_string_encode; [assumption|].
  rewrite length_app. simpl. pose proof (length_flat_map_encode_char s). lia.
Qed.

Lemma parse_elements_eq f s :
  parse_elements (S f) s =
  match parse_value f s with
  | None => None
  | Some (v, r) =>
      match skip_ws r with
      | [] => None
      | c :: r1 =>
          if (c =? 93)%N then Some ([v], r1)
          else if (c =? 44)%N then
            match parse_elements f (skip_ws r1) with
            | Some (l, r2) => Some (v :: l, r2)
            | None => None
            end
          else None
      end
  end.
Proof. reflexivity. Qed.

Lemma parse_members_eq f r :
  parse_members (S f) (34%N :: r) =
  match scan_string (List.length r) r with
  | None => None
  | Some (k, r1) =>
      match skip_ws r1 with
      | [] => None
      | c :: r2 =>
          if (c =? 58)%N then
            match parse_value f (skip_ws r2) with
            | None => None
            | Some (v, r3) =>
                match skip_ws r3 with
                | [] => None
                | c' :: r4 =>
                    if (c' =? 125)%N then Some ([(k, v)], r4)
                    else if (c' =? 44)%N then
                      match parse_members f (skip_ws r4) with
                      | Some (m, r5) => Some ((k, v) :: m, r5)
                      | None => None
                      end
                    else None
                end
            end
          else None
      end
  end.
Proof. reflexivity. Qed.

Lemma skip_ws_encode level v r :
  valid_json v = true -> skip_ws (encode level v ++ r) = encode level v ++ r.
Proof.
  intros Hv. destruct (encode_head level v Hv) as (c & t & -> & Hc).
  simpl app. now apply skip_ws_opens.
Qed.

Lemma parse_elements_encode l : forall x level fuel r,
  Forall round_trips (x :: l) -> forallb valid_json (x :: l) = true ->
  (items_size (x :: l) <= fuel)%nat ->
  parse_elements fuel
    (encode (S level) x ++ items_text level l ++ newline_indent level ++ 93%N :: r)
  = Some (x :: l, r).
Proof.
  induction l as [|y l IH]; intros x level fuel r HF Hv Hsz;
    inversion HF as [|? ? Hx HF']; subst;
    simpl in Hv; apply andb_prop in Hv; destruct Hv as [Hvx Hvl];
    (destruct fuel as [|f]; [simpl in Hsz; lia|]);
    rewrite parse_elements_eq.
  - change (items_text level [] ++ newline_indent level ++ 93%N :: r)
      with (newline_indent level ++ 93%N :: r).
    rewrite Hx; [|assumption|simpl in Hsz; lia|simpl; now right].
    rewrite skip_ws_newline_indent. reflexivity.
  - change (items_text level (y :: l))
      with ((item_separator ++ newline_indent (S level) ++ encode (S level) y)
            ++ items_text level l).
    rewrite <- !app_assoc.
    change (item_separator ++ ?t) with (44%N :: t).
    rewrite Hx; [|assumption|simpl in Hsz; lia|simpl; now left].
    change (skip_ws (44%N :: ?x)) with (44%N :: x).
    cbv beta iota.
    change ((44 =? 93)%N) with false. change ((44 =? 44)%N) with true.
    cbv beta iota.
    rewrite skip_ws_newline_indent.
    simpl in Hvl. 
    rewrite skip_ws_encode by (apply andb_prop in Hvl; tauto).
    rewrite IH; [reflexivity|assumption|simpl; assumption|simpl in Hsz |- *; lia].
Qed.

Lemma parse_members_encode d : forall k x level fuel r,
  Forall (fun kv => round_trips (snd kv)) ((k, x) :: d) ->
  forallb valid_member ((k, x) :: d) = true ->
  (members_size ((k, x) :: d) <= fuel)%nat ->
  parse_members fuel
    (member_text level (k, x) ++ members_text level d
     ++ newline_indent level ++ 125%N :: r)
  = Some ((k, x) :: d, r).
Proof.
  induction d as [|[k' y] d IH]; intros k x level fuel r HF Hv Hsz;
    inversion HF as [|? ? Hx HF']; subst; simpl in Hx;
    simpl in Hv; apply andb_prop in Hv; destruct Hv as [Hvx Hvd];
    unfold valid_member in Hvx; simpl in Hvx;
    apply andb_prop in Hvx; destruct Hvx as [Hvk Hvx];
    (destruct fuel as [|f]; [simpl in Hsz; lia|]);
    unfold member_text, encode_string; simpl fst; simpl snd;
    rewrite <- !app_assoc;
    change ([34%N] ++ ?t) with (34%N :: t);
    rewrite parse_members_eq;
    change ([34%N] ++ ?t) with (34%N :: t);
    rewrite scan_encode_string by assumption;
    change (key_separator ++ ?t) with (58%N :: 32%N :: t);
    change (skip_ws (58%N :: ?t)) with (58%N :: t); cbv beta iota;
    change ((58 =? 58)%N) with true; cbv beta iota;
    change (skip_ws (32%N :: ?t)) with (skip_ws t);
    rewrite skip_ws_encode by assumption.
  - change (members_text level [] ++ ?t) with t.
    rewrite Hx; [|assumption|simpl in Hsz; lia|simpl; now right].
    rewrite skip_ws_newline_indent. reflexivity.
  - change (members_text level ((k', y) :: d))
      with ((item_separator ++ newline_indent (S level) ++ member_text level (k', y))
            ++ members_text level d).
    rewrite <- !app_assoc.
    change (item_separator ++ ?t) with (44%N :: t).
    rewrite Hx; [|assumption|simpl in Hsz; lia|simpl; now left].
    change (skip_ws (44%N :: ?t)) with (44%N :: t). cbv beta iota.
    change ((44 =? 125)%N) with false. change ((44 =? 44)%N) with true.
    cbv beta iota.
    rewrite skip_ws_newline_indent.
    replace (skip_ws (member_text level (k', y) ++ members_text level d
                      ++ newline_indent level ++ 125%N :: r))
      with (member_text level (k', y) ++ members_text level d
            ++ newline_indent level ++ 125%N :: r)
      by reflexivity.
    rewrite IH; [reflexivity|assumption|assumption|simpl in Hsz |- *; lia].
Qed.

Lemma distinct_spec k l :
  negb (existsb (text_eqb k) l) = true -> ~ In k l.
Proof.
  intros H Hin. apply negb_true_iff in H.
  assert (existsb (text_eqb k) l = true); [|congruence].
  apply existsb_exists. exists k. split; [assumption|].
  unfold text_eqb. now destruct (text_eq_dec k k).
Qed.

Lemma dict_set_fresh d k v :
  ~ In k (List.map fst d) -> dict_set d k v = d ++ [(k, v)].
Proof.
  induction d as [|[k' v'] d IH]; simpl; intros H; [reflexivity|].
  destruct (text_eq_dec k k') as [->|Hne]; [tauto|].
  rewrite IH by tauto. reflexivity.
Qed.

Lemma fold_dict_set m : forall acc,
  distinct (List.map fst m) = true ->
  (forall k, In k (List.map fst m) -> ~ In k (List.map fst acc)) ->
  fold_left (fun d kv => dict_set d (fst kv) (snd kv)) m acc = acc ++ m.
Proof.
  induction m as [|[k v] m IH]; simpl; intros acc Hd Hfresh.
  - now rewrite List.app_nil_r.
  - apply andb_prop in Hd. destruct Hd as [Hk Hd].
    apply distinct_spec in Hk.
    rewrite dict_set_fresh by (apply Hfresh; now left).
    rewrite IH; [now rewrite <- app_assoc|assumption|].
    intros k0 Hin. rewrite map_app, in_app_iff. simpl.
    intros [H|[H|[]]].
    + apply (Hfresh k0); auto.
    + subst. contradiction.
Qed.

Lemma dict_of_pairs_distinct m :
  distinct (List.map fst m) = true -> dict_of_pairs m = m.
Proof.
  intros H. unfold dict_of_pairs. rewrite fold_dict_set; auto.
Qed.

Lemma parse_value_eq f c r :
  parse_value (S f) (c :: r) =
  if (c =? 34)%N then
    match scan_string (List.length r) r with
    | Some (k, r1) => Some (JStr k, r1)
    | None => None
    end
  else if (c =? 123)%N then
    match skip_ws r with
    | [] => None
    | c1 :: r1 =>
        if (c1 =? 125)%N then Some (JDict [], r1)
        else
          match parse_members f (c1 :: r1) with
          | Some (m, r2) => Some (JDict (dict_of_pairs m), r2)
          | None => None
          end
    end
  else if (c =? 91)%N then
    match skip_ws r with
    | [] => None
    | c1 :: r1 =>
        if (c1 =? 93)%N then Some (JList [], r1)
        else
          match parse_elements f (c1 :: r1) with
          | Some (l, r2) => Some (JList l, r2)
          | None => None
          end
    end
  else scan_constant (c :: r).
Proof. reflexivity. Qed.

Lemma parse_value_int f z r :
  delimited r -> parse_value (S f) (int_text z ++ r) = Some (JInt z, r).
Proof.
  intros Hr. rewrite <- (scan_number_int_text z r Hr).
  unfold int_text. destruct z as [|p|p]; simpl Z.to_int; cbv beta iota.
  - reflexivity.
  - pose proof (DecimalPos.Unsigned.to_uint_nonnil p) as Hn.
    destruct (Pos.to_uint p); try congruence; reflexivity.
  - pose proof (DecimalPos.Unsigned.to_uint_nonnil p) as Hn.
    destruct (Pos.to_uint p); try congruence; reflexivity.
Qed.

Lemma member_text_app level k x u :
  encode_string k ++ key_separator ++ encode (S level) x ++ u
  = member_text level (k, x) ++ u.
Proof. unfold member_text. simpl. now rewrite <- !app_assoc. Qed.

Theorem parse_value_encode v : round_trips v.
Proof.
  induction v as [| b | z | x | s | l IH | d IH] using json_ind';
    intros level fuel r Hv Hsz Hr;
    (destruct fuel as [|f]; [simpl in Hsz; lia|]).
  - reflexivity.
  - destruct b; reflexivity.
  - apply parse_value_int; assumption.
  - discriminate.
  - simpl in Hv. simpl encode. unfold encode_string.
    rewrite <- !app_assoc. change ([34%N] ++ ?t) with (34%N :: t).
    rewrite parse_value_eq. change ((34 =? 34)%N) with true. cbv beta iota.
    change ([34%N] ++ r) with (34%N :: r).
    now rewrite scan_encode_string.
  - destruct l as [|x l]; [reflexivity|].
    simpl in Hv.
    change (encode level (JList (x :: l)))
      with (T "[" ++ newline_indent (S level) ++ encode (S level) x
            ++ items_text level l ++ newline_indent level ++ T "]").
    rewrite <- !app_assoc.
    change (T "[" ++ ?t) with (91%N :: t). change (T "]" ++ r) with (93%N :: r).
    rewrite parse_value_eq.
    change ((91 =? 34)%N) with false. change ((91 =? 123)%N) with false.
    change ((91 =? 91)%N) with true. cbv beta iota.
    rewrite skip_ws_newline_indent.
    apply andb_prop in Hv. destruct Hv as [Hvx Hvl].
    destruct (encode_head (S level) x Hvx) as (c & t & Hc & Hw & H93 & H125).
    set (u := items_text level l ++ newline_indent level ++ 93%N :: r).
    rewrite Hc. change ((c :: t) ++ u) with (c :: t ++ u).
    rewrite skip_ws_stop by assumption.
    apply N.eqb_neq in H93. rewrite H93.
    change (c :: t ++ u) with ((c :: t) ++ u). rewrite <- Hc. subst u.
    rewrite parse_elements_encode; [reflexivity|assumption| |].
    + simpl. now rewrite Hvx, Hvl.
    + simpl in Hsz. unfold items_size. simpl. lia.
  - destruct d as [|[k x] d]; [reflexivity|].
    simpl in Hv. apply andb_prop in Hv. destruct Hv as [Hv Hd].
    change (encode level (JDict ((k, x) :: d)))
      with (T "{" ++ newline_indent (S level) ++ encode_string k
            ++ key_separator ++ encode (S level) x
            ++ members_text level d ++ newline_indent level ++ T "}").
    rewrite <- !app_assoc. rewrite member_text_app.
    change (T "{" ++ ?t) with (123%N :: t). change (T "}" ++ r) with (125%N :: r).
    rewrite parse_value_eq.
    change ((123 =? 34)%N) with false. change ((123 =? 123)%N) with true.
    cbv beta iota. rewrite skip_ws_newline_indent.
    destruct (encode_string_head k) as (t & Ht).
    assert (Hm : exists t', member_text level (k, x) = 34%N :: t').
    { unfold member_text. simpl fst. rewrite Ht. simpl. eauto. }
    destruct Hm as (t' & Ht').
    set (u := members_text level d ++ newline_indent level ++ 125%N :: r).
    rewrite Ht'. change ((34%N :: t') ++ u) with (34%N :: t' ++ u).
    change (skip_ws (34%N :: t' ++ u)) with (34%N :: t' ++ u).
    cbv beta iota. change ((34 =? 125)%N) with false. cbv beta iota.
    change (34%N :: t' ++ u) with ((34%N :: t') ++ u). rewrite <- Ht'. subst u.
    rewrite parse_members_encode; [|assumption|exact Hv|].
    + rewrite dict_of_pairs_distinct by exact Hd. reflexivity.
    + simpl in Hsz. unfold members_size. simpl. lia.
Qed.

Lemma length_newline_indent level : (1 <= List.length (newline_indent level))%nat.
Proof. unfold newline_indent. simpl. lia. Qed.

Lemma size_le_length v : forall level,
  valid_json v = true -> (size v <= List.length (encode level v))%nat.
Proof.
  induction v as [| b | z | x | s | l IH | d IH] using json_ind';
    intros level Hv.
  - simpl. lia.
  - destruct b; simpl; lia.
  - destruct (int_text_head z) as (c & t & E & _). simpl. rewrite E. simpl. lia.
  - discriminate.
  - simpl. lia.
  - destruct l as [|x l]; [simpl; lia|].
    change (encode level (JList (x :: l)))
      with (T "[" ++ newline_indent (S level) ++ encode (S level) x
            ++ items_text level l ++ newline_indent level ++ T "]").
    simpl in Hv. apply andb_prop in Hv. destruct Hv as [Hvx Hvl].
    inversion IH as [|? ? Hx Hl]; subst.
    rewrite !length_app.
    pose proof (length_newline_indent (S level)).
    pose proof (Hx (S level) Hvx).
    assert (Hi : (items_size l <= List.length (items_text level l))%nat).
    { clear - Hl Hvl. induction l as [|y l IHl]; [simpl; lia|].
      inversion Hl as [|? ? Hy Hl']; subst.
      simpl in Hvl. apply andb_prop in Hvl. destruct Hvl as [Hvy Hvl].
      change (items_text level (y :: l))
        with ((item_separator ++ newline_indent (S level) ++ encode (S level) y)
              ++ items_text level l).
      rewrite !length_app.
      pose proof (length_newline_indent (S level)).
      pose proof (Hy (S level) Hvy). specialize (IHl ltac:(assumption) ltac:(assumption)).
      simpl. unfold items_size in *. simpl. lia. }
    simpl. unfold items_size in *. simpl. lia.
  - destruct d as [|[k x] d]; [simpl; lia|].
    change (encode level (JDict ((k, x) :: d)))
      with (T "{" ++ newline_indent (S level) ++ encode_string k
            ++ key_separator ++ encode (S level) x
            ++ members_text level d ++ newline_indent level ++ T "}").
    simpl in Hv. apply andb_prop in Hv. destruct Hv as [Hv _].
    apply andb_prop in Hv. destruct Hv as [Hvx Hvd].
    apply andb_prop in Hvx. destruct Hvx as [_ Hvx].
    inversion IH as [|? ? Hx Hd]; subst. simpl in Hx.
    rewrite !length_app.
    pose proof (Hx (S level) Hvx).
    assert (Hi : (members_size d <= List.length (members_text level d))%nat).
    { clear - Hd Hvd. induction d as [|[k' y] d IHd]; [simpl; lia|].
      inversion Hd as [|? ? Hy Hd']; subst. simpl in Hy.
      simpl in Hvd. apply andb_prop in Hvd. destruct Hvd as [Hvy Hvd].
      apply andb_prop in Hvy. destruct Hvy as [_ Hvy].
      change (members_text level ((k', y) :: d))
        with ((item_separator ++ newline_indent (S level)
               ++ encode_string k' ++ key_separator ++ encode (S level) y)
              ++ members_text level d).
      rewrite !length_app.
      pose proof (Hy (S level) Hvy). specialize (IHd ltac:(assumption) ltac:(assumption)).
      simpl. unfold members_size in *. simpl. lia. }
    simpl. unfold members_size in *. simpl. lia.
Qed.

(** Reading back what was written gives the value written. *)
Theorem json_loads_dumps v :
  valid_json v = true -> json_loads (json_dumps v) = Some v.
Proof.
  intros Hv. unfold json_loads, json_dumps.
  rewrite (skip_ws_encode 0 v [] Hv) || idtac.
  pose proof (skip_ws_encode 0 v [] Hv) as Hs. rewrite List.app_nil_r in Hs.
  rewrite Hs.
  pose proof (parse_value_encode v 0%nat (2 * List.length (encode 0 v) + 2)%nat []
                Hv) as Hp.
  rewrite List.app_nil_r in Hp. rewrite Hp; [reflexivity| |exact I].
  pose proof (size_le_length v 0 Hv). lia.
Qed.

(** * The decoder and the documents *)

Lemma skip_ws_ws w r : ws_text w = true -> skip_ws (w ++ r) = skip_ws r.
Proof.
  induction w as [|c w IH]; [reflexivity|].
  cbn [ws_text forallb]. intros H. apply andb_prop in H. destruct H as [Hc Hw].
  cbn [app skip_ws]. rewrite Hc. now apply IH.
Qed.

Lemma skip_ws_split s :
  exists w, s = w ++ skip_ws s /\ ws_text w = true.
Proof.
  induction s as [|c s (w & E & Hw)]; [now exists []|].
  cbn [skip_ws]. destruct (is_ws c) eqn:Hc.
  - exists (c :: w). cbn [app ws_text forallb]. rewrite Hc.
    split; [now rewrite <- E|exact Hw].
  - now exists [].
Qed.

Lemma skip_ws_head s c r : skip_ws s = c :: r -> is_ws c = false.
Proof.
  induction s as [|a s IH]; [discriminate|].
  cbn [skip_ws]. destruct (is_ws a) eqn:Ha; [exact IH|].
  intros E. injection E as <- _. exact Ha.
Qed.

Lemma ws_text_app a b : ws_text (a ++ b) = ws_text a && ws_text b.
Proof. apply forallb_app. Qed.

Lemma hex_quad_length h u : hex_quad h u -> List.length h = 4%nat.
Proof.
  unfold hex_quad, parse_hex4.
  destruct h as [|a [|b [|c [|d r]]]]; try discriminate.
  destruct (hexval a), (hexval b), (hexval c), (hexval d); try discriminate.
  intros E. injection E as _ ->. reflexivity.
Qed.

Lemma parse_hex4_app h u r : hex_quad h u -> parse_hex4 (h ++ r) = Some (u, r).
Proof.
  unfold hex_quad, parse_hex4.
  destruct h as [|a [|b [|c [|d t]]]]; try discriminate. cbn [app].
  destruct (hexval a), (hexval b), (hexval c), (hexval d); try discriminate.
  intros E. injection E as <- ->. reflexivity.
Qed.

Lemma parse_hex4_inv s u r :
  parse_hex4 s = Some (u, r) -> exists h, s = h ++ r /\ hex_quad h u.
Proof.
  unfold hex_quad, parse_hex4.
  destruct s as [|a [|b [|c [|d t]]]]; try discriminate.
  destruct (hexval a) eqn:Ea, (hexval b) eqn:Eb, (hexval c) eqn:Ec,
    (hexval d) eqn:Ed; try discriminate.
  intros E. injection E as <- <-. exists [a; b; c; d].
  split; [reflexivity|]. now rewrite Ea, Eb, Ec, Ed.
Qed.

Lemma scan_string_u_test f s :
  scan_string (S f) (92%N :: 117%N :: s) =
  match parse_hex4 s with
  | None => None
  | Some (u, r2) =>
      if is_high_surrogate u && starts_u r2 then
        match parse_hex4 (skipn 2 r2) with
        | None => None
        | Some (u2, r4) =>
            if is_low_surrogate u2
            then push (join_surrogates u u2) (scan_string f r4)
            else push u (scan_string f r2)
        end
      else push u (scan_string f r2)
  end.
Proof.
  rewrite scan_string_u. destruct (parse_hex4 s) as [[u r2]|]; [|reflexivity].
  destruct (is_high_surrogate u); [|reflexivity]. cbn [andb].
  destruct r2 as [|a [|b r3]]; try reflexivity.
  - destruct a as [|p]; [reflexivity|].
    do 7 (destruct p as [p|p|]; try reflexivity).
  - cbn [starts_u skipn].
    destruct (N.eqb_spec a 92) as [->|Ha].
    + destruct (N.eqb_spec b 117) as [->|Hb]; [reflexivity|]. cbn [andb].
      destruct b as [|p]; [reflexivity|].
      do 7 (destruct p as [p|p|]; try reflexivity). contradiction.
    + cbn [andb]. destruct a as [|p]; [reflexivity|].
      do 7 (destruct p as [p|p|]; try reflexivity). contradiction.
Qed.

Ltac lengths H :=
  repeat first [rewrite length_app in H | progress cbn [List.length] in H].

Lemma push_inv c o k r :
  push c o = Some (k, r) -> exists k', o = Some (k', r) /\ k = c :: k'.
Proof.
  destruct o as [[k' r']|]; [|discriminate]. cbn [push].
  intros E. injection E as <- <-. now exists k'.
Qed.

Lemma starts_u_inv s :
  starts_u s = true -> exists r, s = 92%N :: 117%N :: r.
Proof.
  destruct s as [|a [|b r]]; try discriminate. cbn [starts_u].
  intros H. apply andb_prop in H. destruct H as [Ha Hb].
  apply N.eqb_eq in Ha, Hb. subst. now exists r.
Qed.

Lemma unescape_not_u c : unescape 117%N = Some c -> False.
Proof. discriminate. Qed.

(** A body that starts with a backslash and u starts with a whole escape. *)
Lemma string_body_u k b r :
  string_body k b -> starts_u (b ++ 34%N :: r) = true ->
  exists h u b', b = 92%N :: 117%N :: h ++ b' /\ hex_quad h u.
Proof.
  intros Hb Hs. destruct Hb as [|c k b H1 H2 H3 Hb|e c k b He Hb
                               |h l hi lo k b Hh Hl Hhi Hlo Hb|h u k b Hh Hn Hb].
  - destruct r; discriminate.
  - cbn [app starts_u] in Hs. destruct (b ++ 34%N :: r); [discriminate|].
    apply andb_prop in Hs. destruct Hs as [Hs _]. apply N.eqb_eq in Hs.
    contradiction.
  - cbn [app starts_u] in Hs. apply andb_prop in Hs. destruct Hs as [_ Hs].
    apply N.eqb_eq in Hs. subst e. discriminate.
  - exists h, hi, (92%N :: 117%N :: l ++ b). now split.
  - exists h, u, b. now split.
Qed.

Lemma surrogates_disjoint u :
  is_high_surrogate u = true -> is_low_surrogate u = true -> False.
Proof.
  unfold is_high_surrogate, is_low_surrogate. intros H1 H2.
  apply andb_prop in H1, H2. destruct H1 as [_ H1], H2 as [H2 _].
  apply N.leb_le in H1, H2. lia.
Qed.

Lemma scan_string_complete k b :
  string_body k b ->
  forall fuel r, (List.length b < fuel)%nat ->
    scan_string fuel (b ++ 34%N :: r) = Some (k, r).
Proof.
  induction 1 as [|c k b H1 H2 H3 Hb IH|e c k b He Hb IH
                 |h l hi lo k b Hh Hl Hhi Hlo Hb IH|h u k b Hh Hn Hb IH];
    intros fuel r Hf; (destruct fuel as [|f]; [simpl in Hf; lia|]).
  - reflexivity.
  - cbn [app]. rewrite scan_string_plain.
    + rewrite IH by (simpl in Hf; lia). reflexivity.
    + now apply N.eqb_neq.
    + now apply N.eqb_neq.
    + now apply N.ltb_ge.
  - assert (Hu : (e =? 117)%N = false).
    { apply N.eqb_neq. intros ->. discriminate. }
    cbn [app scan_string]. cbn [N.eqb Pos.eqb]. rewrite Hu, He.
    rewrite IH by (simpl in Hf; lia). reflexivity.
  - cbn [app]. rewrite scan_string_u_test.
    rewrite <- List.app_assoc. rewrite (parse_hex4_app h hi _ Hh), Hhi.
    cbn [app starts_u andb N.eqb Pos.eqb skipn].
    rewrite <- List.app_assoc. rewrite (parse_hex4_app l lo _ Hl), Hlo.
    rewrite IH; [reflexivity|]. lengths Hf. lia.
  - cbn [app]. rewrite scan_string_u_test.
    rewrite <- List.app_assoc. rewrite (parse_hex4_app h u _ Hh).
    assert (Hf' : (List.length b < f)%nat).
    { lengths Hf. lia. }
    pose proof (IH f r Hf') as IHf.
    remember (b ++ 34%N :: r) as t eqn:Et.
    destruct (is_high_surrogate u && starts_u t) eqn:E.
    + apply andb_prop in E. destruct E as [Hhi Hs]. rewrite Et in Hs.
      destruct (string_body_u k b r Hb Hs) as (h' & u' & b' & Eb & Hh').
      assert (Es : skipn 2 t = h' ++ b' ++ 34%N :: r).
      { rewrite Et, Eb. cbn [app skipn]. now rewrite <- List.app_assoc. }
      rewrite Es, (parse_hex4_app h' u' _ Hh').
      destruct (is_low_surrogate u') eqn:Hlo.
      * exfalso. apply Hn. split; [exact Hhi|]. now exists h', u', b'.
      * now rewrite IHf.
    + now rewrite IHf.
Qed.

Lemma scan_string_sound fuel :
  forall s k r,
    scan_string fuel s = Some (k, r) ->
    exists b, s = b ++ 34%N :: r /\ string_body k b.
Proof.
  induction fuel as [|f IH]; intros s k r H; [discriminate|].
  destruct s as [|c s]; [discriminate|].
  destruct (N.eqb_spec c 34) as [->|H34].
  { cbn in H. injection H as <- <-. exists []. split; [reflexivity|constructor]. }
  destruct (N.eqb_spec c 92) as [->|H92].
  - destruct s as [|e r1]; [discriminate|].
    destruct (N.eqb_spec e 117) as [->|H117].
    + rewrite scan_string_u_test in H.
      destruct (parse_hex4 r1) as [[u r2]|] eqn:E1; [|discriminate].
      destruct (parse_hex4_inv _ _ _ E1) as (h & -> & Hh).
      destruct (is_high_surrogate u && starts_u r2) eqn:E.
      * apply andb_prop in E. destruct E as [Hhi Hs].
        destruct (starts_u_inv _ Hs) as (r3 & ->). cbn [skipn] in H.
        destruct (parse_hex4 r3) as [[u2 r4]|] eqn:E2; [|discriminate].
        destruct (parse_hex4_inv _ _ _ E2) as (l & -> & Hl).
        destruct (is_low_surrogate u2) eqn:Hlo.
        -- apply push_inv in H. destruct H as (k' & H & ->).
           destruct (IH _ _ _ H) as (b & -> & Hb).
           exists (92%N :: 117%N :: h ++ 92%N :: 117%N :: l ++ b). split.
           ++ cbn [app]. rewrite <- !List.app_assoc. cbn [app].
              now rewrite <- List.app_assoc.
           ++ now constructor.
        -- apply push_inv in H. destruct H as (k' & H & ->).
           destruct (IH _ _ _ H) as (b & Eb & Hb).
           exists (92%N :: 117%N :: h ++ b). split.
           ++ cbn [app]. rewrite <- List.app_assoc. now rewrite <- Eb.
           ++ apply sb_unit; [exact Hh| |exact Hb].
              intros (_ & l' & lo & b' & -> & Hl' & Hlo').
              cbn [app] in Eb. injection Eb as Eb.
              rewrite <- List.app_assoc in Eb. rewrite Eb in E2.
              rewrite (parse_hex4_app l' lo _ Hl') in E2.
              injection E2 as -> _. congruence.
      * apply push_inv in H. destruct H as (k' & H & ->).
        destruct (IH _ _ _ H) as (b & Eb & Hb).
        exists (92%N :: 117%N :: h ++ b). split.
        -- cbn [app]. rewrite <- List.app_assoc. now rewrite <- Eb.
        -- apply sb_unit; [exact Hh| |exact Hb].
           intros (Hhi & l' & lo & b' & -> & Hl' & Hlo').
           rewrite Eb, Hhi in E. discriminate.
    + cbn [scan_string] in H. cbn [N.eqb Pos.eqb] in H.
      apply N.eqb_neq in H117. rewrite H117 in H.
      destruct (unescape e) as [c'|] eqn:He; [|discriminate].
      apply push_inv in H. destruct H as (k' & H & ->).
      destruct (IH _ _ _ H) as (b & -> & Hb).
      exists (92%N :: e :: b). split; [reflexivity|]. now constructor.
  - cbn [scan_string] in H.
    apply N.eqb_neq in H34, H92. rewrite H34, H92 in H.
    destruct (c <? 32)%N eqn:H32; [discriminate|].
    apply push_inv in H. destruct H as (k' & H & ->).
    destruct (IH _ _ _ H) as (b & -> & Hb).
    exists (c :: b). split; [reflexivity|].
    apply N.ltb_ge in H32. apply N.eqb_neq in H34, H92. now constructor.
Qed.

Lemma follow_stops r : follow r -> stops r.
Proof.
  destruct r as [|c r]; [auto|]. cbn [follow stops].
  intros [H|[->|[->| ->]]]; try reflexivity.
  unfold is_ws in H. unfold is_digit.
  repeat (apply orb_prop in H; destruct H as [H|H]);
    apply N.eqb_eq in H; subst; reflexivity.
Qed.

Lemma take_digits_complete ds r :
  digits ds = true -> stops r -> take_digits (ds ++ r) = (ds, r).
Proof.
  intros Hd Hr. induction ds as [|c ds IH].
  - destruct r as [|c r]; [reflexivity|]. cbn [app take_digits stops] in *.
    now rewrite Hr.
  - cbn [digits forallb] in Hd. apply andb_prop in Hd. destruct Hd as [Hc Hd].
    cbn [app take_digits]. rewrite Hc, (IH Hd). reflexivity.
Qed.

Lemma take_digits_sound s :
  forall ds r, take_digits s = (ds, r) ->
    s = ds ++ r /\ digits ds = true /\ stops r.
Proof.
  induction s as [|c s IH]; intros ds r H.
  - injection H as <- <-. now repeat split.
  - cbn [take_digits] in H. destruct (is_digit c) eqn:Hc.
    + destruct (take_digits s) as [d r'] eqn:E. injection H as <- <-.
      destruct (IH d r' eq_refl) as (-> & Hd & Hr).
      repeat split; [|exact Hr]. cbn [digits forallb]. now rewrite Hc.
    + injection H as <- <-. now repeat split.
Qed.

Lemma scan_int_complete ip r :
  int_part ip -> stops r -> scan_int (ip ++ r) = Some (ip, r).
Proof.
  intros [->|(c & ds & -> & Hc & H0 & Hd)] Hr; [reflexivity|].
  cbn [app scan_int]. apply N.eqb_neq in H0. rewrite H0, Hc.
  change (c :: ds ++ r) with ((c :: ds) ++ r).
  rewrite take_digits_complete; [reflexivity| |exact Hr].
  cbn [digits forallb]. now rewrite Hc.
Qed.

Lemma scan_int_sound s ip r :
  scan_int s = Some (ip, r) ->
  s = ip ++ r /\ int_part ip /\ (ip = [48%N] \/ stops r).
Proof.
  destruct s as [|c s]; [discriminate|]. unfold scan_int.
  destruct (N.eqb_spec c 48) as [->|H0].
  - intros H. injection H as <- <-. repeat split; now left.
  - destruct (is_digit c) eqn:Hc; [|discriminate]. intros H. injection H as H.
    change (take_digits (c :: s) = (ip, r)) in H.
    destruct (take_digits_sound _ _ _ H) as (E & Hd & Hr).
    destruct ip as [|c' ds].
    + cbn [take_digits] in H. rewrite Hc in H.
      destruct (take_digits s). discriminate.
    + cbn [app] in E. injection E as <- E.
      split; [now rewrite E|]. split; [|now right].
      right. exists c, ds. cbn [digits forallb] in Hd.
      apply andb_prop in Hd. now repeat split.
Qed.

Lemma scan_frac_none r : no_point r -> scan_frac r = ([], r).
Proof.
  destruct r as [|c r]; [reflexivity|]. cbn [no_point scan_frac].
  intros H. apply N.eqb_neq in H. now rewrite H.
Qed.

Lemma scan_frac_complete c ds r :
  digits (c :: ds) = true -> stops r ->
  scan_frac (46%N :: c :: ds ++ r) = (46%N :: c :: ds, r).
Proof.
  intros Hd Hr. unfold scan_frac. cbn [N.eqb Pos.eqb].
  change (c :: ds ++ r) with ((c :: ds) ++ r).
  now rewrite (take_digits_complete _ _ Hd Hr).
Qed.

Lemma scan_frac_sound s f r :
  scan_frac s = (f, r) -> s = f ++ r /\ frac_part f.
Proof.
  destruct s as [|c s]; unfold scan_frac.
  - intros H. injection H as <- <-. split; [reflexivity|now left].
  - destruct (N.eqb_spec c 46) as [->|Hc].
    + destruct (take_digits s) as [[|d ds] r'] eqn:E; intros H;
        injection H as <- <-.
      * split; [reflexivity|now left].
      * destruct (take_digits_sound _ _ _ E) as (-> & Hd & _).
        split; [reflexivity|]. right. now exists d, ds.
    + intros H. injection H as <- <-. split; [reflexivity|now left].
Qed.

Lemma scan_exp_none r : no_exponent r -> scan_exp r = ([], r).
Proof.
  destruct r as [|c r]; [reflexivity|]. cbn [no_exponent scan_exp].
  intros [H1 H2]. apply N.eqb_neq in H1, H2. now rewrite H1, H2.
Qed.

Lemma digit_not_sign c :
  is_digit c = true -> ((c =? 45) || (c =? 43))%N = false.
Proof.
  unfold is_digit. intros H. apply andb_prop in H. destruct H as [H _].
  apply N.leb_le in H. apply orb_false_iff.
  split; apply N.eqb_neq; lia.
Qed.

Lemma scan_exp_complete E sg c ds r :
  (E = 101%N \/ E = 69%N) -> (sg = [] \/ sg = [45%N] \/ sg = [43%N]) ->
  digits (c :: ds) = true -> stops r ->
  scan_exp (E :: sg ++ c :: ds ++ r) = (E :: sg ++ c :: ds, r).
Proof.
  intros HE Hsg Hd Hr.
  assert (Ht : take_digits ((c :: ds) ++ r) = (c :: ds, r))
    by now apply take_digits_complete.
  assert (H1 : ((E =? 101) || (E =? 69))%N = true)
    by (destruct HE as [->| ->]; reflexivity).
  assert (Hc : is_digit c = true).
  { cbn [digits forallb] in Hd. now apply andb_prop in Hd. }
  unfold scan_exp. rewrite H1.
  destruct Hsg as [->|[->| ->]]; cbn [app].
  - rewrite (digit_not_sign c Hc).
    change (c :: ds ++ r) with ((c :: ds) ++ r). now rewrite Ht.
  - cbn [N.eqb Pos.eqb orb].
    change (c :: ds ++ r) with ((c :: ds) ++ r). now rewrite Ht.
  - cbn [N.eqb Pos.eqb orb].
    change (c :: ds ++ r) with ((c :: ds) ++ r). now rewrite Ht.
Qed.

Lemma scan_exp_sound s e r :
  scan_exp s = (e, r) -> s = e ++ r /\ exp_part e.
Proof.
  destruct s as [|E s]; unfold scan_exp.
  - intros H. injection H as <- <-. split; [reflexivity|now left].
  - destruct ((E =? 101) || (E =? 69))%N eqn:HE.
    2:{ intros H. injection H as <- <-. split; [reflexivity|now left]. }
    assert (HE' : E = 101%N \/ E = 69%N).
    { apply orb_prop in HE. destruct HE as [H|H]; apply N.eqb_eq in H; auto. }
    destruct s as [|sg r1].
    { intros H. injection H as <- <-. split; [reflexivity|now left]. }
    destruct ((sg =? 45) || (sg =? 43))%N eqn:Hsg.
    + destruct (take_digits r1) as [[|d ds] r'] eqn:Et; intros H;
        injection H as <- <-.
      * split; [reflexivity|now left].
      * destruct (take_digits_sound _ _ _ Et) as (-> & Hd & _).
        split; [reflexivity|]. right. exists E, [sg], d, ds.
        repeat split; try assumption.
        apply orb_prop in Hsg. destruct Hsg as [H|H]; apply N.eqb_eq in H;
          subst; auto.
    + destruct (take_digits (sg :: r1)) as [[|d ds] r'] eqn:Et; intros H;
        injection H as <- <-.
      * split; [reflexivity|now left].
      * destruct (take_digits_sound _ _ _ Et) as (Es & Hd & _).
        split; [cbn [app]; now rewrite Es|].
        right. exists E, [], d, ds. repeat split; auto.
Qed.

Lemma is_digit_cases c :
  is_digit c = true ->
  (c = 48 \/ c = 49 \/ c = 50 \/ c = 51 \/ c = 52 \/ c = 53 \/ c = 54
   \/ c = 55 \/ c = 56 \/ c = 57)%N.
Proof.
  unfold is_digit. intros H. apply andb_prop in H. destruct H as [H1 H2].
  apply N.leb_le in H1, H2. lia.
Qed.

Lemma uint_text_uint_of_text ds :
  digits ds = true -> uint_text (uint_of_text ds) = ds.
Proof.
  induction ds as [|c ds IH]; [reflexivity|].
  cbn [digits forallb]. intros H. apply andb_prop in H. destruct H as [Hc Hd].
  specialize (IH Hd). cbn [uint_of_text].
  destruct (is_digit_cases c Hc) as [->|[->|[->|[->|[->|[->|[->|[->|[->| ->]]]]]]]]];
    cbn; now rewrite IH.
Qed.

Lemma digits_uint_text d : digits (uint_text d) = true.
Proof. induction d; cbn [uint_text digits forallb]; auto. Qed.

Lemma int_part_digits ip : int_part ip -> digits ip = true.
Proof.
  intros [->|(c & ds & -> & Hc & _ & Hd)]; [reflexivity|].
  cbn [digits forallb]. now rewrite Hc.
Qed.

(** The digits of a whole part are the decimal notation of its value. *)
Lemma int_part_value ip :
  int_part ip ->
  let u := uint_of_text ip in
  0 <= Z.of_int (Decimal.Pos u) /\
  int_text (Z.of_int (Decimal.Pos u)) = ip /\
  (ip = [48%N] \/ int_text (Z.of_int (Decimal.Neg u)) = 45%N :: ip).
Proof.
  intros Hip. pose proof (int_part_digits ip Hip) as Hd. cbv zeta.
  pose proof (uint_text_uint_of_text ip Hd) as Ht.
  destruct Hip as [->|(c & ds & -> & Hc & H0 & Hds)].
  - repeat split; try reflexivity. now left.
  - assert (Hn : Decimal.unorm (uint_of_text (c :: ds)) = uint_of_text (c :: ds)
                 /\ Decimal.nzhead (uint_of_text (c :: ds)) <> Decimal.Nil).
    { cbn [uint_of_text].
      destruct (is_digit_cases c Hc)
        as [->|[->|[->|[->|[->|[->|[->|[->|[->| ->]]]]]]]]];
        try contradiction; cbn; split; try reflexivity; discriminate. }
    destruct Hn as [Hn Hz]. split; [|split].
    + cbn [Z.of_int]. unfold Z.of_uint. apply N2Z.is_nonneg.
    + unfold int_text. rewrite DecimalZ.to_of. cbn [Decimal.norm].
      now rewrite Hn.
    + right. unfold int_text. rewrite DecimalZ.to_of. cbn [Decimal.norm].
      destruct (Decimal.nzhead (uint_of_text (c :: ds))) eqn:E;
        try contradiction; rewrite <- E;
        unfold Decimal.unorm in Hn; rewrite E in Hn; rewrite E, Hn;
        now rewrite Ht.
Qed.

Lemma follow_no_point r : follow r -> no_point r.
Proof.
  destruct r as [|c r]; [auto|]. cbn [follow no_point].
  intros [H|[->|[->| ->]]]; try discriminate.
  intros ->. discriminate.
Qed.

Lemma follow_no_exponent r : follow r -> no_exponent r.
Proof.
  destruct r as [|c r]; [auto|]. cbn [follow no_exponent].
  intros [H|[->|[->| ->]]]; try (split; discriminate).
  split; intros ->; discriminate.
Qed.

Lemma int_part_head ip :
  int_part ip -> exists c t, ip = c :: t /\ is_digit c = true.
Proof.
  intros [->|(c & ds & -> & Hc & _)]; [now exists 48%N, []|now exists c, ds].
Qed.

Lemma digit_not_minus c : is_digit c = true -> (c =? 45)%N = false.
Proof.
  intros H. apply digit_not_sign in H. now apply orb_false_iff in H.
Qed.

Lemma scan_sign_parts neg ip t :
  int_part ip -> scan_sign (sign_text neg ++ ip ++ t) = (neg, ip ++ t).
Proof.
  intros Hip. destruct neg; [reflexivity|].
  destruct (int_part_head ip Hip) as (c & u & -> & Hc).
  cbn [sign_text app scan_sign]. now rewrite (digit_not_minus c Hc).
Qed.

Lemma frac_part_stops f t :
  frac_part f -> f <> [] -> stops (f ++ t).
Proof. intros [->|(c & ds & -> & _)] Hf; [contradiction|reflexivity]. Qed.

Lemma exp_part_stops e t :
  exp_part e -> e <> [] -> stops (e ++ t) /\ no_point (e ++ t).
Proof.
  intros [->|(E & sg & c & ds & -> & [->| ->] & _)] He; try contradiction;
    (split; [reflexivity|discriminate]).
Qed.

Lemma scan_frac_parts f t :
  frac_part f -> stops t -> (f = [] -> no_point t) ->
  scan_frac (f ++ t) = (f, t).
Proof.
  intros [->|(c & ds & -> & Hd)] Ht Hn.
  - now apply scan_frac_none, Hn.
  - cbn [app]. now apply scan_frac_complete.
Qed.

Lemma scan_exp_parts e r :
  exp_part e -> follow r -> scan_exp (e ++ r) = (e, r).
Proof.
  intros [->|(E & sg & c & ds & -> & HE & Hsg & Hd)] Hr.
  - now apply scan_exp_none, follow_no_exponent.
  - cbn [app]. rewrite <- List.app_assoc. cbn [app].
    apply scan_exp_complete; auto. now apply follow_stops.
Qed.

Lemma scan_number_parts neg ip f e r :
  int_part ip -> frac_part f -> exp_part e -> follow r ->
  scan_number (sign_text neg ++ ip ++ f ++ e ++ r)
  = Some (number_value neg ip f e, r).
Proof.
  intros Hip Hf He Hr. unfold scan_number.
  rewrite (scan_sign_parts neg ip _ Hip).
  assert (Hst : stops (e ++ r) /\ no_point (e ++ r)).
  { destruct e as [|x e'].
    - split; [now apply follow_stops|now apply follow_no_point].
    - apply exp_part_stops; [exact He|discriminate]. }
  destruct Hst as [Hs1 Hs2].
  rewrite scan_int_complete; [|exact Hip|].
  2:{ destruct f as [|x f']; [exact Hs1|].
      apply frac_part_stops; [exact Hf|discriminate]. }
  rewrite (scan_frac_parts f (e ++ r) Hf Hs1 (fun _ => Hs2)).
  rewrite (scan_exp_parts e r He Hr).
  unfold number_value, sign_text. destruct f, e; reflexivity.
Qed.

Lemma scan_sign_sound s neg t : scan_sign s = (neg, t) -> s = sign_text neg ++ t.
Proof.
  destruct s as [|c s]; cbn [scan_sign].
  - intros H. injection H as <- <-. reflexivity.
  - destruct (N.eqb_spec c 45) as [->|Hc]; intros H; injection H as <- <-;
      reflexivity.
Qed.

Lemma scan_number_sound s v r :
  scan_number s = Some (v, r) ->
  exists neg ip f e,
    s = sign_text neg ++ ip ++ f ++ e ++ r /\
    int_part ip /\ frac_part f /\ exp_part e /\ v = number_value neg ip f e.
Proof.
  unfold scan_number.
  destruct (scan_sign s) as [neg s1] eqn:E0.
  destruct (scan_int s1) as [[ip r2]|] eqn:E1; [|discriminate].
  destruct (scan_frac r2) as [f r3] eqn:E2.
  destruct (scan_exp r3) as [e r4] eqn:E3.
  intros H. apply scan_sign_sound in E0.
  destruct (scan_int_sound _ _ _ E1) as (-> & Hip & _).
  destruct (scan_frac_sound _ _ _ E2) as (-> & Hf).
  destruct (scan_exp_sound _ _ _ E3) as (-> & He).
  exists neg, ip, f, e.
  assert (r4 = r /\ v = number_value neg ip f e) as [-> ->].
  { unfold number_value, sign_text. destruct f, e; injection H as <- <-;
      now split. }
  now repeat split.
Qed.

Lemma int_text_int_part n : 0 <= n -> int_part (int_text n).
Proof.
  intros Hn. destruct n as [|p|p]; [now left| |lia].
  unfold int_text. cbn [Z.to_int].
  pose proof (to_uint_no_leading_zero p) as Hz.
  pose proof (DecimalPos.Unsigned.to_uint_nonnil p) as Hnil.
  pose proof (digits_uint_text (Pos.to_uint p)) as Hd.
  right.
  destruct (Pos.to_uint p) as [|d|d|d|d|d|d|d|d|d|d];
    try congruence; try (exfalso; now apply (Hz d));
    cbn [uint_text] in *; eexists _, _;
    (split; [reflexivity|]); (split; [reflexivity|]);
    (split; [discriminate|]); exact Hd.
Qed.

Lemma uint_of_int_text n :
  0 <= n -> Z.of_int (Decimal.Pos (uint_of_text (int_text n))) = n.
Proof.
  intros Hn. unfold int_text.
  destruct (Z.to_int n) as [d|d] eqn:E.
  - rewrite uint_of_text_uint_text, <- E. apply DecimalZ.of_to.
  - destruct n; try discriminate. lia.
Qed.

Lemma number_value_lexeme neg ip f e :
  int_part ip -> frac_part f -> exp_part e ->
  lexeme (number_value neg ip f e) (sign_text neg ++ ip ++ f ++ e).
Proof.
  intros Hip Hf He.
  destruct (int_part_value ip Hip) as (H0 & Hpos & Hneg).
  assert (Hfl : f <> [] \/ e <> [] ->
                lexeme (JFloat (sign_text neg ++ ip ++ f ++ e))
                  (sign_text neg ++ ip ++ f ++ e)).
  { intros Hne. split; [reflexivity|]. right. right. right.
    exists (sign_text neg), (Z.of_int (Decimal.Pos (uint_of_text ip))), f, e.
    rewrite Hpos. repeat split; try assumption.
    destruct neg; [now right|now left]. }
  unfold number_value. destruct f as [|x f].
  - destruct e as [|y e].
    + rewrite !List.app_nil_r. cbn [lexeme]. destruct neg.
      * destruct Hneg as [->|Hneg]; [now right|left; now rewrite Hneg].
      * left. now rewrite Hpos.
    + apply Hfl. right. discriminate.
  - apply Hfl. left. discriminate.
Qed.

Lemma int_lexeme_parts z s :
  int_lexeme z s ->
  exists neg ip,
    s = sign_text neg ++ ip /\ int_part ip /\
    number_value neg ip [] [] = JInt z.
Proof.
  intros [->|[-> ->]].
  - destruct z as [|p|p].
    + exists false, [48%N]. repeat split. now left.
    + exists false, (int_text (Z.pos p)). split; [reflexivity|].
      split; [now apply int_text_int_part|].
      unfold number_value. now rewrite uint_of_int_text.
    + exists true, (int_text (Z.pos p)). split; [reflexivity|].
      split; [now apply int_text_int_part|].
      unfold number_value, int_text. cbn [Z.to_int].
      rewrite uint_of_text_uint_text.
      change (Decimal.Neg (Pos.to_uint p)) with (Z.to_int (Z.neg p)).
      now rewrite DecimalZ.of_to.
  - exists true, [48%N]. repeat split. now left.
Qed.

Lemma strip_prefix_sound p : forall s r, strip_prefix p s = Some r -> s = p ++ r.
Proof.
  induction p as [|a p IH]; intros s r H.
  - now injection H as ->.
  - destruct s as [|b s]; [discriminate|]. cbn [strip_prefix] in H.
    destruct (N.eqb_spec a b) as [->|]; [|discriminate].
    now rewrite (IH _ _ H).
Qed.

Lemma scan_constant_digit c t :
  is_digit c = true -> scan_constant (c :: t) = scan_number (c :: t).
Proof.
  intros Hc.
  destruct (is_digit_cases c Hc)
    as [->|[->|[->|[->|[->|[->|[->|[->|[->| ->]]]]]]]]]; reflexivity.
Qed.

Lemma scan_constant_minus c t :
  is_digit c = true ->
  scan_constant (45%N :: c :: t) = scan_number (45%N :: c :: t).
Proof.
  intros Hc.
  destruct (is_digit_cases c Hc)
    as [->|[->|[->|[->|[->|[->|[->|[->|[->| ->]]]]]]]]]; reflexivity.
Qed.

Lemma scan_constant_parts neg ip t :
  int_part ip ->
  scan_constant (sign_text neg ++ ip ++ t)
  = scan_number (sign_text neg ++ ip ++ t).
Proof.
  intros Hip. destruct (int_part_head ip Hip) as (c & u & -> & Hc).
  destruct neg; cbn [sign_text app].
  - now apply scan_constant_minus.
  - now apply scan_constant_digit.
Qed.

Lemma digit_opens_scalar c : is_digit c = true -> opens_scalar c.
Proof.
  intros Hc.
  destruct (is_digit_cases c Hc)
    as [->|[->|[->|[->|[->|[->|[->|[->|[->| ->]]]]]]]]];
    repeat split; discriminate.
Qed.

Lemma parts_head neg ip t :
  int_part ip ->
  exists c u, sign_text neg ++ ip ++ t = c :: u /\ opens_scalar c.
Proof.
  intros Hip. destruct (int_part_head ip Hip) as (c & u & -> & Hc).
  destruct neg; cbn [sign_text app].
  - eexists _, _. split; [reflexivity|]. repeat split; discriminate.
  - eexists _, _. split; [reflexivity|]. now apply digit_opens_scalar.
Qed.

Lemma float_lexeme_parts x :
  float_lexeme x ->
  x = T "NaN" \/ x = T "Infinity" \/ x = T "-Infinity" \/
  exists neg ip f e,
    x = sign_text neg ++ ip ++ f ++ e /\ int_part ip /\ frac_part f /\
    exp_part e /\ number_value neg ip f e = JFloat x.
Proof.
  intros [H|[H|[H|(sign & n & f & e & -> & Hn & Hs & Hf & He & Hne)]]]; auto.
  right. right. right.
  exists (match sign with [] => false | _ => true end), (int_text n), f, e.
  assert (Es : sign_text (match sign with [] => false | _ => true end) = sign)
    by (destruct Hs as [->| ->]; reflexivity).
  rewrite Es. split; [reflexivity|]. split; [now apply int_text_int_part|].
  split; [exact Hf|]. split; [exact He|].
  unfold number_value. rewrite Es.
  destruct f, e; try reflexivity. destruct Hne; contradiction.
Qed.

Lemma scan_constant_complete v lex r :
  scalar v -> lexeme v lex -> follow r ->
  scan_constant (lex ++ r) = Some (v, r) /\
  exists c u, lex = c :: u /\ opens_scalar c.
Proof.
  intros Hs Hl Hr. destruct v as [|b|z|x|k|l|m]; try contradiction;
    cbn [lexeme] in Hl.
  - subst lex. split; [reflexivity|].
    eexists _, _. split; [reflexivity|]. repeat split; discriminate.
  - subst lex. destruct b; (split; [reflexivity|]);
      eexists _, _; (split; [reflexivity|]); repeat split; discriminate.
  - destruct (int_lexeme_parts z lex Hl) as (neg & ip & -> & Hip & Hv).
    split.
    + rewrite <- List.app_assoc, (scan_constant_parts neg ip r Hip).
      pose proof (scan_number_parts neg ip [] [] r Hip (or_introl eq_refl)
                    (or_introl eq_refl) Hr) as H.
      cbn [app] in H. now rewrite H, Hv.
    + destruct (parts_head neg ip [] Hip) as (c & u & E & Hc).
      rewrite List.app_nil_r in E. now exists c, u.
  - destruct Hl as [-> Hx].
    destruct (float_lexeme_parts x Hx)
      as [->|[->|[->|(neg & ip & f & e & -> & Hip & Hf & He & Hv)]]].
    + split; [reflexivity|].
      eexists _, _. split; [reflexivity|]. repeat split; discriminate.
    + split; [reflexivity|].
      eexists _, _. split; [reflexivity|]. repeat split; discriminate.
    + split; [reflexivity|].
      eexists _, _. split; [reflexivity|]. repeat split; discriminate.
    + split.
      * rewrite <- !List.app_assoc.
        rewrite (scan_constant_parts neg ip _ Hip).
        now rewrite (scan_number_parts neg ip f e r Hip Hf He Hr), Hv.
      * exact (parts_head neg ip (f ++ e) Hip).
Qed.

Lemma scan_constant_sound s v r :
  scan_constant s = Some (v, r) ->
  exists lex, s = lex ++ r /\ lexeme v lex /\ scalar v.
Proof.
  unfold scan_constant.
  destruct (strip_prefix (T "null") s) as [r1|] eqn:E1.
  { intros H. injection H as <- <-. apply strip_prefix_sound in E1.
    now exists (T "null"). }
  destruct (strip_prefix (T "true") s) as [r2|] eqn:E2.
  { intros H. injection H as <- <-. apply strip_prefix_sound in E2.
    now exists (T "true"). }
  destruct (strip_prefix (T "false") s) as [r3|] eqn:E3.
  { intros H. injection H as <- <-. apply strip_prefix_sound in E3.
    now exists (T "false"). }
  destruct (strip_prefix (T "NaN") s) as [r4|] eqn:E4.
  { intros H. injection H as <- <-. apply strip_prefix_sound in E4.
    exists (T "NaN"). repeat split; auto. now left. }
  destruct (strip_prefix (T "Infinity") s) as [r5|] eqn:E5.
  { intros H. injection H as <- <-. apply strip_prefix_sound in E5.
    exists (T "Infinity"). repeat split; auto. right. now left. }
  destruct (strip_prefix (T "-Infinity") s) as [r6|] eqn:E6.
  { intros H. injection H as <- <-. apply strip_prefix_sound in E6.
    exists (T "-Infinity"). repeat split; auto. right. right. now left. }
  intros H.
  destruct (scan_number_sound s v r H)
    as (neg & ip & f & e & -> & Hip & Hf & He & ->).
  exists (sign_text neg ++ ip ++ f ++ e).
  split; [now rewrite <- !List.app_assoc|].
  split; [now apply number_value_lexeme|].
  unfold number_value. now destruct f, e.
Qed.

Lemma scalar_head v lex :
  scalar v -> lexeme v lex -> exists c u, lex = c :: u /\ opens c.
Proof.
  intros Hs Hl.
  pose proof (scan_constant_complete v lex [] Hs Hl I) as H.
  destruct H as [_ H]. destruct H as (c & u & E & Hc).
  exists c, u. split; [exact E|].
  unfold opens_scalar in Hc. unfold opens. tauto.
Qed.

Lemma lexeme_head v lex :
  lexeme v lex -> exists c u, lex = c :: u /\ opens c.
Proof.
  intros Hl. destruct v as [|b|z|x|k|l|m].
  - now apply (scalar_head JNull).
  - now apply (scalar_head (JBool b)).
  - now apply (scalar_head (JInt z)).
  - now apply (scalar_head (JFloat x)).
  - destruct Hl as (b & -> & _). eexists _, _. split; [reflexivity|].
    repeat split; discriminate.
  - destruct Hl as (w & body & -> & _). eexists _, _. split; [reflexivity|].
    repeat split; discriminate.
  - destruct Hl as (w & body & -> & _). eexists _, _. split; [reflexivity|].
    repeat split; discriminate.
Qed.

Lemma skip_ws_opens_head c u : opens c -> skip_ws (c :: u) = c :: u.
Proof. intros [H _]. now apply skip_ws_stop. Qed.

Lemma skip_ws_lexeme v lex w r :
  lexeme v lex -> ws_text w = true -> skip_ws (w ++ lex ++ r) = lex ++ r.
Proof.
  intros Hl Hw. rewrite (skip_ws_ws w _ Hw).
  destruct (lexeme_head v lex Hl) as (c & u & -> & Hc).
  now apply skip_ws_opens_head.
Qed.

Lemma skip_ws_then w c t :
  ws_text w = true -> is_ws c = false -> skip_ws (w ++ c :: t) = c :: t.
Proof. intros Hw Hc. rewrite (skip_ws_ws w _ Hw). now apply skip_ws_stop. Qed.

Lemma follow_then w c t :
  ws_text w = true -> (c = 44%N \/ c = 93%N \/ c = 125%N) ->
  follow (w ++ c :: t).
Proof.
  intros Hw Hc. destruct w as [|a w]; cbn [app follow]; [now right|].
  cbn [ws_text forallb] in Hw. apply andb_prop in Hw. now left.
Qed.

Lemma sequence_head (A : Type) (item : A -> text -> Prop) close l body :
  (forall x lex, item x lex -> exists c u, lex = c :: u /\ opens c) ->
  sequence item close l body -> exists c u, body = c :: u /\ opens c.
Proof.
  intros Hi Hs. destruct l as [|x [|y l]]; [contradiction| |].
  - destruct Hs as (lex & w & -> & Hx & _).
    destruct (Hi x lex Hx) as (c & u & -> & Hc). now eexists _, _.
  - destruct Hs as (lex & w1 & w2 & body' & -> & Hx & _).
    destruct (Hi x lex Hx) as (c & u & -> & Hc). now eexists _, _.
Qed.

Lemma elements_complete l :
  Forall reads l ->
  forall body fuel r,
    sequence (fun x => lexeme x) 93%N l body ->
    (items_size l <= fuel)%nat ->
    parse_elements fuel (body ++ r) = Some (List.map normalise l, r).
Proof.
  induction 1 as [|x l Hx Hl IH]; intros body fuel r Hs Hf; [contradiction|].
  cbn [items_size fold_right] in Hf. fold (items_size l) in Hf.
  destruct fuel as [|f]; [lia|]. rewrite parse_elements_eq.
  destruct l as [|y l'].
  - destruct Hs as (lex & w & -> & Hlex & Hw).
    rewrite <- !List.app_assoc. cbn [app].
    rewrite (Hx lex f _ Hlex); [|lia|apply follow_then; auto].
    rewrite skip_ws_then by (auto; reflexivity). reflexivity.
  - destruct Hs as (lex & w1 & w2 & body' & -> & Hlex & Hw1 & Hw2 & Hs').
    rewrite <- !List.app_assoc. cbn [app]. rewrite <- !List.app_assoc.
    rewrite (Hx lex f _ Hlex); [|lia|apply follow_then; auto].
    rewrite skip_ws_then by (auto; reflexivity). cbn [N.eqb Pos.eqb].
    destruct (sequence_head _ _ _ _ _ lexeme_head Hs') as (c & u & Eb & Hc).
    rewrite (skip_ws_ws w2 _ Hw2).
    rewrite Eb at 1. cbn [app]. rewrite (skip_ws_opens_head c _ Hc).
    change (c :: u ++ r) with ((c :: u) ++ r). rewrite <- Eb.
    rewrite (IH body' f r Hs'); [reflexivity|].
    cbn [items_size fold_right] in *. lia.
Qed.

Ltac flatten := repeat first [rewrite <- List.app_assoc | progress cbn [app]].

Lemma pair_head kv lex :
  pair_lexeme (fun x => lexeme x) kv lex ->
  exists c u, lex = c :: u /\ opens c.
Proof.
  intros (kl & w1 & w2 & vl & -> & (b & -> & _) & _).
  eexists _, _. split; [reflexivity|]. repeat split; discriminate.
Qed.

(** Reading one pair of an object, up to the value. *)
Lemma pair_complete f k v lex t :
  reads v -> pair_lexeme (fun x => lexeme x) (k, v) lex ->
  (size v <= f)%nat -> follow t ->
  exists r0,
    lex ++ t = 34%N :: r0 /\
    match scan_string (List.length r0) r0 with
    | None => None
    | Some (k', r1) =>
        match skip_ws r1 with
        | [] => None
        | c :: r2 =>
            if (c =? 58)%N then
              match parse_value f (skip_ws r2) with
              | None => None
              | Some (v', r3) => Some (k', v', r3)
              end
            else None
        end
    end = Some (k, normalise v, t).
Proof.
  intros Hv (kl & w1 & w2 & vl & -> & (b & -> & Hb) & Hw1 & Hw2 & Hvl) Hf Ht.
  cbn [fst snd] in *.
  exists (b ++ 34%N :: w1 ++ 58%N :: w2 ++ vl ++ t).
  split; [now flatten|].
  rewrite (scan_string_complete k b Hb).
  2:{ rewrite length_app. cbn [List.length]. lia. }
  rewrite skip_ws_then by (auto; reflexivity). cbn [N.eqb Pos.eqb].
  rewrite (skip_ws_lexeme v vl w2 t Hvl Hw2).
  now rewrite (Hv vl f t Hvl Hf Ht).
Qed.

Lemma members_complete m :
  Forall (fun kv => reads (snd kv)) m ->
  forall body fuel r,
    sequence (fun kv => pair_lexeme (fun x => lexeme x) kv) 125%N m body ->
    (members_size m <= fuel)%nat ->
    parse_members fuel (body ++ r)
    = Some (List.map (fun kv => (fst kv, normalise (snd kv))) m, r).
Proof.
  induction 1 as [|[k v] m Hv Hm IH]; intros body fuel r Hs Hf;
    [contradiction|].
  cbn [members_size fold_right snd] in Hf. fold (members_size m) in Hf.
  cbn [snd] in Hv. destruct fuel as [|f]; [lia|].
  destruct m as [|kv' m'].
  - destruct Hs as (lex & w & -> & Hlex & Hw).
    destruct (pair_complete f k v lex (w ++ 125%N :: r) Hv Hlex)
      as (r0 & E & Hp); [lia|apply follow_then; auto|].
    replace ((lex ++ w ++ [125%N]) ++ r) with (34%N :: r0)
      by (rewrite <- E; now flatten).
    rewrite parse_members_eq.
    destruct (scan_string (List.length r0) r0) as [[k' r1]|]; [|discriminate].
    destruct (skip_ws r1) as [|c r2]; [discriminate|].
    destruct (c =? 58)%N; [|discriminate].
    destruct (parse_value f (skip_ws r2)) as [[v' r3]|]; [|discriminate].
    injection Hp as -> -> ->.
    rewrite skip_ws_then by (auto; reflexivity). reflexivity.
  - destruct Hs as (lex & w1 & w2 & body' & -> & Hlex & Hw1 & Hw2 & Hs').
    destruct (pair_complete f k v lex (w1 ++ 44%N :: w2 ++ body' ++ r)
                Hv Hlex) as (r0 & E & Hp); [lia|apply follow_then; auto|].
    replace ((lex ++ w1 ++ 44%N :: w2 ++ body') ++ r) with (34%N :: r0)
      by (rewrite <- E; now flatten).
    rewrite parse_members_eq.
    destruct (scan_string (List.length r0) r0) as [[k' r1]|]; [|discriminate].
    destruct (skip_ws r1) as [|c r2]; [discriminate|].
    destruct (c =? 58)%N; [|discriminate].
    destruct (parse_value f (skip_ws r2)) as [[v' r3]|]; [|discriminate].
    injection Hp as -> -> ->.
    rewrite skip_ws_then by (auto; reflexivity). cbn [N.eqb Pos.eqb].
    destruct (sequence_head _ _ _ _ _ pair_head Hs') as (c' & u & Eb & Hc).
    rewrite (skip_ws_ws w2 _ Hw2).
    rewrite Eb at 1. cbn [app]. rewrite (skip_ws_opens_head c' _ Hc).
    change (c' :: u ++ r) with ((c' :: u) ++ r). rewrite <- Eb.
    rewrite (IH body' f r Hs'); [reflexivity|].
    cbn [members_size fold_right] in *. lia.
Qed.

Lemma reads_scalar v : scalar v -> reads v.
Proof.
  intros Hs lex fuel r Hl Hf Hr.
  assert (Hn : normalise v = v) by (destruct v; try contradiction; reflexivity).
  assert (H1 : (1 <= size v)%nat) by (destruct v; cbn; lia).
  destruct fuel as [|f]; [lia|].
  destruct (scan_constant_complete v lex r Hs Hl Hr) as (Hc & c & u & -> & Ho).
  destruct Ho as (_ & H34 & H91 & H123 & _).
  cbn [app] in *. rewrite parse_value_eq.
  apply N.eqb_neq in H34, H91, H123. rewrite H34, H91, H123.
  now rewrite Hn.
Qed.

Theorem parse_value_complete v : reads v.
Proof.
  induction v as [|b|z|x|k|l IH|m IH] using json_ind'.
  - now apply reads_scalar.
  - now apply reads_scalar.
  - now apply reads_scalar.
  - now apply reads_scalar.
  - intros lex fuel r (b & -> & Hb) Hf Hr.
    destruct fuel as [|f]; [cbn in Hf; lia|].
    cbn [app]. rewrite parse_value_eq. cbn [N.eqb Pos.eqb].
    rewrite <- List.app_assoc. cbn [app].
    rewrite (scan_string_complete k b Hb); [reflexivity|].
    rewrite length_app. cbn [List.length]. lia.
  - intros lex fuel r (w & body & -> & Hw & Hbody) Hf Hr.
    destruct fuel as [|f]; [cbn in Hf; lia|].
    cbn [app]. rewrite parse_value_eq. cbn [N.eqb Pos.eqb].
    rewrite <- List.app_assoc. destruct l as [|x l].
    + subst body. change ([93%N] ++ r) with (93%N :: r).
      rewrite skip_ws_then by (auto; reflexivity). reflexivity.
    + destruct (sequence_head _ _ _ _ _ lexeme_head Hbody)
        as (c & u & Eb & Hc).
      rewrite (skip_ws_ws w _ Hw). rewrite Eb at 1. cbn [app].
      rewrite (skip_ws_opens_head c _ Hc).
      destruct Hc as (_ & H93 & _). apply N.eqb_neq in H93. rewrite H93.
      change (c :: u ++ r) with ((c :: u) ++ r). rewrite <- Eb.
      rewrite (elements_complete (x :: l) IH body f r Hbody); [reflexivity|].
      cbn [size] in Hf. unfold items_size. lia.
  - intros lex fuel r (w & body & -> & Hw & Hbody) Hf Hr.
    destruct fuel as [|f]; [cbn in Hf; lia|].
    cbn [app]. rewrite parse_value_eq. cbn [N.eqb Pos.eqb].
    rewrite <- List.app_assoc. destruct m as [|kv m].
    + subst body. change ([125%N] ++ r) with (125%N :: r).
      rewrite skip_ws_then by (auto; reflexivity). reflexivity.
    + destruct (sequence_head _ _ _ _ _ pair_head Hbody)
        as (c & u & Eb & Hc).
      rewrite (skip_ws_ws w _ Hw). rewrite Eb at 1. cbn [app].
      rewrite (skip_ws_opens_head c _ Hc).
      destruct Hc as (_ & _ & H125). apply N.eqb_neq in H125. rewrite H125.
      change (c :: u ++ r) with ((c :: u) ++ r). rewrite <- Eb.
      rewrite (members_complete (kv :: m) IH body f r Hbody); [reflexivity|].
      cbn [size] in Hf. unfold members_size. lia.
Qed.

Lemma sequence_size (A : Type) (item : A -> text -> Prop) (sz : A -> nat)
    close l :
  Forall (fun x => forall lex, item x lex -> (sz x <= List.length lex)%nat) l ->
  forall body,
    sequence item close l body ->
    (fold_right (fun x n => S (sz x + n)) O l <= List.length body)%nat.
Proof.
  induction 1 as [|x l Hx Hl IH]; intros body Hs; [contradiction|].
  cbn [fold_right]. destruct l as [|y l'].
  - destruct Hs as (lex & w & -> & Hlex & _). specialize (Hx lex Hlex).
    rewrite !length_app. cbn [fold_right List.length]. lia.
  - destruct Hs as (lex & w1 & w2 & body' & -> & Hlex & _ & _ & Hs').
    specialize (Hx lex Hlex). specialize (IH body' Hs').
    rewrite !length_app. cbn [List.length]. rewrite length_app. lia.
Qed.

Lemma size_le_lexeme v :
  forall lex, lexeme v lex -> (size v <= List.length lex)%nat.
Proof.
  induction v as [|b|z|x|k|l IH|m IH] using json_ind'; intros lex Hl;
    try (destruct (lexeme_head _ lex Hl) as (c & u & -> & _);
         cbn [size List.length]; lia).
  - destruct Hl as (w & body & -> & _ & Hbody). cbn [size List.length].
    rewrite length_app. destruct l as [|x l].
    + subst body. cbn. lia.
    + pose proof (sequence_size json (fun x => lexeme x) size 93%N (x :: l) IH
                    body Hbody). lia.
  - destruct Hl as (w & body & -> & _ & Hbody). cbn [size List.length].
    rewrite length_app. destruct m as [|kv m].
    + subst body. cbn. lia.
    + assert (H : Forall (fun kv => forall lex,
                    pair_lexeme (fun x => lexeme x) kv lex ->
                    (size (snd kv) <= List.length lex)%nat) (kv :: m)).
      { rewrite Forall_forall in *. intros kv' Hin lex
          (kl & w1 & w2 & vl & -> & _ & _ & _ & Hvl).
        specialize (IH kv' Hin vl Hvl). rewrite !length_app.
        cbn [List.length]. rewrite length_app. lia. }
      pose proof (sequence_size _ _ (fun kv => size (snd kv)) 125%N (kv :: m) H
                    body Hbody). lia.
Qed.

Lemma skip_ws_all w : ws_text w = true -> skip_ws w = [].
Proof.
  intros H. pose proof (skip_ws_ws w [] H) as E.
  now rewrite List.app_nil_r in E.
Qed.

Lemma follow_ws w : ws_text w = true -> follow w.
Proof.
  destruct w as [|c w]; intros H; [exact I|].
  unfold ws_text in H. cbn [forallb] in H. apply andb_prop in H.
  cbn [follow]. left. tauto.
Qed.

Theorem json_loads_complete s v : document s v -> json_loads s = Some v.
Proof.
  intros (raw & w1 & lex & w2 & -> & Hw1 & Hw2 & Hl & ->).
  unfold json_loads. rewrite (skip_ws_lexeme raw lex w1 w2 Hl Hw1).
  rewrite (parse_value_complete raw lex _ w2 Hl).
  - now rewrite (skip_ws_all w2 Hw2).
  - pose proof (size_le_lexeme raw lex Hl). rewrite !length_app. lia.
  - now apply follow_ws.
Qed.

Lemma skip_ws_inv s t :
  skip_ws s = t -> exists w, s = w ++ t /\ ws_text w = true.
Proof. intros <-. apply skip_ws_split. Qed.

Lemma scalar_normalise v : scalar v -> normalise v = v.
Proof. destruct v; try contradiction; reflexivity. Qed.

Lemma elements_sound_step f :
  value_sound f -> elements_sound f -> elements_sound (S f).
Proof.
  intros HV HE s l r H. rewrite parse_elements_eq in H.
  destruct (parse_value f s) as [[v r1]|] eqn:Ev; [|discriminate].
  destruct (HV _ _ _ Ev) as (raw & lex & -> & Hlex & ->).
  destruct (skip_ws r1) as [|c r2] eqn:Es; [discriminate|].
  destruct (skip_ws_inv _ _ Es) as (w & -> & Hw).
  destruct (N.eqb_spec c 93) as [->|H93].
  - injection H as <- <-. exists [raw], (lex ++ w ++ [93%N]).
    split; [now flatten|]. split; [|reflexivity].
    cbn [sequence]. now exists lex, w.
  - destruct (N.eqb_spec c 44) as [->|H44]; [|discriminate].
    destruct (parse_elements f (skip_ws r2)) as [[l' r']|] eqn:El;
      [|discriminate].
    injection H as <- <-.
    destruct (HE _ _ _ El) as (raws & body & Eb & Hs & ->).
    destruct (skip_ws_inv _ _ Eb) as (w2 & -> & Hw2).
    exists (raw :: raws), (lex ++ w ++ 44%N :: w2 ++ body).
    split; [now flatten|]. split; [|reflexivity].
    destruct raws as [|y raws']; [contradiction|].
    cbn [sequence]. now exists lex, w, w2, body.
Qed.

Lemma members_sound_step f :
  value_sound f -> members_sound f -> members_sound (S f).
Proof.
  intros HV HM s m r H.
  destruct s as [|q r0]; [discriminate|].
  destruct (N.eqb_spec q 34) as [->|Hq].
  2:{ cbn [parse_members] in H. apply N.eqb_neq in Hq. rewrite Hq in H.
      discriminate. }
  rewrite parse_members_eq in H.
  destruct (scan_string (List.length r0) r0) as [[k r1]|] eqn:Ek;
    [|discriminate].
  destruct (scan_string_sound _ _ _ _ Ek) as (b & -> & Hb).
  destruct (skip_ws r1) as [|c r2] eqn:Es1; [discriminate|].
  destruct (skip_ws_inv _ _ Es1) as (w1 & -> & Hw1).
  destruct (N.eqb_spec c 58) as [->|H58]; [|discriminate].
  destruct (parse_value f (skip_ws r2)) as [[v r3]|] eqn:Ev; [|discriminate].
  destruct (HV _ _ _ Ev) as (raw & vl & Evl & Hvl & ->).
  destruct (skip_ws_inv _ _ Evl) as (w2 & -> & Hw2).
  destruct (skip_ws r3) as [|c' r4] eqn:Es3; [discriminate|].
  destruct (skip_ws_inv _ _ Es3) as (w3 & -> & Hw3).
  assert (Hp : pair_lexeme (fun x => lexeme x) (k, raw)
                 ((34%N :: b ++ [34%N]) ++ w1 ++ 58%N :: w2 ++ vl)).
  { exists (34%N :: b ++ [34%N]), w1, w2, vl. repeat split; try assumption.
    now exists b. }
  destruct (N.eqb_spec c' 125) as [->|H125].
  - injection H as <- <-.
    exists [(k, raw)],
      (((34%N :: b ++ [34%N]) ++ w1 ++ 58%N :: w2 ++ vl) ++ w3 ++ [125%N]).
    split; [now flatten|]. split; [|reflexivity].
    cbn [sequence]. eexists _, w3. split; [reflexivity|]. now split.
  - destruct (N.eqb_spec c' 44) as [->|H44]; [|discriminate].
    destruct (parse_members f (skip_ws r4)) as [[m' r']|] eqn:Em;
      [|discriminate].
    injection H as <- <-.
    destruct (HM _ _ _ Em) as (raws & body & Eb & Hs & ->).
    destruct (skip_ws_inv _ _ Eb) as (w4 & -> & Hw4).
    exists ((k, raw) :: raws),
      (((34%N :: b ++ [34%N]) ++ w1 ++ 58%N :: w2 ++ vl)
       ++ w3 ++ 44%N :: w4 ++ body).
    split; [now flatten|]. split; [|reflexivity].
    destruct raws as [|y raws']; [contradiction|].
    cbn [sequence]. eexists _, w3, w4, body. split; [reflexivity|].
    now repeat split.
Qed.

Lemma value_sound_step f :
  elements_sound f -> members_sound f -> value_sound (S f).
Proof.
  intros HE HM s v r H.
  destruct s as [|c r0]; [discriminate|]. rewrite parse_value_eq in H.
  destruct (N.eqb_spec c 34) as [->|H34].
  { destruct (scan_string (List.length r0) r0) as [[k r1]|] eqn:Ek;
      [|discriminate].
    injection H as <- <-.
    destruct (scan_string_sound _ _ _ _ Ek) as (b & -> & Hb).
    exists (JStr k), (34%N :: b ++ [34%N]). split; [now flatten|].
    split; [now exists b|reflexivity]. }
  destruct (N.eqb_spec c 123) as [->|H123].
  { destruct (skip_ws r0) as [|c1 r1] eqn:Es; [discriminate|].
    destruct (skip_ws_inv _ _ Es) as (w & -> & Hw).
    destruct (N.eqb_spec c1 125) as [->|H125].
    - injection H as <- <-. exists (JDict []), (123%N :: w ++ [125%N]).
      split; [now flatten|]. split; [|reflexivity]. now exists w, [125%N].
    - destruct (parse_members f (c1 :: r1)) as [[m r2]|] eqn:Em;
        [|discriminate].
      injection H as <- <-.
      destruct (HM _ _ _ Em) as (raws & body & Eb & Hs & ->).
      exists (JDict raws), (123%N :: w ++ body).
      split; [rewrite Eb; now flatten|]. split; [|reflexivity].
      exists w, body. split; [reflexivity|]. split; [exact Hw|].
      destruct raws; [contradiction|exact Hs]. }
  destruct (N.eqb_spec c 91) as [->|H91].
  { destruct (skip_ws r0) as [|c1 r1] eqn:Es; [discriminate|].
    destruct (skip_ws_inv _ _ Es) as (w & -> & Hw).
    destruct (N.eqb_spec c1 93) as [->|H93].
    - injection H as <- <-. exists (JList []), (91%N :: w ++ [93%N]).
      split; [now flatten|]. split; [|reflexivity]. now exists w, [93%N].
    - destruct (parse_elements f (c1 :: r1)) as [[l r2]|] eqn:El;
        [|discriminate].
      injection H as <- <-.
      destruct (HE _ _ _ El) as (raws & body & Eb & Hs & ->).
      exists (JList raws), (91%N :: w ++ body).
      split; [rewrite Eb; now flatten|]. split; [|reflexivity].
      exists w, body. split; [reflexivity|]. split; [exact Hw|].
      destruct raws; [contradiction|exact Hs]. }
  destruct (scan_constant_sound _ _ _ H) as (lex & E & Hl & Hs).
  exists v, lex. split; [exact E|]. split; [exact Hl|].
  symmetry. now apply scalar_normalise.
Qed.

Theorem parse_sound fuel :
  value_sound fuel /\ elements_sound fuel /\ members_sound fuel.
Proof.
  induction fuel as [|f (HV & HE & HM)].
  - repeat split; intros s x r H; discriminate.
  - split; [now apply value_sound_step|].
    split; [now apply elements_sound_step|now apply members_sound_step].
Qed.

Theorem json_loads_sound s v : json_loads s = Some v -> document s v.
Proof.
  unfold json_loads. intros H.
  destruct (parse_value (2 * List.length s + 2) (skip_ws s)) as [[v' r]|] eqn:E;
    [|discriminate].
  destruct (skip_ws r) as [|c t] eqn:Er; [|discriminate].
  injection H as ->.
  destruct (proj1 (parse_sound _) _ _ _ E) as (raw & lex & El & Hl & ->).
  destruct (skip_ws_inv _ _ El) as (w1 & -> & Hw1).
  destruct (skip_ws_inv _ _ Er) as (w2 & Ew & Hw2).
  rewrite List.app_nil_r in Ew. subst r.
  now exists raw, w1, lex, w2.
Qed.

(** [json.loads] accepts the documents and nothing else. *)
Theorem json_loads_document s v : json_loads s = Some v <-> document s v.
Proof. split; [apply json_loads_sound|apply json_loads_complete]. Qed.

(** * Properties of dictionaries *)

Lemma text_eqb_refl k : text_eqb k k = true.
Proof. unfold text_eqb. now destruct (text_eq_dec k k). Qed.

Lemma text_eqb_eq a b : text_eqb a b = true <-> a = b.
Proof. unfold text_eqb. destruct (text_eq_dec a b); split; congruence. Qed.

Lemma text_eqb_neq a b : text_eqb a b = false <-> a <> b.
Proof. unfold text_eqb. destruct (text_eq_dec a b); split; congruence. Qed.

Lemma dict_get_set_same d k v : dict_get (dict_set d k v) k = Some v.
Proof.
  induction d as [|[k' v'] d IH]; simpl.
  - now destruct (text_eq_dec k k).
  - destruct (text_eq_dec k k') as [->|Hne]; simpl.
    + now destruct (text_eq_dec k' k').
    + now destruct (text_eq_dec k k').
Qed.

Lemma dict_get_set_other d k v k' :
  k' <> k -> dict_get (dict_set d k v) k' = dict_get d k'.
Proof.
  intros Hne. induction d as [|[k0 v0] d IH]; simpl.
  - now destruct (text_eq_dec k' k).
  - destruct (text_eq_dec k k0) as [->|Hk]; simpl.
    + now destruct (text_eq_dec k' k0).
    + destruct (text_eq_dec k' k0); [reflexivity|exact IH].
Qed.

Lemma dict_get_in d k : dict_get d k <> None <-> In k (List.map fst d).
Proof.
  induction d as [|[k' v'] d IH]; simpl; [tauto|].
  destruct (text_eq_dec k k') as [->|Hne].
  - split; [auto|discriminate].
  - rewrite IH. split; [auto|]. intros [H|H]; [congruence|exact H].
Qed.

(** Storing under a key that is there keeps the keys and their order. *)
Lemma dict_set_keys_present d k v :
  In k (List.map fst d) -> List.map fst (dict_set d k v) = List.map fst d.
Proof.
  induction d as [|[k' v'] d IH]; simpl; [tauto|].
  intros Hin. destruct (text_eq_dec k k') as [->|Hne]; [reflexivity|].
  simpl. f_equal. apply IH. destruct Hin; [congruence|assumption].
Qed.

Lemma dict_set_keys_absent d k v :
  ~ In k (List.map fst d) ->
  List.map fst (dict_set d k v) = List.map fst d ++ [k].
Proof.
  intros H. rewrite dict_set_fresh by assumption. now rewrite map_app.
Qed.

Lemma distinct_app_fresh l k :
  distinct l = true -> ~ In k l -> distinct (l ++ [k]) = true.
Proof.
  induction l as [|a l IH]; simpl; intros Hd Hk; [reflexivity|].
  apply andb_prop in Hd. destruct Hd as [Ha Hd].
  rewrite IH by tauto. rewrite andb_true_r.
  apply negb_true_iff. apply negb_true_iff in Ha.
  rewrite existsb_app, Ha. simpl. rewrite orb_false_r.
  apply text_eqb_neq. intros ->. tauto.
Qed.

Lemma forallb_dict_set (P : text * json -> bool) d k v :
  forallb P d = true -> (forall k', P (k', v) = P (k, v)) -> P (k, v) = true ->
  forallb P (dict_set d k v) = true.
Proof.
  intros Hd Hk Hv. induction d as [|[k' v'] d IH]; simpl in *.
  - now rewrite Hv.
  - apply andb_prop in Hd. destruct Hd as [H1 H2].
    destruct (text_eq_dec k k') as [->|Hne]; simpl.
    + now rewrite Hv, H2.
    + now rewrite H1, IH.
Qed.

Lemma valid_json_dict_set d k v :
  valid_json (JDict d) = true -> valid_text k = true -> valid_json v = true ->
  valid_json (JDict (dict_set d k v)) = true.
Proof.
  simpl. intros Hd Hk Hv. apply andb_prop in Hd. destruct Hd as [Hm Hn].
  apply andb_true_intro. split.
  - clear Hn. induction d as [|[k' v'] d IH]; simpl in *.
    + now rewrite Hk, Hv.
    + apply andb_prop in Hm. destruct Hm as [H1 H2].
      destruct (text_eq_dec k k') as [->|Hne]; simpl.
      * now rewrite Hk, Hv, H2.
      * now rewrite H1, IH.
  - destruct (in_dec text_eq_dec k (List.map fst d)) as [Hin|Hout].
    + now rewrite dict_set_keys_present.
    + rewrite dict_set_keys_absent by assumption.
      now apply distinct_app_fresh.
Qed.

Lemma valid_json_dict_get d k v :
  valid_json (JDict d) = true -> dict_get d k = Some v -> valid_json v = true.
Proof.
  simpl. intros Hd. apply andb_prop in Hd. destruct Hd as [Hm _].
  induction d as [|[k' v'] d IH]; simpl in *; [discriminate|].
  apply andb_prop in Hm. destruct Hm as [H1 H2].
  apply andb_prop in H1. destruct H1 as [_ H1].
  destruct (text_eq_dec k k'); [congruence|auto].
Qed.

(** * Properties of the store and of the handlers *)

Lemma load_save v fs :
  valid_json v = true -> load_patients (save_patients v fs) = Return v.
Proof.
  intros Hv. unfold load_patients, save_patients. simpl.
  now rewrite json_loads_dumps.
Qed.

Lemma reading_valid s d p r : valid_json (reading s d p r) = true.
Proof. destruct r; reflexivity. Qed.

Lemma doctor_not_vitals : T "doctor" <> T "vitals".
Proof. intro H. vm_compute in H. discriminate. Qed.

Lemma is_high_reading s d p r : is_high (reading s d p r) = is_HIGH r.
Proof. destruct r; reflexivity. Qed.

Section Handlers.

Variable py_repr : json -> text.

Lemma record_vitals_present fs ps name f vs doc s d p :
  load_patients fs = Return (JDict ps) ->
  dict_get ps name = Some (JDict f) ->
  dict_get f (T "vitals") = Some (JList vs) ->
  dict_get f (T "doctor") = Some doc ->
  record_vitals py_repr name s d p fs =
  Return (JDict (posted ps name f vs (reading s d p (assess_risk s d p))),
          if is_HIGH (assess_risk s d p)
          then Some (alert_message py_repr name doc) else None).
Proof.
  intros Hl Hn Hv Hd. unfold record_vitals. rewrite Hl. simpl.
  rewrite Hn. simpl. rewrite Hv. simpl.
  destruct (assess_risk s d p); simpl; try reflexivity.
  rewrite dict_get_set_other by exact doctor_not_vitals.
  rewrite Hd. reflexivity.
Qed.

Lemma record_vitals_absent fs ps name s d p :
  load_patients fs = Return (JDict ps) ->
  dict_get ps name = None ->
  record_vitals py_repr name s d p fs = Raise (KeyError (T "vitals")).
Proof.
  intros Hl Hn. unfold record_vitals. rewrite Hl. simpl. rewrite Hn.
  reflexivity.
Qed.

Lemma patient_ok_inv p :
  patient_ok p = true ->
  exists f vs doc, p = JDict f /\ dict_get f (T "vitals") = Some (JList vs)
                   /\ dict_get f (T "doctor") = Some doc.
Proof.
  destruct p as [| | | | | |f]; try discriminate. simpl.
  destruct (dict_get f (T "vitals")) as [[| | | | |vs|]|] eqn:Ev;
    try discriminate.
  destruct (dict_get f (T "doctor")) as [doc|] eqn:Ed; try discriminate.
  intros _. now exists f, vs, doc.
Qed.

Lemma store_ok_get ps name p :
  store_ok ps = true -> dict_get ps name = Some p ->
  patient_ok p = true /\ valid_json p = true.
Proof.
  unfold store_ok. intros H Hg. apply andb_prop in H. destruct H as [Hv Hp].
  split; [|now apply (valid_json_dict_get ps name)].
  clear Hv. induction ps as [|[k v] ps IH]; simpl in *; [discriminate|].
  apply andb_prop in Hp. destruct Hp as [H1 H2].
  destruct (text_eq_dec name k); [congruence|auto].
Qed.

Lemma vitals_valid : valid_text (T "vitals") = true.
Proof. reflexivity. Qed.

(** Posting to a valid mapping leaves a valid mapping. *)
Lemma store_ok_posted ps name f vs doc s d p r :
  store_ok ps = true -> valid_text name = true ->
  dict_get ps name = Some (JDict f) ->
  dict_get f (T "vitals") = Some (JList vs) ->
  dict_get f (T "doctor") = Some doc ->
  r = reading s d p (assess_risk s d p) ->
  store_ok (posted ps name f vs r) = true.
Proof.
  intros Hok Hname Hn Hv Hd ->. unfold store_ok in *.
  apply andb_prop in Hok. destruct Hok as [Hval Hpat].
  pose proof (valid_json_dict_get ps name _ Hval Hn) as Hf.
  pose proof (valid_json_dict_get f (T "vitals") _ Hf Hv) as Hvs.
  assert (Hnew : valid_json (JDict (dict_set f (T "vitals")
            (JList (vs ++ [reading s d p (assess_risk s d p)])))) = true).
  { apply valid_json_dict_set; [assumption|reflexivity|].
    change (forallb valid_json (vs ++ [reading s d p (assess_risk s d p)])
            = true).
    rewrite forallb_app.
    change (forallb valid_json vs) with (valid_json (JList vs)). rewrite Hvs.
    cbn [forallb andb]. now rewrite reading_valid. }
  apply andb_true_intro. split.
  - unfold posted. now apply valid_json_dict_set.
  - unfold posted. apply forallb_dict_set; [assumption|reflexivity|].
    simpl. rewrite dict_get_set_same.
    rewrite dict_get_set_other by exact doctor_not_vitals. now rewrite Hd.
Qed.

End Handlers.

Section Handlers2.

Variable py_repr : json -> text.

(** What a successful posting leaves in the two files. *)
Lemma patient_details_present fs ps name f vs doc s d p now :
  load_patients fs = Return (JDict ps) ->
  dict_get ps name = Some (JDict f) ->
  dict_get f (T "vitals") = Some (JList vs) ->
  dict_get f (T "doctor") = Some doc ->
  patient_details py_repr name s d p now fs =
  (Return tt,
   save_patients
     (JDict (posted ps name f vs (reading s d p (assess_risk s d p))))
     (if is_HIGH (assess_risk s d p)
      then log_alert now (alert_message py_repr name doc) fs else fs)).
Proof.
  intros Hl Hn Hv Hd. unfold patient_details.
  rewrite (record_vitals_present py_repr fs ps name f vs doc s d p Hl Hn Hv Hd).
  now destruct (assess_risk s d p).
Qed.

Lemma patient_details_absent fs ps name s d p now :
  load_patients fs = Return (JDict ps) ->
  dict_get ps name = None ->
  patient_details py_repr name s d p now fs = (Raise (KeyError (T "vitals")), fs).
Proof.
  intros Hl Hn. unfold patient_details.
  now rewrite (record_vitals_absent py_repr fs ps name s d p Hl Hn).
Qed.

Lemma vitals_of_posted f vs r :
  vitals_of (JDict (dict_set f (T "vitals") (JList (vs ++ [r])))) = vs ++ [r].
Proof. unfold vitals_of. now rewrite dict_get_set_same. Qed.

Lemma vitals_of_get f vs :
  dict_get f (T "vitals") = Some (JList vs) -> vitals_of (JDict f) = vs.
Proof. intros H. unfold vitals_of. now rewrite H. Qed.

Lemma doctor_of_posted f vs :
  doctor_of (JDict (dict_set f (T "vitals") (JList vs))) = doctor_of (JDict f).
Proof.
  unfold doctor_of. now rewrite dict_get_set_other by exact doctor_not_vitals.
Qed.

(** The state after a posting to a valid mapping, in full. *)
Lemma post_step fs ps name patient s d p now :
  load_patients fs = Return (JDict ps) ->
  store_ok ps = true ->
  valid_text name = true ->
  dict_get ps name = Some patient ->
  exists f vs,
    patient = JDict f /\ dict_get f (T "vitals") = Some (JList vs) /\
    let r := reading s d p (assess_risk s d p) in
    let ps' := posted ps name f vs r in
    let fs' := snd (patient_details py_repr name s d p now fs) in
    fst (patient_details py_repr name s d p now fs) = Return tt /\
    load_patients fs' = Return (JDict ps') /\
    store_ok ps' = true /\
    alerts_file fs' =
      (if is_HIGH (assess_risk s d p)
       then Some (match alerts_file fs with Some a => a | None => [] end
                  ++ alert_line py_repr now name (doctor_of patient))
       else alerts_file fs).
Proof.
  intros Hl Hok Hname Hn.
  destruct (store_ok_get ps name patient Hok Hn) as [Hp _].
  destruct (patient_ok_inv patient Hp) as (f & vs & doc & -> & Hv & Hd).
  exists f, vs. split; [reflexivity|]. split; [assumption|].
  cbv zeta.
  rewrite (patient_details_present fs ps name f vs doc s d p now Hl Hn Hv Hd).
  pose proof (store_ok_posted ps name f vs doc s d p _ Hok Hname Hn Hv Hd
                eq_refl) as Hok'.
  simpl fst. simpl snd.
  split; [reflexivity|]. split; [|split; [assumption|]].
  - apply load_save. unfold store_ok in Hok'.
    apply andb_prop in Hok'. tauto.
  - unfold doctor_of. rewrite Hd.
    destruct (assess_risk s d p); reflexivity.
Qed.

End Handlers2.

(** * The claims *)

(** C1. For every triple of integers, [assess_risk] returns HIGH iff
    [bp_sys > 160] or [bp_dia > 100] or [pulse > 120]; otherwise MEDIUM iff
    [bp_sys] is in [140,160] or [bp_dia] in [90,100] or [pulse] in [100,120];
    otherwise LOW.  In particular (160, 0, 0) is MEDIUM and (161, 0, 0) is
    HIGH. *)
Theorem C1_assess_risk_policy (bp_sys bp_dia pulse : Z) :
  let high := bp_sys > 160 \/ bp_dia > 100 \/ pulse > 120 in
  let medium := 140 <= bp_sys <= 160 \/ 90 <= bp_dia <= 100
                \/ 100 <= pulse <= 120 in
  (assess_risk bp_sys bp_dia pulse = HIGH <-> high) /\
  (assess_risk bp_sys bp_dia pulse = MEDIUM <-> ~ high /\ medium) /\
  (assess_risk bp_sys bp_dia pulse = LOW <-> ~ high /\ ~ medium) /\
  assess_risk 160 0 0 = MEDIUM /\
  assess_risk 161 0 0 = HIGH.
Proof.
  cbv zeta. unfold assess_risk.
  destruct (Z.gtb_spec bp_sys 160), (Z.gtb_spec bp_dia 100),
    (Z.gtb_spec pulse 120);
    destruct (Z.leb_spec 140 bp_sys), (Z.leb_spec bp_sys 160),
      (Z.leb_spec 90 bp_dia), (Z.leb_spec bp_dia 100),
      (Z.leb_spec 100 pulse), (Z.leb_spec pulse 120);
    cbn [orb andb];
    repeat split; intros; try discriminate; try reflexivity; try lia.
Qed.

(** C6. [load_patients] returns an empty mapping when the file does not
    exist.  When it exists, it returns [v] exactly when the text of the file is
    a document of [v]: one written JSON value with white space before and
    after it and nothing else, [v] being what Python builds from that value;
    and it raises [JSONDecodeError] exactly when the text is a document of no
    value. *)
Theorem C6_load_patients_documents (fs : files) :
  (patients_file fs = None -> load_patients fs = Return (JDict [])) /\
  (forall s v, patients_file fs = Some s ->
     (load_patients fs = Return v <-> document s v)) /\
  (forall s, patients_file fs = Some s ->
     (load_patients fs = Raise JSONDecodeError <-> ~ exists v, document s v)).
Proof.
  unfold load_patients. split; [now intros ->|]. split.
  - intros s v ->. rewrite <- json_loads_document.
    destruct (json_loads s) as [data|]; split; intros H; try discriminate.
    + now injection H as ->.
    + now injection H as ->.
  - intros s ->. split.
    + intros H (v & Hv). apply json_loads_document in Hv. rewrite Hv in H.
      discriminate.
    + intros H. destruct (json_loads s) as [data|] eqn:E; [|reflexivity].
      exfalso. apply H. exists data. now apply json_loads_document.
Qed.

Lemma C6_load_patients_documents_witness :
  load_patients (Files (Some (T " {} ")) None) = Return (JDict []) /\
  ~ (exists v, document (T "{} x") v) /\
  document compact_document (JDict [(T "a", JNull)]).
Proof.
  split; [|split].
  - apply (proj1 (proj2 (C6_load_patients_documents
                           (Files (Some (T " {} ")) None)))
             (T " {} ") (JDict []) eq_refl).
    exists (JDict []), (T " "), (T "{}"), (T " ").
    repeat split. now exists [], [125%N].
  - apply (proj2 (proj2 (C6_load_patients_documents
                           (Files (Some (T "{} x")) None)))
             (T "{} x") eq_refl).
    vm_compute. reflexivity.
  - apply (proj1 (proj1 (proj2 (C6_load_patients_documents
                                  (Files (Some compact_document) None)))
                    compact_document (JDict [(T "a", JNull)]) eq_refl)).
    vm_compute. reflexivity.
Defined.

(** C7. Saving a valid patient mapping and loading it back gives the same
    mapping, and saving what was loaded writes the same document again. *)
Theorem C7_save_load_round_trip (ps : pydict) (fs : files) :
  valid_json (JDict ps) = true ->
  load_patients (save_patients (JDict ps) fs) = Return (JDict ps) /\
  forall back,
    load_patients (save_patients (JDict ps) fs) = Return back ->
    patients_file (save_patients back (save_patients (JDict ps) fs))
    = patients_file (save_patients (JDict ps) fs).
Proof.
  intros Hv. pose proof (load_save (JDict ps) fs Hv) as H. split; [exact H|].
  intros back Hb. rewrite H in Hb. injection Hb as <-. reflexivity.
Qed.

Lemma alice_loaded : load_patients alice_files = Return (JDict alice).
Proof. vm_compute. reflexivity. Qed.

Lemma C7_save_load_round_trip_witness :
  load_patients (save_patients (JDict alice) no_files) = Return (JDict alice).
Proof.
  apply (C7_save_load_round_trip alice no_files). vm_compute. reflexivity.
Defined.

Lemma split_on_valid c s :
  valid_text s = true -> forallb valid_text (split_on c s) = true.
Proof.
  induction s as [|a s IH]; simpl; intros H; [reflexivity|].
  apply andb_prop in H. destruct H as [Ha Hs]. specialize (IH Hs).
  destruct (a =? c)%N; [exact IH|].
  destruct (split_on c s) as [|h t]; simpl in *.
  - now rewrite Ha.
  - apply andb_prop in IH. destruct IH as [Hh Ht]. now rewrite Ha, Hh, Ht.
Qed.

Lemma new_patient_valid doctor disease medicines tests :
  valid_text doctor = true -> valid_text disease = true ->
  valid_text medicines = true -> valid_text tests = true ->
  valid_json (new_patient doctor disease medicines tests) = true.
Proof.
  intros Hd Hs Hm Ht. unfold new_patient.
  assert (Hl : valid_json (JList (List.map JStr (split_on 44%N medicines)))
               = true).
  { pose proof (split_on_valid 44%N medicines Hm) as H.
    cbn [valid_json]. induction (split_on 44%N medicines) as [|a l IH];
      simpl in *; [reflexivity|].
    apply andb_prop in H. destruct H as [H1 H2]. now rewrite H1, IH. }
  cbn [valid_json forallb fst snd List.map].
  change (valid_json (JStr doctor)) with (valid_text doctor).
  change (valid_json (JStr disease)) with (valid_text disease).
  change (valid_json (JStr tests)) with (valid_text tests).
  rewrite Hd, Hs, Ht.
  change (forallb valid_json (List.map JStr (split_on 44%N medicines)))
    with (valid_json (JList (List.map JStr (split_on 44%N medicines)))).
  rewrite Hl. reflexivity.
Qed.

Section Claims.

Variable py_repr : json -> text.

(** C3, as amended.  For every name that is not in the stored mapping the
    lookup raises nothing: [patients.get(name, {})] gives the default empty
    record, which is what the page of the patient shows, and a posting of
    vitals goes on with that record, with the outcome it has for a patient
    stored with an empty record.  The source has no error for a missing
    patient. *)
Theorem C3_unknown_name_gets_empty_record
    (fs fs' : files) (ps ps' : pydict) (name : text) (s d p : Z) (now : text) :
  load_patients fs = Return (JDict ps) ->
  dict_get ps name = None ->
  load_patients fs' = Return (JDict ps') ->
  dict_get ps' name = Some (JDict []) ->
  patient_details_get name fs = Return (JDict []) /\
  patient_details_get name fs = patient_details_get name fs' /\
  fst (patient_details py_repr name s d p now fs)
  = fst (patient_details py_repr name s d p now fs').
Proof.
  intros Hl Hn Hl' Hn'.
  assert (Hg : patient_details_get name fs = Return (JDict [])).
  { unfold patient_details_get. rewrite Hl. cbn [bind py_get]. now rewrite Hn. }
  assert (Hg' : patient_details_get name fs' = Return (JDict [])).
  { unfold patient_details_get. rewrite Hl'. cbn [bind py_get].
    now rewrite Hn'. }
  split; [exact Hg|]. split; [now rewrite Hg, Hg'|].
  unfold patient_details, record_vitals.
  rewrite Hl, Hl'. cbn [bind py_get]. now rewrite Hn, Hn'.
Qed.

(** C8. Adding a patient whose name is already in the stored mapping raises
    nothing and replaces the whole record by the new one, whose vitals are
    empty; the other records and the alert log are as before. *)
Theorem C8_add_patient_overwrites
    (fs : files) (ps : pydict) (name doctor disease medicines tests : text)
    (old : json) :
  load_patients fs = Return (JDict ps) ->
  valid_json (JDict ps) = true ->
  valid_request (AddPatient name doctor disease medicines tests) = true ->
  dict_get ps name = Some old ->
  let fs' := snd (add_patient name doctor disease medicines tests fs) in
  let new := new_patient doctor disease medicines tests in
  fst (add_patient name doctor disease medicines tests fs) = Return tt /\
  load_patients fs' = Return (JDict (dict_set ps name new)) /\
  dict_get (dict_set ps name new) name = Some new /\
  vitals_of new = [] /\
  (forall other, other <> name ->
     dict_get (dict_set ps name new) other = dict_get ps other) /\
  List.map fst (dict_set ps name new) = List.map fst ps /\
  alerts_file fs' = alerts_file fs.
Proof.
  intros Hl Hv Hrq Hold. cbv zeta. simpl in Hrq.
  repeat (apply andb_prop in Hrq; destruct Hrq as [Hrq ?]).
  unfold add_patient. rewrite Hl. simpl.
  repeat split.
  - apply load_save. apply valid_json_dict_set; try assumption.
    now apply new_patient_valid.
  - apply dict_get_set_same.
  - intros other Hne. now apply dict_get_set_other.
  - apply dict_set_keys_present. apply dict_get_in. congruence.
Qed.

(** C5. For a patient in the store, after a posting the vitals the patient
    had are a prefix of the new vitals, which hold exactly one reading more,
    the new one at the end. *)
Theorem C5_vitals_append_only
    (fs : files) (ps : pydict) (name : text) (patient : json) (s d p : Z)
    (now : text) :
  load_patients fs = Return (JDict ps) ->
  store_ok ps = true ->
  valid_text name = true ->
  dict_get ps name = Some patient ->
  let fs' := snd (patient_details py_repr name s d p now fs) in
  fst (patient_details py_repr name s d p now fs) = Return tt /\
  exists ps' patient',
    load_patients fs' = Return (JDict ps') /\
    dict_get ps' name = Some patient' /\
    vitals_of patient' =
      vitals_of patient ++ [reading s d p (assess_risk s d p)].
Proof.
  intros Hl Hok Hname Hn. cbv zeta.
  destruct (post_step py_repr fs ps name patient s d p now Hl Hok Hname Hn)
    as (f & vs & -> & Hv & Hr & Hl' & _).
  split; [exact Hr|].
  eexists _, _. split; [exact Hl'|]. split.
  - unfold posted. apply dict_get_set_same.
  - rewrite vitals_of_posted. now rewrite (vitals_of_get f vs Hv).
Qed.

(** C10. A posting for a patient in the store changes the vitals of that
    patient and nothing else in the saved document: the other fields of the
    record, every other record, and the names and their order are as
    before. *)
Theorem C10_posting_frame
    (fs : files) (ps : pydict) (name : text) (patient : json) (s d p : Z)
    (now : text) :
  load_patients fs = Return (JDict ps) ->
  store_ok ps = true ->
  valid_text name = true ->
  dict_get ps name = Some patient ->
  let fs' := snd (patient_details py_repr name s d p now fs) in
  exists ps' f f',
    load_patients fs' = Return (JDict ps') /\
    patient = JDict f /\ dict_get ps' name = Some (JDict f') /\
    (forall field, field <> T "vitals" -> dict_get f' field = dict_get f field) /\
    List.map fst f' = List.map fst f /\
    (forall other, other <> name -> dict_get ps' other = dict_get ps other) /\
    List.map fst ps' = List.map fst ps.
Proof.
  intros Hl Hok Hname Hn. cbv zeta.
  destruct (post_step py_repr fs ps name patient s d p now Hl Hok Hname Hn)
    as (f & vs & -> & Hv & Hr & Hl' & _).
  eexists _, f, _. split; [exact Hl'|]. split; [reflexivity|].
  split; [unfold posted; apply dict_get_set_same|].
  split; [intros field Hne; now apply dict_get_set_other|].
  split; [apply dict_set_keys_present; apply dict_get_in; congruence|].
  split; [intros other Hne; unfold posted; now apply dict_get_set_other|].
  unfold posted. apply dict_set_keys_present. apply dict_get_in. congruence.
Qed.

End Claims.

(** Bob is not in the store, and looking Bob up raises nothing: the lookup
    returns the default empty record.  The posting that follows stops on that
    record, with the [KeyError] Python raises for its missing key 'vitals'. *)
Lemma C3_lookup_counterexample :
  load_patients alice_files = Return (JDict alice) /\
  dict_get alice (T "Bob") = None /\
  patient_details_get (T "Bob") alice_files = Return (JDict []) /\
  ~ (exists e, patient_details_get (T "Bob") alice_files = Raise e) /\
  fst (patient_details no_repr (T "Bob") 170 95 80
         (T "2024-01-01 10:00:00.000000") alice_files)
  = Raise (KeyError (T "vitals")).
Proof.
  split; [vm_compute; reflexivity|]. split; [reflexivity|].
  split; [vm_compute; reflexivity|]. split; [|vm_compute; reflexivity].
  intros (e & He). vm_compute in He. discriminate.
Qed.

Lemma C3_unknown_name_gets_empty_record_witness :
  patient_details_get (T "Bob") alice_files = Return (JDict []) /\
  patient_details_get (T "Bob") alice_files
  = patient_details_get (T "Bob")
      (save_patients (JDict (alice ++ [(T "Bob", JDict [])])) no_files) /\
  fst (patient_details no_repr (T "Bob") 170 95 80 (T "now") alice_files)
  = fst (patient_details no_repr (T "Bob") 170 95 80 (T "now")
           (save_patients (JDict (alice ++ [(T "Bob", JDict [])])) no_files)).
Proof.
  apply (C3_unknown_name_gets_empty_record no_repr alice_files
           (save_patients (JDict (alice ++ [(T "Bob", JDict [])])) no_files)
           alice (alice ++ [(T "Bob", JDict [])]));
    vm_compute; reflexivity.
Defined.

Lemma C8_add_patient_overwrites_witness :
  let new := new_patient (T "Dr. Jones") (T "cold") (T "c") (T "x-ray") in
  let fs' := snd (add_patient (T "Alice") (T "Dr. Jones") (T "cold") (T "c")
                    (T "x-ray") alice_files) in
  load_patients fs' = Return (JDict (dict_set alice (T "Alice") new)) /\
  vitals_of new = [].
Proof.
  pose proof (C8_add_patient_overwrites alice_files alice (T "Alice")
                (T "Dr. Jones") (T "cold") (T "c") (T "x-ray")
                (new_patient (T "Dr. Smith") (T "flu") (T "a,b") (T "none")))
    as H.
  cbv zeta in H |- *.
  destruct H as (_ & Hl & _ & Hv & _).
  - vm_compute. reflexivity.
  - vm_compute. reflexivity.
  - vm_compute. reflexivity.
  - vm_compute. reflexivity.
  - split; [exact Hl | exact Hv].
Defined.

Lemma C5_vitals_append_only_witness :
  fst (patient_details no_repr (T "Alice") 170 95 80 (T "now") alice_files)
  = Return tt.
Proof.
  apply (C5_vitals_append_only no_repr alice_files alice (T "Alice")
           (new_patient (T "Dr. Smith") (T "flu") (T "a,b") (T "none"))).
  - vm_compute. reflexivity.
  - vm_compute. reflexivity.
  - vm_compute. reflexivity.
  - vm_compute. reflexivity.
Defined.

Lemma C10_posting_frame_witness :
  exists ps' f f',
    load_patients
      (snd (patient_details no_repr (T "Alice") 170 95 80 (T "now")
              alice_files)) = Return (JDict ps') /\
    new_patient (T "Dr. Smith") (T "flu") (T "a,b") (T "none") = JDict f /\
    dict_get ps' (T "Alice") = Some (JDict f') /\
    (forall field, field <> T "vitals" ->
       dict_get f' field = dict_get f field) /\
    List.map fst f' = List.map fst f /\
    (forall other, other <> T "Alice" ->
       dict_get ps' other = dict_get alice other) /\
    List.map fst ps' = List.map fst alice.
Proof.
  apply (C10_posting_frame no_repr alice_files alice (T "Alice")
           (new_patient (T "Dr. Smith") (T "flu") (T "a,b") (T "none"))).
  - vm_compute. reflexivity.
  - vm_compute. reflexivity.
  - vm_compute. reflexivity.
  - vm_compute. reflexivity.
Defined.

Lemma reading_fields a b c e :
  let f := [(T "bp_sys", a); (T "bp_dia", b); (T "pulse", c); (T "risk", e)] in
  dict_get f (T "bp_sys") = Some a /\ dict_get f (T "bp_dia") = Some b /\
  dict_get f (T "pulse") = Some c /\ dict_get f (T "risk") = Some e.
Proof. repeat split; vm_compute; reflexivity. Qed.

Lemma well_classified_reading s d p :
  well_classified (reading s d p (assess_risk s d p)) = true.
Proof.
  unfold well_classified, reading.
  destruct (reading_fields (JInt s) (JInt d) (JInt p)
              (JStr (risk_name (assess_risk s d p)))) as (-> & -> & -> & ->).
  apply text_eqb_refl.
Qed.

Lemma forallb_dict_get (Q : json -> bool) d k v :
  forallb (fun kv => Q (snd kv)) d = true -> dict_get d k = Some v ->
  Q v = true.
Proof.
  induction d as [|[k' v'] d IH]; simpl; [discriminate|].
  intros H Hg. apply andb_prop in H. destruct H as [H1 H2].
  destruct (text_eq_dec k k'); [congruence|auto].
Qed.

Lemma patient_ok_new doctor disease medicines tests :
  patient_ok (new_patient doctor disease medicines tests) = true.
Proof. reflexivity. Qed.

Lemma vitals_of_new doctor disease medicines tests :
  vitals_of (new_patient doctor disease medicines tests) = [].
Proof. reflexivity. Qed.

Lemma well_classified_spec r :
  well_classified r = true ->
  exists f s d p,
    r = JDict f /\
    dict_get f (T "bp_sys") = Some (JInt s) /\
    dict_get f (T "bp_dia") = Some (JInt d) /\
    dict_get f (T "pulse") = Some (JInt p) /\
    dict_get f (T "risk") = Some (JStr (risk_name (assess_risk s d p))).
Proof.
  destruct r as [| | | | | |f]; try discriminate. unfold well_classified.
  destruct (dict_get f (T "bp_sys")) as [[| |s| | | |]|] eqn:Es;
    try discriminate.
  destruct (dict_get f (T "bp_dia")) as [[| |d| | | |]|] eqn:Ed;
    try discriminate.
  destruct (dict_get f (T "pulse")) as [[| |p| | | |]|] eqn:Ep;
    try discriminate.
  destruct (dict_get f (T "risk")) as [[| | | |k| |]|] eqn:Er;
    try discriminate.
  intros H. apply text_eqb_eq in H. subst k. now exists f, s, d, p.
Qed.

Section Invariant.

Variable py_repr : json -> text.

Lemma add_patient_inv fs name doctor disease medicines tests :
  valid_request (AddPatient name doctor disease medicines tests) = true ->
  store_inv fs ->
  store_inv (snd (add_patient name doctor disease medicines tests fs)).
Proof.
  intros Hrq (ps & Hl & Hok & Hc). simpl in Hrq.
  repeat (apply andb_prop in Hrq; destruct Hrq as [Hrq ?]).
  unfold store_ok in Hok. apply andb_prop in Hok. destruct Hok as [Hv Hp].
  assert (Hv' : valid_json (JDict (dict_set ps name
                  (new_patient doctor disease medicines tests))) = true).
  { apply valid_json_dict_set; try assumption. now apply new_patient_valid. }
  exists (dict_set ps name (new_patient doctor disease medicines tests)).
  unfold add_patient. rewrite Hl. simpl snd. split; [|split].
  - now apply load_save.
  - unfold store_ok. rewrite Hv'. simpl andb.
    apply forallb_dict_set; [assumption|reflexivity|reflexivity].
  - unfold all_classified.
    apply forallb_dict_set; [assumption|reflexivity|reflexivity].
Qed.

Lemma patient_details_inv fs name s d p now :
  valid_text name = true -> store_inv fs ->
  store_inv (snd (patient_details py_repr name s d p now fs)).
Proof.
  intros Hname (ps & Hl & Hok & Hc).
  destruct (dict_get ps name) as [patient|] eqn:Hn.
  - destruct (post_step py_repr fs ps name patient s d p now Hl Hok Hname Hn)
      as (f & vs & -> & Hv & _ & Hl' & Hok' & _).
    eexists. split; [exact Hl'|]. split; [exact Hok'|].
    unfold all_classified, posted.
    apply forallb_dict_set; [assumption|reflexivity|].
    cbn [snd]. rewrite vitals_of_posted, forallb_app.
    pose proof (forallb_dict_get (fun v => forallb well_classified (vitals_of v))
                  ps name _ Hc Hn) as H.
    cbv beta in H. rewrite (vitals_of_get f vs Hv) in H. rewrite H.
    cbn [forallb andb]. now rewrite well_classified_reading.
  - rewrite (patient_details_absent py_repr fs ps name s d p now Hl Hn).
    now exists ps.
Qed.

Lemma handle_inv rq fs :
  valid_request rq = true -> store_inv fs ->
  store_inv (snd (handle py_repr rq fs)).
Proof.
  destruct rq; intros Hrq Hinv; simpl handle.
  - now apply add_patient_inv.
  - now apply patient_details_inv.
Qed.

Lemma serve_inv rqs fs :
  forallb valid_request rqs = true -> store_inv fs ->
  store_inv (serve py_repr rqs fs).
Proof.
  revert fs. induction rqs as [|rq rqs IH]; intros fs Hrq Hinv; [exact Hinv|].
  simpl in Hrq. apply andb_prop in Hrq. destruct Hrq as [H1 H2].
  change (store_inv (serve py_repr rqs (snd (handle py_repr rq fs)))).
  apply IH; [assumption|]. now apply handle_inv.
Qed.

Lemma store_inv_no_files : store_inv no_files.
Proof. exists []. repeat split. Qed.

(** C4. In every state the server reaches from the empty one, by any requests
    with well-formed texts, the patients file holds a mapping in which every
    reading of every patient has, as its risk, the name of the tier
    [assess_risk] gives to the bp_sys, bp_dia and pulse of that reading. *)
Theorem C4_stored_risk_is_assess_risk (rqs : list request) :
  forallb valid_request rqs = true ->
  exists ps,
    load_patients (serve py_repr rqs no_files) = Return (JDict ps) /\
    forall name patient r,
      dict_get ps name = Some patient -> In r (vitals_of patient) ->
      exists f s d p,
        r = JDict f /\
        dict_get f (T "bp_sys") = Some (JInt s) /\
        dict_get f (T "bp_dia") = Some (JInt d) /\
        dict_get f (T "pulse") = Some (JInt p) /\
        dict_get f (T "risk") = Some (JStr (risk_name (assess_risk s d p))).
Proof.
  intros Hrq.
  destruct (serve_inv rqs no_files Hrq store_inv_no_files)
    as (ps & Hl & _ & Hc).
  exists ps. split; [exact Hl|]. intros name patient r Hn Hin.
  apply well_classified_spec.
  pose proof (forallb_dict_get (fun v => forallb well_classified (vitals_of v))
                ps name _ Hc Hn) as H.
  cbv beta in H. rewrite forallb_forall in H. now apply H.
Qed.

End Invariant.

Lemma C4_stored_risk_is_assess_risk_witness :
  exists ps,
    load_patients
      (serve no_repr
         [AddPatient (T "Alice") (T "Dr. Smith") (T "flu") (T "a,b") (T "none");
          PostVitals (T "Alice") 170 95 80 (T "now");
          PostVitals (T "Bob") 110 70 60 (T "now");
          PostVitals (T "Alice") 150 70 70 (T "later")] no_files)
    = Return (JDict ps) /\
    forall name patient r,
      dict_get ps name = Some patient -> In r (vitals_of patient) ->
      exists f s d p,
        r = JDict f /\
        dict_get f (T "bp_sys") = Some (JInt s) /\
        dict_get f (T "bp_dia") = Some (JInt d) /\
        dict_get f (T "pulse") = Some (JInt p) /\
        dict_get f (T "risk") = Some (JStr (risk_name (assess_risk s d p))).
Proof.
  apply (C4_stored_risk_is_assess_risk no_repr). vm_compute. reflexivity.
Defined.

(** The count by names fails: after one HIGH reading of Alice the only line
    of the log mentions the name Al too, a patient with no reading. *)
Lemma C2_alert_count_counterexample :
  ~ alert_count_matches (serve no_repr al_and_alice no_files).
Proof.
  intros H.
  specialize (H _ (T "Al") _ eq_refl eq_refl).
  vm_compute in H. discriminate.
Qed.

Lemma dict_get_posted_same ps name f vs r :
  dict_get (posted ps name f vs r) name
  = Some (JDict (dict_set f (T "vitals") (JList (vs ++ [r])))).
Proof. unfold posted. apply dict_get_set_same. Qed.

Lemma dict_get_posted_other ps name f vs r n :
  n <> name -> dict_get (posted ps name f vs r) n = dict_get ps n.
Proof. intros H. unfold posted. now apply dict_get_set_other. Qed.

Lemma doctor_in_posted ps name f vs r n :
  dict_get ps name = Some (JDict f) ->
  doctor_in (posted ps name f vs r) n = doctor_in ps n.
Proof.
  intros Hn. unfold doctor_in.
  destruct (text_eq_dec n name) as [->|Hne].
  - rewrite dict_get_posted_same, Hn. apply doctor_of_posted.
  - now rewrite dict_get_posted_other.
Qed.

Lemma known_posted ps name f vs r posts :
  dict_get ps name = Some (JDict f) ->
  known (posted ps name f vs r) posts = known ps posts.
Proof.
  intros Hn. unfold known. apply filter_ext. intros q.
  destruct (text_eq_dec (post_name q) name) as [->|Hne].
  - now rewrite dict_get_posted_same, Hn.
  - now rewrite dict_get_posted_other.
Qed.

Lemma alert_lines_posted py_repr ps name f vs r posts :
  dict_get ps name = Some (JDict f) ->
  alert_lines py_repr (posted ps name f vs r) posts
  = alert_lines py_repr ps posts.
Proof.
  intros Hn. unfold alert_lines. rewrite (known_posted ps name f vs r posts Hn).
  apply map_ext. intros q. now rewrite (doctor_in_posted ps name f vs r _ Hn).
Qed.

Lemma count_high_app vs r :
  count_high (vs ++ [r]) = (count_high vs + (if is_high r then 1 else 0))%nat.
Proof.
  unfold count_high. rewrite filter_app, length_app. simpl.
  now destruct (is_high r).
Qed.

Lemma alert_lines_known py_repr ps q posts patient :
  dict_get ps (post_name q) = Some patient ->
  alert_lines py_repr ps (q :: posts)
  = (if is_HIGH (post_risk q)
     then [alert_line py_repr (post_now q) (post_name q) (doctor_of patient)]
     else []) ++ alert_lines py_repr ps posts.
Proof.
  intros Hn. unfold alert_lines, known, alerting. cbn [filter].
  rewrite Hn. cbn [filter]. destruct (is_HIGH (post_risk q)); [|reflexivity].
  cbn [List.map app]. unfold doctor_in at 1. now rewrite Hn.
Qed.

Lemma alert_lines_unknown py_repr ps q posts :
  dict_get ps (post_name q) = None ->
  alert_lines py_repr ps (q :: posts) = alert_lines py_repr ps posts.
Proof.
  intros Hn. unfold alert_lines, known. cbn [filter]. now rewrite Hn.
Qed.

Lemma alerting_posted_to_same q posts :
  List.length (alerting (posted_to (post_name q) (q :: posts)))
  = ((if is_HIGH (post_risk q) then 1 else 0)
     + List.length (alerting (posted_to (post_name q) posts)))%nat.
Proof.
  unfold posted_to, alerting. cbn [filter]. rewrite text_eqb_refl.
  cbn [filter]. now destruct (is_HIGH (post_risk q)).
Qed.

Lemma alerting_posted_to_other name q posts :
  name <> post_name q ->
  alerting (posted_to name (q :: posts)) = alerting (posted_to name posts).
Proof.
  intros Hne. unfold posted_to. cbn [filter].
  replace (text_eqb (post_name q) name) with false; [reflexivity|].
  symmetry. apply text_eqb_neq. congruence.
Qed.

Section AlertLog.

Variable py_repr : json -> text.

(** C2, as amended.  After any sequence of postings to a valid mapping, the
    alert log is the log of before followed by one line for each posting that
    is classified HIGH and whose name is in the mapping, in the order of the
    postings, and by nothing else; and every patient has as many HIGH
    readings more than before as there were HIGH postings to the name of the
    patient.  Lines are counted by the posting that wrote them, not by the
    names that occur in them. *)
Theorem C2_alert_log_trace (posts : list posting) (fs : files) (ps : pydict) :
  load_patients fs = Return (JDict ps) ->
  store_ok ps = true ->
  forallb valid_request (List.map post_request posts) = true ->
  let fs' := serve py_repr (List.map post_request posts) fs in
  exists ps',
    load_patients fs' = Return (JDict ps') /\
    alerts_text fs' = alerts_text fs ++ List.concat (alert_lines py_repr ps posts) /\
    forall name patient,
      dict_get ps name = Some patient ->
      exists patient',
        dict_get ps' name = Some patient' /\
        count_high (vitals_of patient')
        = (count_high (vitals_of patient)
           + List.length (alerting (posted_to name posts)))%nat.
Proof.
  revert fs ps. induction posts as [|q posts IH]; intros fs ps Hl Hok Hrq.
  - cbv zeta. exists ps. simpl. split; [exact Hl|].
    split; [now rewrite List.app_nil_r|].
    intros name patient Hn. exists patient. split; [exact Hn|lia].
  - simpl in Hrq. apply andb_prop in Hrq. destruct Hrq as [Hq Hrq].
    cbv zeta.
    change (serve py_repr (List.map post_request (q :: posts)) fs)
      with (serve py_repr (List.map post_request posts)
              (snd (patient_details py_repr (post_name q) (post_sys q)
                      (post_dia q) (post_pulse q) (post_now q) fs))).
    destruct (dict_get ps (post_name q)) as [pat|] eqn:Hqn.
    + destruct (post_step py_repr fs ps _ pat (post_sys q) (post_dia q)
                  (post_pulse q) (post_now q) Hl Hok Hq Hqn)
        as (f & vs & -> & Hv & _ & Hl' & Hok' & Ha).
      fold (post_risk q) in Hl', Hok', Ha. fold (post_reading q) in Hl', Hok'.
      set (fs1 := snd (patient_details py_repr (post_name q) (post_sys q)
                         (post_dia q) (post_pulse q) (post_now q) fs)) in *.
      destruct (IH fs1 _ Hl' Hok' Hrq) as (ps' & Hl2 & Ha2 & Hc2).
      exists ps'. split; [exact Hl2|]. split.
      * rewrite Ha2, (alert_lines_posted py_repr ps _ f vs _ posts Hqn).
        rewrite (alert_lines_known py_repr ps q posts _ Hqn).
        unfold alerts_text at 1. rewrite Ha. fold (alerts_text fs).
        destruct (is_HIGH (post_risk q)); cbn [app List.concat].
        -- now rewrite <- !List.app_assoc.
        -- reflexivity.
      * intros name patient Hn.
        destruct (text_eq_dec name (post_name q)) as [->|Hne].
        -- rewrite Hqn in Hn. injection Hn as <-.
           destruct (Hc2 _ _ (dict_get_posted_same ps (post_name q) f vs
                                (post_reading q)))
             as (patient' & Hg & Hc).
           exists patient'. split; [exact Hg|]. rewrite Hc.
           rewrite vitals_of_posted, count_high_app, (vitals_of_get f vs Hv).
           unfold post_reading. rewrite is_high_reading.
           rewrite alerting_posted_to_same. lia.
        -- destruct (Hc2 name patient) as (patient' & Hg & Hc).
           { now rewrite dict_get_posted_other. }
           exists patient'. split; [exact Hg|]. rewrite Hc.
           now rewrite alerting_posted_to_other.
    + rewrite (patient_details_absent py_repr fs ps _ (post_sys q) (post_dia q)
                 (post_pulse q) (post_now q) Hl Hqn).
      cbn [snd].
      destruct (IH fs ps Hl Hok Hrq) as (ps' & Hl2 & Ha2 & Hc2).
      exists ps'. split; [exact Hl2|]. split.
      * now rewrite Ha2, alert_lines_unknown.
      * intros name patient Hn.
        destruct (Hc2 name patient Hn) as (patient' & Hg & Hc).
        exists patient'. split; [exact Hg|]. rewrite Hc.
        rewrite alerting_posted_to_other; [reflexivity|]. congruence.
Qed.

End AlertLog.

Lemma C2_alert_log_trace_witness :
  exists ps',
    load_patients (serve no_repr (List.map post_request three_posts) alice_files)
    = Return (JDict ps') /\
    alerts_text (serve no_repr (List.map post_request three_posts) alice_files)
    = alerts_text alice_files
      ++ List.concat (alert_lines no_repr alice three_posts) /\
    forall name patient,
      dict_get alice name = Some patient ->
      exists patient',
        dict_get ps' name = Some patient' /\
        count_high (vitals_of patient')
        = (count_high (vitals_of patient)
           + List.length (alerting (posted_to name three_posts)))%nat.
Proof.
  apply (C2_alert_log_trace no_repr three_posts alice_files alice).
  - vm_compute. reflexivity.
  - vm_compute. reflexivity.
  - vm_compute. reflexivity.
Defined.

(** * Further properties of the application *)

(** [assess_risk] is monotone: when none of the three integers goes down, the
    tier does not go down. *)
Theorem assess_risk_monotone (s d p s' d' p' : Z) :
  s <= s' -> d <= d' -> p <= p' ->
  tier_rank (assess_risk s d p) <= tier_rank (assess_risk s' d' p').
Proof.
  intros Hs Hd Hp. unfold assess_risk.
  destruct (Z.gtb_spec s 160), (Z.gtb_spec d 100), (Z.gtb_spec p 120),
    (Z.gtb_spec s' 160), (Z.gtb_spec d' 100), (Z.gtb_spec p' 120);
    cbn [orb tier_rank]; try lia;
    destruct (Z.leb_spec 140 s), (Z.leb_spec s 160), (Z.leb_spec 90 d),
      (Z.leb_spec d 100), (Z.leb_spec 100 p), (Z.leb_spec p 120);
    cbn [orb andb tier_rank]; try lia;
    destruct (Z.leb_spec 140 s'), (Z.leb_spec s' 160), (Z.leb_spec 90 d'),
      (Z.leb_spec d' 100), (Z.leb_spec 100 p'), (Z.leb_spec p' 120);
    cbn [orb andb tier_rank]; lia.
Qed.

Lemma assess_risk_monotone_witness :
  tier_rank (assess_risk 150 70 70) <= tier_rank (assess_risk 150 95 130).
Proof. apply assess_risk_monotone; lia. Defined.

Section Log.

Variable py_repr : json -> text.

Lemma handle_log_grows rq fs :
  exists more,
    alerts_text (snd (handle py_repr rq fs)) = alerts_text fs ++ more.
Proof.
  destruct rq as [name doctor disease medicines tests|name s d p now];
    cbn [handle].
  - exists []. rewrite List.app_nil_r. unfold add_patient.
    destruct (_ <- load_patients fs ;; _); reflexivity.
  - unfold patient_details.
    destruct (record_vitals py_repr name s d p fs) as [[ps' [message|]]|e];
      cbn [snd].
    + eexists. unfold alerts_text, save_patients, log_alert. cbn. reflexivity.
    + exists []. now rewrite List.app_nil_r.
    + exists []. now rewrite List.app_nil_r.
Qed.

(** The alert log is append-only: whatever the requests and whatever the two
    files hold, the log after the requests starts with the log of before. *)
Theorem alert_log_append_only (rqs : list request) (fs : files) :
  exists more, alerts_text (serve py_repr rqs fs) = alerts_text fs ++ more.
Proof.
  revert fs. induction rqs as [|rq rqs IH]; intros fs.
  - exists []. now rewrite List.app_nil_r.
  - change (serve py_repr (rq :: rqs) fs)
      with (serve py_repr rqs (snd (handle py_repr rq fs))).
    destruct (IH (snd (handle py_repr rq fs))) as [m2 H2].
    destruct (handle_log_grows rq fs) as [m1 H1].
    exists (m1 ++ m2). now rewrite H2, H1, List.app_assoc.
Qed.

Lemma handle_undecodable rq fs e :
  load_patients fs = Raise e -> handle py_repr rq fs = (Raise e, fs).
Proof.
  intros H. destruct rq; cbn [handle].
  - unfold add_patient. now rewrite H.
  - unfold patient_details, record_vitals. now rewrite H.
Qed.

(** A patients file that cannot be decoded stays as it is: every request
    raises the error of the decoder, and no sequence of requests writes to
    either file. *)
Theorem undecodable_store_blocks_requests (rqs : list request) (fs : files)
    (e : exn) :
  load_patients fs = Raise e ->
  serve py_repr rqs fs = fs /\
  forall rq, handle py_repr rq fs = (Raise e, fs).
Proof.
  intros H. split; [|intros rq; now apply handle_undecodable].
  induction rqs as [|rq rqs IH]; [reflexivity|].
  change (serve py_repr (rq :: rqs) fs)
    with (serve py_repr rqs (snd (handle py_repr rq fs))).
  now rewrite (handle_undecodable rq fs e H).
Qed.

End Log.

Lemma undecodable_store_blocks_requests_witness :
  serve no_repr al_and_alice (Files (Some (T "{oops")) None)
  = Files (Some (T "{oops")) None.
Proof.
  apply (undecodable_store_blocks_requests no_repr al_and_alice
           (Files (Some (T "{oops")) None) JSONDecodeError).
  vm_compute. reflexivity.
Defined.

(** What [add_patient] leaves in the patients file of a valid store. *)
Lemma add_patient_step fs ps name doctor disease medicines tests :
  load_patients fs = Return (JDict ps) ->
  store_ok ps = true ->
  valid_request (AddPatient name doctor disease medicines tests) = true ->
  let ps' := dict_set ps name (new_patient doctor disease medicines tests) in
  add_patient name doctor disease medicines tests fs
  = (Return tt, save_patients (JDict ps') fs) /\
  load_patients (snd (add_patient name doctor disease medicines tests fs))
  = Return (JDict ps') /\
  store_ok ps' = true.
Proof.
  intros Hl Hok Hrq. cbv zeta. simpl in Hrq.
  repeat (apply andb_prop in Hrq; destruct Hrq as [Hrq ?]).
  unfold store_ok in Hok. apply andb_prop in Hok. destruct Hok as [Hv Hp].
  assert (Hv' : valid_json (JDict (dict_set ps name
                  (new_patient doctor disease medicines tests))) = true).
  { apply valid_json_dict_set; try assumption. now apply new_patient_valid. }
  unfold add_patient. rewrite Hl. cbn [bind py_setitem snd].
  split; [reflexivity|]. split; [now apply load_save|].
  unfold store_ok. rewrite Hv'. cbn [andb].
  apply forallb_dict_set; [assumption|reflexivity|reflexivity].
Qed.

(** Adding a patient and opening the page of a patient: the page of the name
    added shows the new record, whether the name was there or not, and the
    page of any other name shows what it showed before. *)
Theorem add_patient_then_lookup
    (fs : files) (ps : pydict) (name doctor disease medicines tests : text) :
  load_patients fs = Return (JDict ps) ->
  store_ok ps = true ->
  valid_request (AddPatient name doctor disease medicines tests) = true ->
  let fs' := snd (add_patient name doctor disease medicines tests fs) in
  patient_details_get name fs'
  = Return (new_patient doctor disease medicines tests) /\
  forall other, other <> name ->
    patient_details_get other fs' = patient_details_get other fs.
Proof.
  intros Hl Hok Hrq. cbv zeta.
  destruct (add_patient_step fs ps name doctor disease medicines tests Hl Hok Hrq)
    as (_ & Hl' & _).
  unfold patient_details_get. rewrite Hl', Hl. cbn [bind py_get]. split.
  - now rewrite dict_get_set_same.
  - intros other Hne. now rewrite dict_get_set_other.
Qed.

Lemma add_patient_then_lookup_witness :
  patient_details_get (T "Bob")
    (snd (add_patient (T "Bob") (T "Dr. Jones") (T "cold") (T "c") (T "none")
            alice_files))
  = Return (new_patient (T "Dr. Jones") (T "cold") (T "c") (T "none")).
Proof.
  apply (add_patient_then_lookup alice_files alice); vm_compute; reflexivity.
Defined.

(** A patient added under a name that is not in the store comes last on the
    index page, after the patients of before in their order, and no record of
    before is changed. *)
Theorem add_patient_fresh_name_last
    (fs : files) (ps : pydict) (name doctor disease medicines tests : text) :
  load_patients fs = Return (JDict ps) ->
  store_ok ps = true ->
  valid_request (AddPatient name doctor disease medicines tests) = true ->
  dict_get ps name = None ->
  index (snd (add_patient name doctor disease medicines tests fs))
  = Return (JDict (ps ++ [(name,
                           new_patient doctor disease medicines tests)])).
Proof.
  intros Hl Hok Hrq Hn.
  destruct (add_patient_step fs ps name doctor disease medicines tests Hl Hok Hrq)
    as (_ & Hl' & _).
  unfold index. rewrite Hl'. do 2 f_equal.
  clear -Hn. induction ps as [|[k v] ps IH]; simpl in *; [reflexivity|].
  destruct (text_eq_dec name k); [discriminate|].
  now rewrite IH.
Qed.

Lemma add_patient_fresh_name_last_witness :
  index (snd (add_patient (T "Bob") (T "Dr. Jones") (T "cold") (T "c")
                (T "none") alice_files))
  = Return (JDict (alice ++ [(T "Bob", new_patient (T "Dr. Jones") (T "cold")
                                         (T "c") (T "none"))])).
Proof.
  apply (add_patient_fresh_name_last alice_files alice); vm_compute; reflexivity.
Defined.

Lemma dict_set_keys d k v :
  exists extra, List.map fst (dict_set d k v) = List.map fst d ++ extra.
Proof.
  destruct (in_dec text_eq_dec k (List.map fst d)) as [Hin|Hout].
  - exists []. rewrite List.app_nil_r. now apply dict_set_keys_present.
  - exists [k]. now apply dict_set_keys_absent.
Qed.

Section Names.

Variable py_repr : json -> text.

Lemma handle_keeps_names rq fs ps :
  load_patients fs = Return (JDict ps) -> store_ok ps = true ->
  valid_request rq = true ->
  exists ps' extra,
    load_patients (snd (handle py_repr rq fs)) = Return (JDict ps') /\
    store_ok ps' = true /\
    List.map fst ps' = List.map fst ps ++ extra.
Proof.
  intros Hl Hok Hrq.
  destruct rq as [name doctor disease medicines tests|name s d p now];
    cbn [handle].
  - destruct (add_patient_step fs ps name doctor disease medicines tests
                Hl Hok Hrq) as (_ & Hl' & Hok').
    destruct (dict_set_keys ps name
                (new_patient doctor disease medicines tests)) as [extra He].
    eexists _, extra. split; [exact Hl'|]. split; [exact Hok'|exact He].
  - simpl in Hrq. destruct (dict_get ps name) as [patient|] eqn:Hn.
    + destruct (post_step py_repr fs ps name patient s d p now Hl Hok Hrq Hn)
        as (f & vs & -> & Hv & _ & Hl' & Hok' & _).
      eexists _, []. split; [exact Hl'|]. split; [exact Hok'|].
      rewrite List.app_nil_r. unfold posted.
      apply dict_set_keys_present. apply dict_get_in. congruence.
    + rewrite (patient_details_absent py_repr fs ps name s d p now Hl Hn).
      exists ps, []. now rewrite List.app_nil_r.
Qed.

Lemma serve_keeps_names rqs :
  forall fs ps,
    load_patients fs = Return (JDict ps) -> store_ok ps = true ->
    forallb valid_request rqs = true ->
    exists ps' extra,
      load_patients (serve py_repr rqs fs) = Return (JDict ps') /\
      store_ok ps' = true /\ List.map fst ps' = List.map fst ps ++ extra.
Proof.
  induction rqs as [|rq rqs IH]; intros fs ps Hl Hok Hrq.
  - exists ps, []. now rewrite List.app_nil_r.
  - simpl in Hrq. apply andb_prop in Hrq. destruct Hrq as [H1 H2].
    change (serve py_repr (rq :: rqs) fs)
      with (serve py_repr rqs (snd (handle py_repr rq fs))).
    destruct (handle_keeps_names rq fs ps Hl Hok H1)
      as (ps1 & e1 & Hl1 & Hok1 & Hk1).
    destruct (IH _ ps1 Hl1 Hok1 H2) as (ps2 & e2 & Hl2 & Hok2 & Hk2).
    exists ps2, (e1 ++ e2). split; [exact Hl2|]. split; [exact Hok2|].
    now rewrite Hk2, Hk1, List.app_assoc.
Qed.

(** No request removes or renames a patient: after any requests to a valid
    store the names of before are still there, in the same order, ahead of
    the names added since. *)
Theorem names_are_kept (rqs : list request) (fs : files) (ps : pydict) :
  load_patients fs = Return (JDict ps) ->
  store_ok ps = true ->
  forallb valid_request rqs = true ->
  exists ps' extra,
    load_patients (serve py_repr rqs fs) = Return (JDict ps') /\
    List.map fst ps' = List.map fst ps ++ extra.
Proof.
  intros Hl Hok Hrq.
  destruct (serve_keeps_names rqs fs ps Hl Hok Hrq)
    as (ps' & extra & H1 & _ & H2).
  now exists ps', extra.
Qed.

End Names.

Lemma names_are_kept_witness :
  exists ps' extra,
    load_patients (serve no_repr al_and_alice alice_files)
    = Return (JDict ps') /\
    List.map fst ps' = List.map fst alice ++ extra.
Proof.
  apply (names_are_kept no_repr al_and_alice alice_files alice);
    vm_compute; reflexivity.
Defined.

Lemma posted_to_same q posts :
  posted_to (post_name q) (q :: posts) = q :: posted_to (post_name q) posts.
Proof. unfold posted_to. cbn [filter]. now rewrite text_eqb_refl. Qed.

Lemma posted_to_other name q posts :
  name <> post_name q -> posted_to name (q :: posts) = posted_to name posts.
Proof.
  intros Hne. unfold posted_to. cbn [filter].
  replace (text_eqb (post_name q) name) with false; [reflexivity|].
  symmetry. apply text_eqb_neq. congruence.
Qed.

Section Trace.

Variable py_repr : json -> text.

(** The vitals of a patient are the readings posted, in the order of the
    postings: after any postings to a valid store every patient has the vitals
    of before followed by the readings of the postings to the name of the
    patient, each with the tier [assess_risk] gives it, and the same doctor. *)
Theorem postings_extend_vitals (posts : list posting) (fs : files)
    (ps : pydict) :
  load_patients fs = Return (JDict ps) ->
  store_ok ps = true ->
  forallb valid_request (List.map post_request posts) = true ->
  exists ps',
    load_patients (serve py_repr (List.map post_request posts) fs)
    = Return (JDict ps') /\
    forall name patient,
      dict_get ps name = Some patient ->
      exists patient',
        dict_get ps' name = Some patient' /\
        vitals_of patient'
        = vitals_of patient ++ List.map post_reading (posted_to name posts) /\
        doctor_of patient' = doctor_of patient.
Proof.
  revert fs ps. induction posts as [|q posts IH]; intros fs ps Hl Hok Hrq.
  - exists ps. split; [exact Hl|]. intros name patient Hn. exists patient.
    cbn. now rewrite List.app_nil_r.
  - simpl in Hrq. apply andb_prop in Hrq. destruct Hrq as [Hq Hrq].
    change (serve py_repr (List.map post_request (q :: posts)) fs)
      with (serve py_repr (List.map post_request posts)
              (snd (patient_details py_repr (post_name q) (post_sys q)
                      (post_dia q) (post_pulse q) (post_now q) fs))).
    destruct (dict_get ps (post_name q)) as [pat|] eqn:Hqn.
    + destruct (post_step py_repr fs ps _ pat (post_sys q) (post_dia q)
                  (post_pulse q) (post_now q) Hl Hok Hq Hqn)
        as (f & vs & -> & Hv & _ & Hl' & Hok' & _).
      fold (post_risk q) in Hl', Hok'. fold (post_reading q) in Hl', Hok'.
      destruct (IH _ _ Hl' Hok' Hrq) as (ps' & Hl2 & Hc2).
      exists ps'. split; [exact Hl2|]. intros name patient Hn.
      destruct (text_eq_dec name (post_name q)) as [->|Hne].
      * rewrite Hqn in Hn. injection Hn as <-.
        destruct (Hc2 _ _ (dict_get_posted_same ps (post_name q) f vs
                             (post_reading q)))
          as (patient' & Hg & Hvs & Hd).
        exists patient'. split; [exact Hg|]. split.
        -- rewrite Hvs, vitals_of_posted, (vitals_of_get f vs Hv).
           rewrite posted_to_same. cbn [List.map].
           now rewrite <- List.app_assoc.
        -- rewrite Hd. apply doctor_of_posted.
      * destruct (Hc2 name patient) as (patient' & Hg & Hvs & Hd).
        { now rewrite dict_get_posted_other. }
        exists patient'. split; [exact Hg|].
        now rewrite posted_to_other.
    + rewrite (patient_details_absent py_repr fs ps _ (post_sys q) (post_dia q)
                 (post_pulse q) (post_now q) Hl Hqn).
      cbn [snd].
      destruct (IH fs ps Hl Hok Hrq) as (ps' & Hl2 & Hc2).
      exists ps'. split; [exact Hl2|]. intros name patient Hn.
      destruct (Hc2 name patient Hn) as (patient' & Hg & Hvs & Hd).
      exists patient'. split; [exact Hg|].
      rewrite posted_to_other; [now split|]. congruence.
Qed.

(** A record with vitals and no doctor takes LOW and MEDIUM readings, and a
    HIGH reading fails on it: the alert message needs the doctor, the lookup
    raises [KeyError] of 'doctor', and the reading is lost with nothing
    written to either file. *)
Theorem posting_without_doctor
    (fs : files) (ps f : pydict) (vs : list json) (name : text) (s d p : Z)
    (now : text) :
  load_patients fs = Return (JDict ps) ->
  dict_get ps name = Some (JDict f) ->
  dict_get f (T "vitals") = Some (JList vs) ->
  dict_get f (T "doctor") = None ->
  patient_details py_repr name s d p now fs
  = if is_HIGH (assess_risk s d p)
    then (Raise (KeyError (T "doctor")), fs)
    else (Return tt,
          save_patients
            (JDict (posted ps name f vs (reading s d p (assess_risk s d p))))
            fs).
Proof.
  intros Hl Hn Hv Hd. unfold patient_details, record_vitals.
  rewrite Hl. cbn [bind py_get]. rewrite Hn. cbn [bind py_getitem].
  rewrite Hv. cbn [bind py_append py_setitem].
  destruct (assess_risk s d p); cbn [bind py_getitem is_HIGH]; try reflexivity.
  rewrite dict_get_set_other by exact doctor_not_vitals.
  now rewrite Hd.
Qed.

End Trace.

Lemma postings_extend_vitals_witness :
  exists ps',
    load_patients (serve no_repr (List.map post_request three_posts) alice_files)
    = Return (JDict ps') /\
    forall name patient,
      dict_get alice name = Some patient ->
      exists patient',
        dict_get ps' name = Some patient' /\
        vitals_of patient'
        = vitals_of patient
          ++ List.map post_reading (posted_to name three_posts) /\
        doctor_of patient' = doctor_of patient.
Proof.
  apply (postings_extend_vitals no_repr three_posts alice_files alice);
    vm_compute; reflexivity.
Defined.

Lemma posting_without_doctor_witness :
  patient_details no_repr (T "Zed") 170 95 80 (T "now") no_doctor_files
  = (Raise (KeyError (T "doctor")), no_doctor_files).
Proof.
  apply (posting_without_doctor no_repr no_doctor_files no_doctor
           [(T "vitals", JList [])] [] (T "Zed") 170 95 80 (T "now"));
    vm_compute; reflexivity.
Defined.

Lemma split_on_cons sep s :
  exists h t, split_on sep s = h :: t.
Proof.
  induction s as [|c s (h & t & IH)]; simpl; [now exists [], []|].
  destruct (c =? sep)%N; [now eexists _, _|].
  rewrite IH. now eexists _, _.
Qed.

(** The medicines of a new record are the field of the form cut at its
    commas and nothing else: joined by commas again they give the field back,
    there is one more entry than there are commas (an empty field gives one
    empty entry), and no entry holds a comma. *)
Theorem medicines_split_at_commas (medicines : text) :
  join_with 44%N (split_on 44%N medicines) = medicines /\
  List.length (split_on 44%N medicines) = S (count_char 44%N medicines) /\
  forall entry, In entry (split_on 44%N medicines) ->
                count_char 44%N entry = O.
Proof.
  induction medicines as [|c s (IHj & IHl & IHc)]; cbn [split_on].
  - repeat split. intros entry [<-|[]]. reflexivity.
  - destruct (split_on_cons 44%N s) as (h & t & E). rewrite E in *.
    unfold count_char in *. cbn [filter].
    rewrite (N.eqb_sym 44%N c).
    destruct (c =? 44)%N eqn:Ec.
    + apply N.eqb_eq in Ec. subst c. repeat split.
      * change (join_with 44%N ([] :: h :: t))
          with ([] ++ 44%N :: join_with 44%N (h :: t)).
        now rewrite IHj.
      * cbn [List.length] in *. now rewrite IHl.
      * intros entry [<-|Hin]; [reflexivity|now apply IHc].
    + repeat split.
      * destruct t as [|x t].
        -- cbn [join_with] in *. now rewrite IHj.
        -- change (join_with 44%N ((c :: h) :: x :: t))
             with (c :: (h ++ 44%N :: join_with 44%N (x :: t))).
           change (join_with 44%N (h :: x :: t))
             with (h ++ 44%N :: join_with 44%N (x :: t)) in IHj.
           now rewrite IHj.
      * exact IHl.
      * intros entry [<-|Hin].
        -- cbn [filter]. rewrite (N.eqb_sym 44%N c), Ec.
           apply IHc. now left.
        -- apply IHc. now right.
Qed.

Lemma count_char_cons c a s :
  count_char c (a :: s) = O -> (a =? c)%N = false /\ count_char c s = O.
Proof.
  unfold count_char. cbn [filter]. rewrite (N.eqb_sym a c).
  destruct (c =? a)%N; [discriminate|now split].
Qed.

Lemma readlines_from_concat cur s :
  count_char 13%N s = O ->
  List.concat (readlines_from cur s) = rev cur ++ s /\
  forall line, In line (readlines_from cur s) -> line <> [].
Proof.
  revert cur. induction s as [|c s IH]; intros cur H.
  - destruct cur as [|a cur]; cbn [readlines_from]; [now split|].
    cbn [List.concat]. rewrite !List.app_nil_r. split; [reflexivity|].
    intros line [<-|[]]. cbn [rev]. now destruct (rev cur).
  - apply count_char_cons in H. destruct H as [Hc Hs].
    cbn [readlines_from]. rewrite Hc.
    destruct (c =? 10)%N eqn:E10.
    + apply N.eqb_eq in E10. subst c. destruct (IH [] Hs) as [IH1 IH2].
      cbn [List.concat]. rewrite IH1. cbn [rev app].
      split; [now rewrite <- List.app_assoc|].
      intros line [<-|Hin]; [now destruct (rev cur)|now apply IH2].
    + destruct (IH (c :: cur) Hs) as [IH1 IH2]. rewrite IH1. cbn [rev].
      split; [now rewrite <- List.app_assoc|exact IH2].
Qed.

(** The alerts page shows the whole log: when the log holds no carriage
    return, the lines [view_alerts] returns are not empty and, put end to
    end, are the text of the log. *)
Theorem view_alerts_shows_the_log (fs : files) :
  count_char 13%N (alerts_text fs) = O ->
  List.concat (view_alerts fs) = alerts_text fs /\
  forall line, In line (view_alerts fs) -> line <> [].
Proof.
  unfold view_alerts, alerts_text, readlines.
  destruct (alerts_file fs) as [s|]; [|now split].
  intros H. exact (readlines_from_concat [] s H).
Qed.

Lemma view_alerts_shows_the_log_witness :
  List.concat
    (view_alerts (serve no_repr (List.map post_request three_posts) alice_files))
  = alerts_text (serve no_repr (List.map post_request three_posts) alice_files).
Proof.
  apply (view_alerts_shows_the_log
           (serve no_repr (List.map post_request three_posts) alice_files)).
  vm_compute. reflexivity.
Defined.

Lemma readlines_from_line cur l :
  no_break l = true -> readlines_from cur (l ++ [10%N]) = [rev cur ++ l ++ [10%N]].
Proof.
  revert cur. induction l as [|c l IH]; intros cur H.
  - reflexivity.
  - cbn [no_break forallb] in H. apply andb_prop in H. destruct H as [Hc Hl].
    apply negb_true_iff, orb_false_iff in Hc. destruct Hc as [H10 H13].
    cbn [app readlines_from]. rewrite H10, H13.
    rewrite (IH (c :: cur) Hl). cbn [rev]. now rewrite <- List.app_assoc.
Qed.

Lemma readlines_from_cr cur r :
  readlines_from cur (13%N :: r)
  = rev (10%N :: cur) :: readlines_from [] (after_cr r).
Proof.
  destruct r as [|c r']; [reflexivity|].
  cbn [after_cr]. destruct (N.eqb_spec c 10) as [->|Hne]; [reflexivity|].
  destruct c as [|p]; [reflexivity|].
  destruct p as [p|p|]; try reflexivity.
  destruct p as [p|p|]; try reflexivity.
  destruct p as [p|p|]; try reflexivity.
  destruct p as [p|p|]; try reflexivity.
  now contradiction Hne.
Qed.

Lemma readlines_from_app n :
  forall a cur b, (List.length a <= n)%nat ->
    readlines_from cur (a ++ 10%N :: b)
    = readlines_from cur (a ++ [10%N]) ++ readlines_from [] b.
Proof.
  induction n as [|n IH]; intros a cur b Hn.
  - destruct a; [reflexivity|simpl in Hn; lia].
  - destruct a as [|c a]; [reflexivity|]. simpl in Hn.
    destruct (N.eqb_spec c 13) as [->|H13].
    + change ((13%N :: a) ++ 10%N :: b) with (13%N :: (a ++ 10%N :: b)).
      change ((13%N :: a) ++ [10%N]) with (13%N :: (a ++ [10%N])).
      rewrite !readlines_from_cr. cbn [app]. f_equal.
      destruct a as [|x a]; [reflexivity|].
      cbn [app after_cr]. simpl in Hn.
      destruct (x =? 10)%N.
      * apply IH. lia.
      * apply (IH (x :: a)). simpl. lia.
    + apply N.eqb_neq in H13. cbn [app readlines_from]. rewrite H13.
      destruct (c =? 10)%N.
      * rewrite (IH a [] b) by lia. reflexivity.
      * apply IH. lia.
Qed.

Lemma closed_log_inv s :
  closed_log s = true -> s = [] \/ exists a, s = a ++ [10%N].
Proof.
  unfold closed_log. destruct (rev s) as [|c r] eqn:E.
  - left. apply (f_equal (@rev N)) in E. now rewrite rev_involutive in E.
  - intros H. apply N.eqb_eq in H. subst c. right. exists (rev r).
    apply (f_equal (@rev N)) in E. now rewrite rev_involutive in E.
Qed.

Lemma readlines_closed_app s body :
  closed_log s = true -> no_break body = true ->
  readlines (s ++ body ++ [10%N]) = readlines s ++ [body ++ [10%N]].
Proof.
  intros Hc Hb. pose proof (readlines_from_line [] body Hb) as Hline.
  cbn [rev app] in Hline. unfold readlines.
  destruct (closed_log_inv s Hc) as [->|[a ->]]; [exact Hline|].
  rewrite <- List.app_assoc.
  change ([10%N] ++ body ++ [10%N]) with (10%N :: (body ++ [10%N])).
  rewrite (readlines_from_app (List.length a) a [] _ (le_n _)).
  now rewrite Hline.
Qed.

Lemma closed_log_app s body : closed_log (s ++ body ++ [10%N]) = true.
Proof.
  unfold closed_log. rewrite !rev_app_distr. reflexivity.
Qed.

(** Logging an alert adds one line to the alerts page: when the log is empty
    or ends in a line feed, as [log_alert] leaves it, and neither the time nor
    the message holds a line break, [view_alerts] returns the lines of before
    and then the new line. *)
Theorem view_alerts_after_log_alert (now message : text) (fs : files) :
  closed_log (alerts_text fs) = true ->
  no_break now = true -> no_break message = true ->
  view_alerts (log_alert now message fs)
  = view_alerts fs ++ [now ++ T " - " ++ message ++ [10%N]].
Proof.
  intros Hc Hn Hm.
  assert (Hl : no_break (now ++ T " - " ++ message) = true).
  { unfold no_break in *. rewrite !forallb_app, Hn, Hm. reflexivity. }
  pose proof (readlines_closed_app (alerts_text fs) _ Hc Hl) as H.
  rewrite <- !List.app_assoc in H.
  unfold view_alerts, log_alert, alerts_text in *. cbn [alerts_file].
  destruct (alerts_file fs) as [s|]; exact H.
Qed.

Lemma view_alerts_after_log_alert_witness :
  view_alerts (log_alert (T "2024-01-01 10:00:00") (T "High Risk Alert")
                 (Files None (Some (T "first line" ++ [10%N]))))
  = view_alerts (Files None (Some (T "first line" ++ [10%N])))
    ++ [T "2024-01-01 10:00:00" ++ T " - " ++ T "High Risk Alert" ++ [10%N]].
Proof.
  apply view_alerts_after_log_alert; vm_compute; reflexivity.
Defined.

Lemma is_prefix_app p s : is_prefix p (p ++ s) = true.
Proof.
  induction p as [|a p IH]; [reflexivity|].
  cbn [app is_prefix]. now rewrite N.eqb_refl, IH.
Qed.

Lemma mentions_app needle a b : mentions needle (a ++ needle ++ b) = true.
Proof.
  induction a as [|c a IH].
  - cbn [app]. pose proof (is_prefix_app needle b) as H.
    destruct (needle ++ b); cbn [mentions]; now rewrite H.
  - cbn [app mentions]. rewrite IH. apply orb_true_r.
Qed.

Lemma one_line_inv l :
  one_line l = true -> exists body, l = body ++ [10%N] /\ no_break body = true.
Proof.
  unfold one_line. intros H. apply andb_prop in H. destruct H as [Hb Hc].
  destruct (rev l) as [|c r] eqn:E; [discriminate|].
  apply N.eqb_eq in Hc. subst c.
  apply (f_equal (@rev N)) in E. rewrite rev_involutive in E. cbn [rev] in E.
  subst l. rewrite removelast_last in Hb. now exists (rev r).
Qed.

Lemma readlines_closed_lines lines :
  forall s, closed_log s = true -> forallb one_line lines = true ->
    readlines (s ++ List.concat lines) = readlines s ++ lines.
Proof.
  induction lines as [|l lines IH]; intros s Hc Hl.
  - cbn [List.concat]. now rewrite !List.app_nil_r.
  - cbn [forallb] in Hl. apply andb_prop in Hl. destruct Hl as [H1 H2].
    destruct (one_line_inv l H1) as (body & -> & Hb).
    cbn [List.concat]. rewrite List.app_assoc.
    rewrite (IH (s ++ body ++ [10%N])); [|apply closed_log_app|exact H2].
    rewrite (readlines_closed_app s body Hc Hb).
    now rewrite <- List.app_assoc.
Qed.

Lemma view_alerts_text fs : view_alerts fs = readlines (alerts_text fs).
Proof. unfold view_alerts, alerts_text. now destruct (alerts_file fs). Qed.

Section Page.

Variable py_repr : json -> text.

Lemma postings_log posts :
  forall fs ps,
    load_patients fs = Return (JDict ps) -> store_ok ps = true ->
    forallb valid_request (List.map post_request posts) = true ->
    alerts_text (serve py_repr (List.map post_request posts) fs)
    = alerts_text fs ++ List.concat (alert_lines py_repr ps posts).
Proof.
  induction posts as [|q posts IH]; intros fs ps Hl Hok Hrq.
  - cbn. now rewrite List.app_nil_r.
  - simpl in Hrq. apply andb_prop in Hrq. destruct Hrq as [Hq Hrq].
    change (serve py_repr (List.map post_request (q :: posts)) fs)
      with (serve py_repr (List.map post_request posts)
              (snd (patient_details py_repr (post_name q) (post_sys q)
                      (post_dia q) (post_pulse q) (post_now q) fs))).
    destruct (dict_get ps (post_name q)) as [pat|] eqn:Hqn.
    + destruct (post_step py_repr fs ps _ pat (post_sys q) (post_dia q)
                  (post_pulse q) (post_now q) Hl Hok Hq Hqn)
        as (f & vs & -> & Hv & _ & Hl' & Hok' & Ha).
      fold (post_risk q) in Hl', Hok', Ha. fold (post_reading q) in Hl', Hok'.
      rewrite (IH _ _ Hl' Hok' Hrq).
      rewrite (alert_lines_posted py_repr ps _ f vs _ posts Hqn).
      rewrite (alert_lines_known py_repr ps q posts _ Hqn).
      unfold alerts_text at 1. rewrite Ha. fold (alerts_text fs).
      destruct (is_HIGH (post_risk q)); cbn [app List.concat].
      * now rewrite <- !List.app_assoc.
      * reflexivity.
    + rewrite (patient_details_absent py_repr fs ps _ (post_sys q) (post_dia q)
                 (post_pulse q) (post_now q) Hl Hqn).
      cbn [snd]. rewrite (IH fs ps Hl Hok Hrq).
      now rewrite alert_lines_unknown.
Qed.

(** The alerts page after postings: when the log is empty or ends in a line
    feed and the lines written hold no line break of their own, the page shows
    the lines of before and then one line for each HIGH posting to a patient
    of the store, in the order of the postings. *)
Theorem alerts_page_after_postings (posts : list posting) (fs : files)
    (ps : pydict) :
  load_patients fs = Return (JDict ps) ->
  store_ok ps = true ->
  forallb valid_request (List.map post_request posts) = true ->
  closed_log (alerts_text fs) = true ->
  forallb one_line (alert_lines py_repr ps posts) = true ->
  let fs' := serve py_repr (List.map post_request posts) fs in
  view_alerts fs' = view_alerts fs ++ alert_lines py_repr ps posts /\
  List.length (view_alerts fs')
  = (List.length (view_alerts fs)
     + List.length (alerting (known ps posts)))%nat.
Proof.
  intros Hl Hok Hrq Hc Hlines. cbv zeta.
  assert (H : view_alerts (serve py_repr (List.map post_request posts) fs)
              = view_alerts fs ++ alert_lines py_repr ps posts).
  { rewrite !view_alerts_text, (postings_log posts fs ps Hl Hok Hrq).
    now apply readlines_closed_lines. }
  split; [exact H|].
  rewrite H, length_app. unfold alert_lines. now rewrite length_map.
Qed.

End Page.

Lemma alerts_page_after_postings_witness :
  view_alerts (serve no_repr (List.map post_request three_posts) alice_files)
  = view_alerts alice_files ++ alert_lines no_repr alice three_posts.
Proof.
  apply (alerts_page_after_postings no_repr three_posts alice_files alice);
    vm_compute; reflexivity.
Defined.

Lemma ascii_text_app a b : ascii_text (a ++ b) = ascii_text a && ascii_text b.
Proof. apply forallb_app. Qed.

Lemma ascii_hexdigit m : (m < 16)%N -> (hexdigit m <? 128)%N = true.
Proof.
  intros H. unfold hexdigit. apply N.ltb_lt.
  destruct (m <? 10)%N; lia.
Qed.

Lemma ascii_uescape c : ascii_text (uescape c) = true.
Proof.
  unfold uescape, hex4. rewrite ascii_text_app. cbn [ascii_text forallb].
  rewrite !ascii_hexdigit by (apply N.mod_lt; discriminate).
  reflexivity.
Qed.

Lemma ascii_encode_char c : ascii_text (encode_char c) = true.
Proof.
  unfold encode_char.
  repeat match goal with
         | |- context [if (c =? ?k)%N then _ else _] =>
             destruct (c =? k)%N; [reflexivity|]
         end.
  destruct ((32 <=? c) && (c <=? 126))%N eqn:E.
  - apply andb_prop in E. destruct E as [_ E]. apply N.leb_le in E.
    cbn [ascii_text forallb]. rewrite andb_true_r. apply N.ltb_lt. lia.
  - destruct (c <? 65536)%N; [apply ascii_uescape|].
    rewrite ascii_text_app, !ascii_uescape. reflexivity.
Qed.

Lemma ascii_encode_string s : ascii_text (encode_string s) = true.
Proof.
  unfold encode_string. rewrite !ascii_text_app.
  replace (ascii_text (flat_map encode_char s)) with true; [reflexivity|].
  symmetry. induction s as [|c s IH]; [reflexivity|].
  cbn [flat_map]. now rewrite ascii_text_app, ascii_encode_char, IH.
Qed.

Lemma ascii_uint_text d : ascii_text (uint_text d) = true.
Proof. induction d; cbn [uint_text ascii_text forallb]; auto. Qed.

Lemma ascii_int_text z : ascii_text (int_text z) = true.
Proof.
  unfold int_text. destruct (Z.to_int z); [apply ascii_uint_text|].
  cbn [ascii_text forallb]. apply ascii_uint_text.
Qed.

Lemma ascii_newline_indent level : ascii_text (newline_indent level) = true.
Proof.
  unfold newline_indent. cbn [ascii_text forallb].
  induction (4 * level)%nat as [|n IH]; [reflexivity|exact IH].
Qed.

Lemma ascii_concat_map (A : Type) (f : A -> text) (l : list A) :
  Forall (fun x => ascii_text (f x) = true) l ->
  ascii_text (List.concat (List.map f l)) = true.
Proof.
  induction 1 as [|x l Hx _ IH]; [reflexivity|].
  cbn [List.map List.concat]. now rewrite ascii_text_app, Hx, IH.
Qed.

Lemma ascii_encode v :
  forall level, valid_json v = true -> ascii_text (encode level v) = true.
Proof.
  induction v as [|b|z|x|s|l IH|d IH] using json_ind'; intros level Hv.
  - reflexivity.
  - now destruct b.
  - apply ascii_int_text.
  - discriminate.
  - apply ascii_encode_string.
  - assert (H : Forall (fun y => forall n, ascii_text (encode n y) = true) l).
    { cbn [valid_json] in Hv. rewrite forallb_forall in Hv.
      rewrite Forall_forall in *. intros y Hy n. apply IH; auto. }
    clear IH Hv. destruct l as [|x l]; [reflexivity|].
    inversion H as [|? ? Hx Hl]; subst. cbn [encode].
    rewrite !ascii_text_app, !ascii_newline_indent, Hx.
    rewrite ascii_concat_map; [reflexivity|].
    rewrite Forall_forall in *. intros y Hy.
    rewrite !ascii_text_app, ascii_newline_indent, (Hl y Hy). reflexivity.
  - assert (H : Forall (fun kv => forall n,
                          ascii_text (encode n (snd kv)) = true) d).
    { cbn [valid_json] in Hv. apply andb_prop in Hv. destruct Hv as [Hv _].
      rewrite forallb_forall in Hv. rewrite Forall_forall in *.
      intros kv Hkv n. apply IH; [assumption|].
      specialize (Hv kv Hkv). apply andb_prop in Hv. tauto. }
    clear IH Hv. destruct d as [|[k x] d]; [reflexivity|].
    inversion H as [|? ? Hx Hd]; subst. cbn [snd] in Hx. cbn [encode].
    rewrite !ascii_text_app, !ascii_newline_indent, ascii_encode_string, Hx.
    rewrite ascii_concat_map; [reflexivity|].
    rewrite Forall_forall in *. intros kv Hkv.
    rewrite !ascii_text_app, ascii_newline_indent, ascii_encode_string.
    rewrite (Hd kv Hkv). reflexivity.
Qed.

(** The patients file is plain ASCII: whatever characters the names and the
    other texts of a valid mapping hold, the document [save_patients] writes
    has only characters below 128. *)
Theorem save_patients_writes_ascii (data : json) (fs : files) :
  valid_json data = true ->
  exists s,
    patients_file (save_patients data fs) = Some s /\ ascii_text s = true.
Proof.
  intros Hv. exists (json_dumps data). split; [reflexivity|].
  now apply ascii_encode.
Qed.

Lemma save_patients_writes_ascii_witness :
  exists s,
    patients_file
      (save_patients (JDict [([233%N; 128512%N], JStr [26085%N; 34%N])])
         no_files) = Some s /\
    ascii_text s = true.
Proof.
  apply save_patients_writes_ascii. vm_compute. reflexivity.
Defined.

Section Scenarios.

Variable py_repr : json -> text.

Lemma serve_app rqs1 rqs2 fs :
  serve py_repr (rqs1 ++ rqs2) fs = serve py_repr rqs2 (serve py_repr rqs1 fs).
Proof. unfold serve. apply fold_left_app. Qed.

(** Once a patient is added, vitals can be posted for the name for good:
    whatever well-formed requests come before and after the one that adds the
    name, a posting for it raises nothing. *)
Theorem posting_after_add_succeeds
    (before after : list request) (name doctor disease medicines tests : text)
    (s d p : Z) (now : text) :
  forallb valid_request
    (before ++ AddPatient name doctor disease medicines tests :: after) = true ->
  fst (patient_details py_repr name s d p now
         (serve py_repr
            (before ++ AddPatient name doctor disease medicines tests :: after)
            no_files)) = Return tt.
Proof.
  intros Hrq. rewrite forallb_app in Hrq. apply andb_prop in Hrq.
  destruct Hrq as [Hb Ha]. cbn [forallb] in Ha. apply andb_prop in Ha.
  destruct Ha as [Hadd Ha].
  rewrite serve_app.
  change (serve py_repr (AddPatient name doctor disease medicines tests :: after)
            (serve py_repr before no_files))
    with (serve py_repr after
            (snd (add_patient name doctor disease medicines tests
                    (serve py_repr before no_files)))).
  destruct (serve_keeps_names py_repr before no_files [] eq_refl eq_refl Hb)
    as (ps0 & _ & Hl0 & Hok0 & _).
  destruct (add_patient_step _ ps0 name doctor disease medicines tests
              Hl0 Hok0 Hadd) as (_ & Hl1 & Hok1).
  destruct (serve_keeps_names py_repr after _ _ Hl1 Hok1 Ha)
    as (ps2 & extra & Hl2 & Hok2 & Hk2).
  assert (Hin : In name (List.map fst ps2)).
  { rewrite Hk2. apply in_or_app. left. apply dict_get_in.
    now rewrite dict_get_set_same. }
  apply dict_get_in in Hin.
  destruct (dict_get ps2 name) as [patient|] eqn:Hn; [|congruence].
  simpl in Hadd. repeat (apply andb_prop in Hadd; destruct Hadd as [Hadd ?]).
  destruct (post_step py_repr _ ps2 name patient s d p now Hl2 Hok2 Hadd Hn)
    as (f & vs & _ & _ & Hr & _).
  exact Hr.
Qed.

End Scenarios.

Lemma posting_after_add_succeeds_witness :
  fst (patient_details no_repr (T "Al") 170 95 80 (T "now")
         (serve no_repr al_and_alice no_files)) = Return tt.
Proof.
  apply (posting_after_add_succeeds no_repr [] (tl al_and_alice)
           (T "Al") (T "Dr. Smith") (T "flu") (T "a") (T "none")).
  vm_compute. reflexivity.
Defined.

Section Alert.

Variable py_repr : json -> text.

(** The alert of a HIGH reading names the patient and the doctor: a posting
    for a patient whose doctor is a string adds, when it is classified HIGH,
    one text to the log that starts with the time of the request, mentions the
    name and the doctor and ends in a line feed; a posting classified MEDIUM
    or LOW leaves the log as it is. *)
Theorem high_posting_names_patient_and_doctor
    (fs : files) (ps : pydict) (name doctor : text) (patient : json)
    (s d p : Z) (now : text) :
  load_patients fs = Return (JDict ps) ->
  store_ok ps = true ->
  valid_text name = true ->
  dict_get ps name = Some patient ->
  doctor_of patient = JStr doctor ->
  let fs' := snd (patient_details py_repr name s d p now fs) in
  if is_HIGH (assess_risk s d p)
  then exists line,
         alerts_file fs' = Some (alerts_text fs ++ line ++ [10%N]) /\
         is_prefix now line = true /\
         mentions name line = true /\ mentions doctor line = true
  else alerts_file fs' = alerts_file fs.
Proof.
  intros Hl Hok Hname Hn Hdoc. cbv zeta.
  destruct (post_step py_repr fs ps name patient s d p now Hl Hok Hname Hn)
    as (f & vs & _ & _ & _ & _ & _ & Ha).
  rewrite Ha. destruct (is_HIGH (assess_risk s d p)); [|reflexivity].
  rewrite Hdoc. unfold alert_line, alert_message. cbn [py_str].
  exists (now ++ T " - " ++ T "High Risk Alert for " ++ name
          ++ T "! Notify Doctor: " ++ doctor).
  split; [|split; [|split]].
  - unfold alerts_text. now rewrite <- !List.app_assoc.
  - apply is_prefix_app.
  - rewrite (List.app_assoc now), (List.app_assoc (now ++ _)).
    apply mentions_app.
  - rewrite (List.app_assoc now), (List.app_assoc (now ++ _)),
      (List.app_assoc ((now ++ _) ++ _)),
      (List.app_assoc (((now ++ _) ++ _) ++ _)).
    rewrite <- (List.app_nil_r doctor) at 2. apply mentions_app.
Qed.

End Alert.

Lemma high_posting_names_patient_and_doctor_witness :
  exists line,
    alerts_file (snd (patient_details no_repr (T "Alice") 170 95 80
                        (T "2024-01-01 10:00:00.000000") alice_files))
    = Some (alerts_text alice_files ++ line ++ [10%N]) /\
    is_prefix (T "2024-01-01 10:00:00.000000") line = true /\
    mentions (T "Alice") line = true /\ mentions (T "Dr. Smith") line = true.
Proof.
  apply (high_posting_names_patient_and_doctor no_repr alice_files alice
           (T "Alice") (T "Dr. Smith")
           (new_patient (T "Dr. Smith") (T "flu") (T "a,b") (T "none"))
           170 95 80 (T "2024-01-01 10:00:00.000000"));
    vm_compute; reflexivity.
Defined.
